(** * Order fulfilment and wallet ledger of the marketplace server

    A shallow embedding of the order, inventory, wallet and pending-earnings
    code of [server/routes.ts] and [server/customAuth.ts] (class
    [DatabaseStorage]), with the tables of [shared/schema.ts].

    Conventions of the model.
    - A table is the list of its rows, in storage order.  [update ... where]
      rewrites every matching row, [select ... where ... limit n] keeps the
      first [n] matching rows, [insert] appends a row.  No query of this
      code has an [order by]: which of several matching rows the database
      returns first is its choice, taken here to be storage order.
    - [decimal(18,2)] columns are integers counting hundredths (so "100.00"
      is [10000]); amounts are taken within the range of their column
      (numeric overflow is not modelled).  [integer] columns hold 32-bit
      values: a write of a value outside that range throws.
    - JavaScript numbers are binary64.  The product of an amount and a rate
      (the commission split, the referral commission) is computed as the
      code computes it, every operation rounding its exact result to the
      nearest binary64 number, and printed by [toFixed(2)]: module [Number].
      Sums and differences of stored amounts, and the product of a price
      and an integer quantity, are written exactly; binary64 prints the same
      hundredths as long as the result stays below 2^50 hundredths.
    - Timestamps are milliseconds since the epoch.  One request reads the
      clock once ([now]).
    - Values the environment chooses (clock, generated keys, the random
      order code) are inputs of a handler, gathered in [Env].
    - Every [await storage.f(...)] is one storage call.  A call may throw:
      because the statement violates a constraint of the schema, or because
      the call itself fails (lost connection, timeout), which a fuse in the
      world decides.  Nothing is rolled back when a call throws: the code
      opens no transaction. *)

From Stdlib Require Import ZArith List String Bool Lia Permutation.
From Stdlib Require Import QArith Qround Qabs Qpower Lqa.
Import ListNotations.
Open Scope string_scope.
Open Scope list_scope.
Open Scope Z_scope.

(** ** Scalar types *)

Definition ident := string.
Definition money := Z.
Definition timestamp := Z.

Definition newline : string := String (Ascii.ascii_of_nat 10) EmptyString.

(** [pgEnum]s of shared/schema.ts. *)
Inductive product_category := account | software.
Inductive product_item_status := available | reserved | sold.
Inductive order_status :=
  pending_payment | pending_confirmation | paid | cancelled | refunded.
Inductive payment_method := qr | wallet | manual.
Inductive transaction_type := credit | debit.
Inductive pending_earning_status := pending | released | earning_cancelled.

Definition product_category_eqb (a b : product_category) : bool :=
  match a, b with account, account | software, software => true | _, _ => false end.

Definition product_item_status_eqb (a b : product_item_status) : bool :=
  match a, b with
  | available, available | reserved, reserved | sold, sold => true
  | _, _ => false
  end.

Definition order_status_eqb (a b : order_status) : bool :=
  match a, b with
  | pending_payment, pending_payment
  | pending_confirmation, pending_confirmation
  | paid, paid | cancelled, cancelled | refunded, refunded => true
  | _, _ => false
  end.

Definition pending_earning_status_eqb (a b : pending_earning_status) : bool :=
  match a, b with
  | pending, pending | released, released
  | earning_cancelled, earning_cancelled => true
  | _, _ => false
  end.

(** [referrals.commission_rate], a [decimal(5,2)] read back as a string and
    parsed by the handlers: empty (falsy), not a number, or a number given
    here in hundredths of a percent ("5.00" is [500]). *)
Inductive rate_field := RateEmpty | RateNaN | RateNum (hundredths : Z).

(** ** Rows *)

Module User.
Record t := mk { id : ident; walletBalance : money }.
End User.

Module Product.
Record t := mk {
    id : ident; sellerId : ident; title : string;
    category : product_category; price : money; stock : Z }.
End Product.

Module ProductItem.
Record t := mk {
    id : ident; productId : ident; content : string;
    status : product_item_status; reservedUntil : option timestamp }.
End ProductItem.

Module Order.
Record t := mk {
    id : ident; orderCode : string; buyerId : ident; sellerId : ident;
    productId : ident; productItemId : option ident; quantity : Z;
    price : money; paymentMethod : payment_method; status : order_status;
    deliveredContent : option string; createdAt : timestamp }.
End Order.

(** The [reason] column is free text; the handlers build it from these
    templates. *)
Inductive reason :=
| ReasonPurchase (title : string) (quantity : Z)
| ReasonReferral (orderCode : string)
| ReasonEarningReleased
| ReasonEarningAutoReleased
| ReasonText (text : option string).

Module WalletTransaction.
Record t := mk {
    userId : ident; type : transaction_type; amount : money;
    why : reason; relatedOrderId : option ident }.
End WalletTransaction.

Module Referral.
Record t := mk {
    id : ident; referrerId : ident; referredId : ident;
    commissionRate : rate_field; totalEarned : money; isActive : bool }.
End Referral.

Module UserReferralCode.
Record t := mk { userId : ident; totalReferrals : Z; totalEarnings : money }.
End UserReferralCode.

Module PendingEarning.
Record t := mk {
    id : ident; sellerId : ident; orderId : ident; amount : money;
    status : pending_earning_status; releaseAt : timestamp;
    releasedAt : option timestamp; adminNote : option string }.
End PendingEarning.

Inductive log_meta :=
| MetaCommission (orderId : ident) (orderPrice commissionAmount sellerAmount : money)
| MetaOrder (orderId : ident)
| MetaCleanup (releasedItems cancelledOrders : nat)
| MetaUser (userId : ident) (balanceUpdated : bool)
| MetaBonus (sellerId : ident) (amount : money)
| MetaEarning (earningId : ident) (amount : money).

Module AdminLog.
Record t := mk { action : string; meta : log_meta }.
End AdminLog.

(** ** The database *)

Record DB := mkDB {
  users : list User.t;
  products : list Product.t;
  productItems : list ProductItem.t;
  orders : list Order.t;
  walletTransactions : list WalletTransaction.t;
  referrals : list Referral.t;
  userReferralCodes : list UserReferralCode.t;
  pendingEarnings : list PendingEarning.t;
  adminLogs : list AdminLog.t }.

Definition set_users (d : DB) (x : list User.t) : DB :=
  mkDB x (products d) (productItems d) (orders d) (walletTransactions d)
       (referrals d) (userReferralCodes d) (pendingEarnings d) (adminLogs d).
Definition set_products (d : DB) (x : list Product.t) : DB :=
  mkDB (users d) x (productItems d) (orders d) (walletTransactions d)
       (referrals d) (userReferralCodes d) (pendingEarnings d) (adminLogs d).
Definition set_productItems (d : DB) (x : list ProductItem.t) : DB :=
  mkDB (users d) (products d) x (orders d) (walletTransactions d)
       (referrals d) (userReferralCodes d) (pendingEarnings d) (adminLogs d).
Definition set_orders (d : DB) (x : list Order.t) : DB :=
  mkDB (users d) (products d) (productItems d) x (walletTransactions d)
       (referrals d) (userReferralCodes d) (pendingEarnings d) (adminLogs d).
Definition set_walletTransactions (d : DB) (x : list WalletTransaction.t) : DB :=
  mkDB (users d) (products d) (productItems d) (orders d) x
       (referrals d) (userReferralCodes d) (pendingEarnings d) (adminLogs d).
Definition set_referrals (d : DB) (x : list Referral.t) : DB :=
  mkDB (users d) (products d) (productItems d) (orders d) (walletTransactions d)
       x (userReferralCodes d) (pendingEarnings d) (adminLogs d).
Definition set_userReferralCodes (d : DB) (x : list UserReferralCode.t) : DB :=
  mkDB (users d) (products d) (productItems d) (orders d) (walletTransactions d)
       (referrals d) x (pendingEarnings d) (adminLogs d).
Definition set_pendingEarnings (d : DB) (x : list PendingEarning.t) : DB :=
  mkDB (users d) (products d) (productItems d) (orders d) (walletTransactions d)
       (referrals d) (userReferralCodes d) x (adminLogs d).
Definition set_adminLogs (d : DB) (x : list AdminLog.t) : DB :=
  mkDB (users d) (products d) (productItems d) (orders d) (walletTransactions d)
       (referrals d) (userReferralCodes d) (pendingEarnings d) x.

Definition emptyDB : DB := mkDB [] [] [] [] [] [] [] [] [].

(** [update t set ... where p]: rewrite the rows that satisfy [p]. *)
Definition update_where {A} (p : A -> bool) (f : A -> A) (rows : list A) : list A :=
  map (fun r => if p r then f r else r) rows.

(** SQL [x < y] on a nullable column: false on NULL. *)
Definition lt_nullable (x : option timestamp) (y : timestamp) : bool :=
  match x with Some t => t <? y | None => false end.

(** ** Numbers *)

(** [integer] columns: 32 bits. *)
Definition int4 (n : Z) : bool := (- 2147483648 <=? n) && (n <=? 2147483647).

(** JavaScript numbers: a finite binary64 number is given by its value, a
    rational.  Infinities, NaN, the sign of zero, overflow and subnormal
    numbers are left out: the amounts and rates of the handlers stay far
    from them. *)
Module Number.

(** The integer nearest to [x], a tie going to the even one. *)
Definition nearest_even (x : Q) : Z :=
  let f := Qfloor x in
  match (x - inject_Z f ?= 1 # 2)%Q with
  | Lt => f
  | Gt => f + 1
  | Eq => if Z.even f then f else f + 1
  end.

(** For [x > 0], the exponent [e] of its last binary digit when written
    with 53 digits: [2^52 <= x / 2^e < 2^53]. *)
Definition ulp_exponent (x : Q) : Z :=
  let k := Z.log2 (Qnum x) - Z.log2 (Zpos (Qden x)) in
  if Qle_bool (2 ^ k) x then k - 52 else k - 53.

Definition round_pos (x : Q) : Q :=
  let e := ulp_exponent x in (inject_Z (nearest_even (x / 2 ^ e)) * 2 ^ e)%Q.

(** The binary64 number nearest to [x], a tie going to the even
    significand: what reading a literal and every arithmetic operation do
    to their exact result. *)
Definition round (x : Q) : Q :=
  match Qnum x with
  | Z0 => 0%Q
  | Zpos _ => Qred (round_pos x)
  | Zneg _ => Qred (- round_pos (- x))
  end.

(** [x * y], [x - y], [x / y] *)
Definition mul (x y : Q) : Q := round (x * y).
Definition sub (x y : Q) : Q := round (x - y).
Definition div (x y : Q) : Q := round (x / y).

(** [parseFloat(s)] for the decimal string [s] of [c] hundredths, as a
    [decimal(_,2)] column is read back and as [toFixed(2)] prints. *)
Definition of_hundredths (c : Z) : Q := round (inject_Z c / 100).

(** [x.toFixed(2)], as a count of hundredths: "let n be an integer for which
    n / 10^f - x is as close to zero as possible; if there are two such n,
    pick the larger n", on the absolute value, the sign put back. *)
Definition toFixed2 (x : Q) : money :=
  Z.sgn (Qnum x) * Qfloor (Qabs x * 100 + (1 # 2)).

End Number.

(** Half the distance between 1 and the next binary64 number, 2^-53: the
    relative error of one rounding. *)
Definition unit_roundoff : Q := 1 # 9007199254740992.

(** [x] is [y] up to the relative error [eps]. *)
Definition near (eps x y : Q) : Prop := (Qabs (x - y) <= eps * Qabs y)%Q.

(** ** Effects: storage calls that may throw *)

Inductive exn :=
| StorageFault                         (* the call itself failed *)
| UniqueViolation (constraint : string)  (* primary key or unique column *)
| OutOfRange (type : string)           (* value out of range for a column type *)
| TypeError.                           (* property read on undefined *)

Record World := mkWorld { db : DB; fuse : option nat }.

Definition M (A : Type) : Type := World -> (exn + A) * World.

Definition ret {A} (a : A) : M A := fun w => (inr a, w).

Definition throw {A} (e : exn) : M A := fun w => (inl e, w).

Definition bind {A B} (m : M A) (k : A -> M B) : M B :=
  fun w => match m w with
           | (inl e, w') => (inl e, w')
           | (inr a, w') => k a w'
           end.

(** [try { m } catch (e) { h e }] *)
Definition try_catch {A} (m : M A) (h : exn -> M A) : M A :=
  fun w => match m w with
           | (inl e, w') => h e w'
           | (inr a, w') => (inr a, w')
           end.

(** What a storage method does to the database when the call goes through:
    its result, or the error the database raises, and the database it
    leaves (statements run before a failing one stay committed). *)
Definition storage_op (A : Type) : Type := DB -> (exn + A) * DB.

Definition query {A} (f : DB -> A) : storage_op A := fun d => (inr (f d), d).
Definition command (f : DB -> DB) : storage_op unit := fun d => (inr tt, f d).

(** [await storage.f(...)]: the fuse counts the calls left before one fails. *)
Definition await {A} (op : storage_op A) : M A :=
  fun w =>
    match fuse w with
    | Some O => (inl StorageFault, mkWorld (db w) None)
    | other =>
        let rest := match other with Some (S n) => Some n | _ => None end in
        let (r, d') := op (db w) in (r, mkWorld d' rest)
    end.

Declare Scope monad_scope.
Delimit Scope monad_scope with monad.
Notation "x <- m ;; k" := (bind m (fun x => k))
  (at level 61, m at next level, right associativity) : monad_scope.
Notation "m ;; k" := (bind m (fun _ => k))
  (at level 61, right associativity) : monad_scope.
Open Scope monad_scope.

(** [for (const x of xs) { await f(x) }] *)
Fixpoint for_each {A} (xs : list A) (f : A -> M unit) : M unit :=
  match xs with
  | [] => ret tt
  | x :: rest => f x ;; for_each rest f
  end.

(** ** Values chosen by the environment during one request *)

Record Env := mkEnv {
  now : timestamp;            (* Date.now(), new Date() *)
  newOrderId : ident;         (* gen_random_uuid() for the orders row *)
  newOrderCode : string;      (* DH-<8 digits of the clock><4 random characters> *)
  newEarningId : ident }.     (* gen_random_uuid() for the pending_earnings row *)

(** ** The storage layer: class DatabaseStorage of server/customAuth.ts *)

Module storage.

Definition getUser (i : ident) : storage_op (option User.t) :=
  query (fun d => find (fun u => (User.id u =? i)%string) (users d)).

Definition updateUserBalance (i : ident) (amount : money) : storage_op unit :=
  command (fun d => set_users d
    (update_where (fun u => (User.id u =? i)%string)
                  (fun u => User.mk (User.id u) amount) (users d))).

(** [updateUser(id, data)] with the one field of [data] the model keeps. *)
Definition updateUser (i : ident) (walletBalance : option money) : storage_op unit :=
  command (fun d => set_users d
    (update_where (fun u => (User.id u =? i)%string)
                  (fun u => User.mk (User.id u)
                              (match walletBalance with
                               | Some b => b
                               | None => User.walletBalance u
                               end)) (users d))).

(** [walletBalance = COALESCE(walletBalance, 0) + amount], skipped when the
    amount is not a positive number. *)
Definition creditUserWallet (i : ident) (amount : money) : storage_op unit :=
  if amount <=? 0 then query (fun _ => tt)
  else command (fun d => set_users d
    (update_where (fun u => (User.id u =? i)%string)
                  (fun u => User.mk (User.id u) (User.walletBalance u + amount))
                  (users d))).

(** products inner join users on the seller, first row. *)
Definition getProductWithSeller (i : ident) : storage_op (option Product.t) :=
  query (fun d => find (fun p => (Product.id p =? i)%string
                        && existsb (fun u => (User.id u =? Product.sellerId p)%string) (users d))
                       (products d)).

(** [stock] is an [integer] column. *)
Definition updateProductStock (i : ident) (stock : Z) : storage_op unit :=
  fun d =>
    if int4 stock
    then (inr tt, set_products d
           (update_where (fun p => (Product.id p =? i)%string)
              (fun p => Product.mk (Product.id p) (Product.sellerId p) (Product.title p)
                          (Product.category p) (Product.price p) stock)
              (products d)))
    else (inl (OutOfRange "integer"), d).

Definition is_available_of (productId : ident) (it : ProductItem.t) : bool :=
  (ProductItem.productId it =? productId)%string
  && product_item_status_eqb (ProductItem.status it) available.

(** [status = 'reserved' and reserved_until < t] *)
Definition is_expired (t : timestamp) (it : ProductItem.t) : bool :=
  product_item_status_eqb (ProductItem.status it) reserved
  && lt_nullable (ProductItem.reservedUntil it) t.

Definition is_expired_of (productId : ident) (t : timestamp) (it : ProductItem.t) : bool :=
  (ProductItem.productId it =? productId)%string && is_expired t it.

Definition make_available (it : ProductItem.t) : ProductItem.t :=
  ProductItem.mk (ProductItem.id it) (ProductItem.productId it)
                 (ProductItem.content it) available None.

Definition getAvailableProductItem (productId : ident) : storage_op (option ProductItem.t) :=
  query (fun d => find (is_available_of productId) (productItems d)).

(** First an update that resets the expired reservations of the product,
    then the select with [.limit(count)]: the query builder writes the
    LIMIT clause for a count that is not negative and leaves it out
    otherwise, so a negative count selects every available row. *)
Definition getAvailableProductItems (productId : ident) (count : Z) (t : timestamp)
  : storage_op (list ProductItem.t) :=
  fun d =>
    let swept := update_where (is_expired_of productId t) make_available (productItems d) in
    let rows := filter (is_available_of productId) swept in
    (inr (if count <? 0 then rows else firstn (Z.to_nat count) rows),
     set_productItems d swept).

Definition updateProductItemStatus (i : ident) (s : product_item_status) : storage_op unit :=
  command (fun d => set_productItems d
    (update_where (fun it => (ProductItem.id it =? i)%string)
                  (fun it => ProductItem.mk (ProductItem.id it) (ProductItem.productId it)
                               (ProductItem.content it) s
                               (match s with
                                | reserved => ProductItem.reservedUntil it
                                | _ => None
                                end))
                  (productItems d))).

Definition reserveProductItem (i : ident) (until : timestamp) : storage_op unit :=
  command (fun d => set_productItems d
    (update_where (fun it => (ProductItem.id it =? i)%string)
                  (fun it => ProductItem.mk (ProductItem.id it) (ProductItem.productId it)
                               (ProductItem.content it) reserved (Some until))
                  (productItems d))).

Definition cleanupExpiredReservations (t : timestamp) : storage_op nat :=
  fun d =>
    (inr (List.length (filter (is_expired t) (productItems d))),
     set_productItems d (update_where (is_expired t) make_available (productItems d))).

Definition set_order_status (s : order_status) (o : Order.t) : Order.t :=
  Order.mk (Order.id o) (Order.orderCode o) (Order.buyerId o) (Order.sellerId o)
           (Order.productId o) (Order.productItemId o) (Order.quantity o)
           (Order.price o) (Order.paymentMethod o) s
           (Order.deliveredContent o) (Order.createdAt o).

Definition is_expired_order (t : timestamp) (o : Order.t) : bool :=
  order_status_eqb (Order.status o) pending_payment
  && (Order.createdAt o <? t - 30 * 60 * 1000).

(** One turn of the loop of [cancelExpiredPendingOrders]. *)
Definition cancel_one (d : DB) (o : Order.t) : DB :=
  let d1 := match Order.productItemId o with
            | Some i => set_productItems d
                (update_where (fun it => (ProductItem.id it =? i)%string)
                              make_available (productItems d))
            | None => d
            end in
  set_orders d1 (update_where (fun o' => (Order.id o' =? Order.id o)%string)
                              (set_order_status cancelled) (orders d1)).

(** The unit an order is bound to, compared with a unit. *)
Definition bound_to (it : ProductItem.t) (o : Order.t) : bool :=
  match Order.productItemId o with
  | Some i => (ProductItem.id it =? i)%string
  | None => false
  end.

Definition cancelExpiredPendingOrders (t : timestamp) : storage_op nat :=
  fun d =>
    let expiredOrders := filter (is_expired_order t) (orders d) in
    (inr (List.length expiredOrders), fold_left cancel_one expiredOrders d).

(** [insert into orders]: [quantity] is an [integer] column, the primary
    key and [order_code] are unique.  [created_at] takes its default, the
    clock. *)
Definition createOrder (e : Env) (buyerId sellerId productId : ident)
    (productItemId : option ident) (quantity : Z) (price : money)
    (paymentMethod : payment_method) (status : order_status) : storage_op Order.t :=
  fun d =>
    let order := Order.mk (newOrderId e) (newOrderCode e) buyerId sellerId productId
                          productItemId quantity price paymentMethod status None (now e) in
    if negb (int4 quantity) then (inl (OutOfRange "integer"), d)
    else if existsb (fun o => (Order.id o =? newOrderId e)%string) (orders d)
    then (inl (UniqueViolation "orders_pkey"), d)
    else if existsb (fun o => (Order.orderCode o =? newOrderCode e)%string) (orders d)
    then (inl (UniqueViolation "orders_order_code_unique"), d)
    else (inr order, set_orders d (orders d ++ [order])).

Definition updateOrderStatus (i : ident) (s : order_status) : storage_op unit :=
  command (fun d => set_orders d
    (update_where (fun o => (Order.id o =? i)%string) (set_order_status s) (orders d))).

Definition updateOrderDeliveredContent (i : ident) (c : string) : storage_op unit :=
  command (fun d => set_orders d
    (update_where (fun o => (Order.id o =? i)%string)
       (fun o => Order.mk (Order.id o) (Order.orderCode o) (Order.buyerId o)
                   (Order.sellerId o) (Order.productId o) (Order.productItemId o)
                   (Order.quantity o) (Order.price o) (Order.paymentMethod o)
                   (Order.status o) (Some c) (Order.createdAt o))
       (orders d))).

(** The order with its product, its buyer (inner joins) and its item. *)
Record OrderWithDetails := mkDetails {
  order : Order.t; product : Product.t; productItem : option ProductItem.t }.

Definition getOrderWithDetails (i : ident) : storage_op (option OrderWithDetails) :=
  query (fun d =>
    match find (fun o => (Order.id o =? i)%string
                  && existsb (fun p => (Product.id p =? Order.productId o)%string) (products d)
                  && existsb (fun u => (User.id u =? Order.buyerId o)%string) (users d))
               (orders d) with
    | None => None
    | Some o =>
        match find (fun p => (Product.id p =? Order.productId o)%string) (products d) with
        | None => None
        | Some p =>
            Some (mkDetails o p
              (match Order.productItemId o with
               | Some ii => find (fun it => (ProductItem.id it =? ii)%string) (productItems d)
               | None => None
               end))
        end
    end).

Definition createWalletTransaction (t : WalletTransaction.t) : storage_op unit :=
  command (fun d => set_walletTransactions d (walletTransactions d ++ [t])).

Definition getReferralByReferredId (i : ident) : storage_op (option Referral.t) :=
  query (fun d => find (fun r => (Referral.referredId r =? i)%string) (referrals d)).

Definition updateReferralEarnings (i : ident) (amount : money) : storage_op unit :=
  command (fun d => set_referrals d
    (update_where (fun r => (Referral.id r =? i)%string)
       (fun r => Referral.mk (Referral.id r) (Referral.referrerId r) (Referral.referredId r)
                   (Referral.commissionRate r) (Referral.totalEarned r + amount)
                   (Referral.isActive r))
       (referrals d))).

Definition updateReferrerTotalEarnings (i : ident) (earnings : money) : storage_op unit :=
  command (fun d => set_userReferralCodes d
    (update_where (fun c => (UserReferralCode.userId c =? i)%string)
       (fun c => UserReferralCode.mk (UserReferralCode.userId c)
                   (UserReferralCode.totalReferrals c)
                   (UserReferralCode.totalEarnings c + earnings))
       (userReferralCodes d))).

Definition createAdminLog (action : string) (meta : log_meta) : storage_op unit :=
  command (fun d => set_adminLogs d (adminLogs d ++ [AdminLog.mk action meta])).

(** [insert into pending_earnings]: the primary key is unique. *)
Definition createPendingEarning (e : Env) (sellerId orderId : ident) (amount : money)
    (status : pending_earning_status) (releaseAt : timestamp)
  : storage_op PendingEarning.t :=
  fun d =>
    let earning := PendingEarning.mk (newEarningId e) sellerId orderId amount status
                                     releaseAt None None in
    if existsb (fun p => (PendingEarning.id p =? newEarningId e)%string) (pendingEarnings d)
    then (inl (UniqueViolation "pending_earnings_pkey"), d)
    else (inr earning, set_pendingEarnings d (pendingEarnings d ++ [earning])).

Definition getPendingEarningById (i : ident) : storage_op (option PendingEarning.t) :=
  query (fun d => find (fun p => (PendingEarning.id p =? i)%string) (pendingEarnings d)).

(** [order by release_at asc]: a stable insertion sort. *)
Fixpoint insert_by_releaseAt (p : PendingEarning.t) (l : list PendingEarning.t)
  : list PendingEarning.t :=
  match l with
  | [] => [p]
  | q :: rest =>
      if PendingEarning.releaseAt q <=? PendingEarning.releaseAt p
      then q :: insert_by_releaseAt p rest
      else p :: l
  end.

Definition sort_by_releaseAt (l : list PendingEarning.t) : list PendingEarning.t :=
  fold_right insert_by_releaseAt [] l.

Definition is_releasable (t : timestamp) (p : PendingEarning.t) : bool :=
  pending_earning_status_eqb (PendingEarning.status p) pending
  && (PendingEarning.releaseAt p <=? t).

Definition getReleasablePendingEarnings (t : timestamp) : storage_op (list PendingEarning.t) :=
  query (fun d => sort_by_releaseAt (filter (is_releasable t) (pendingEarnings d))).

(** [adminNote || null] *)
Definition or_null (s : option string) : option string :=
  match s with
  | Some EmptyString => None
  | other => other
  end.

Definition set_earning_status (s : pending_earning_status) (t : timestamp)
    (note : option string) (p : PendingEarning.t) : PendingEarning.t :=
  PendingEarning.mk (PendingEarning.id p) (PendingEarning.sellerId p)
                    (PendingEarning.orderId p) (PendingEarning.amount p)
                    s (PendingEarning.releaseAt p) (Some t) (or_null note).

(** The update has no condition on the status; it returns the first row it
    rewrote. *)
Definition releasePendingEarning (i : ident) (adminNote : option string) (t : timestamp)
  : storage_op (option PendingEarning.t) :=
  fun d =>
    let hit p := (PendingEarning.id p =? i)%string in
    (inr (option_map (set_earning_status released t adminNote)
                     (find hit (pendingEarnings d))),
     set_pendingEarnings d
       (update_where hit (set_earning_status released t adminNote) (pendingEarnings d))).

Definition cancelPendingEarning (i : ident) (adminNote : option string) (t : timestamp)
  : storage_op (option PendingEarning.t) :=
  fun d =>
    let hit p := (PendingEarning.id p =? i)%string in
    (inr (option_map (set_earning_status earning_cancelled t adminNote)
                     (find hit (pendingEarnings d))),
     set_pendingEarnings d
       (update_where hit (set_earning_status earning_cancelled t adminNote)
                     (pendingEarnings d))).

End storage.

(** ** HTTP responses *)

(** The JSON bodies the modelled handlers send.  The message texts of the
    source are Vietnamese or English sentences; each is a constructor. *)
Inductive body :=
| ProductNotFound                      (* "Product not found" *)
| NotEnoughStock                       (* "Not enough stock" *)
| WalletBalanceTooLow                  (* wallet balance does not cover the total *)
| NotEnoughItems (remaining : nat)     (* only [remaining] items are available *)
| OrderNotFound                        (* "Order not found" *)
| SellerNotFound                       (* "Seller not found" *)
| OrderConfirmed                       (* "Order confirmed" *)
| OrderCancelled                       (* "Order cancelled" *)
| EarningNotFoundOrProcessed           (* "Pending earning not found or already processed" *)
| EarningReleased (p : PendingEarning.t)
| BonusAdded                           (* "Bonus added" *)
| UserUpdated
| CleanupCompleted (releasedItems cancelledOrders : nat)
| OrderJson (o : Order.t)              (* res.json(order) *)
| ErrorMessage (e : exn).              (* { message: error.message } *)

Record response := Res { status : Z; payload : body }.

(** [sendNotification] catches its own errors and writes only to the
    notifications table, which the model leaves out. *)
Definition sendNotification (userId : ident) : M unit := ret tt.

(** [try { ... } catch (error) { res.status(500).json(...) }] *)
Definition handler (m : M response) : M response :=
  try_catch m (fun e => ret (Res 500 (ErrorMessage e))).

(** ** The commission and referral split *)

(** [const commissionRate = 0.05] *)
Definition commissionRate : Q := Number.round (5 # 100).

(** [(parseFloat(price) * commissionRate).toFixed(2)] *)
Definition commissionAmount (price : money) : money :=
  Number.toFixed2 (Number.mul (Number.of_hundredths price) commissionRate).

(** [(parseFloat(price) * (1 - commissionRate)).toFixed(2)] *)
Definition sellerAmount (price : money) : money :=
  Number.toFixed2 (Number.mul (Number.of_hundredths price) (Number.sub 1 commissionRate)).

(** [releaseDate.setDate(releaseDate.getDate() + 3)]: three calendar days,
    which is 72 hours where the local time has no clock change. *)
Definition releaseDate (t : timestamp) : timestamp := t + 3 * 24 * 60 * 60 * 1000.

(** [rate = parseFloat(commissionRate || "5.00")] then
    [isNaN(rate) ? 0.05 : rate / 100]. *)
Definition referralCommissionRate (r : rate_field) : Q :=
  match r with
  | RateEmpty => Number.div (Number.of_hundredths 500) 100
  | RateNaN => Number.round (5 # 100)
  | RateNum h => Number.div (Number.of_hundredths h) 100
  end.

(** [(parseFloat(price) * referralCommissionRate).toFixed(2)] *)
Definition referralCommission (price : money) (r : rate_field) : money :=
  Number.toFixed2 (Number.mul (Number.of_hundredths price) (referralCommissionRate r)).

(** The block "Check if buyer was referred and calculate referral
    commission", the same in the wallet branch and in the admin
    confirmation; its own try/catch swallows every error. *)
Definition payReferralCommission (buyerId : ident) (price : money) (o : Order.t) : M unit :=
  try_catch
    (referral <- await (storage.getReferralByReferredId buyerId) ;;
     match referral with
     | None => ret tt
     | Some referral =>
         if Referral.isActive referral then
           let amount := referralCommission price (Referral.commissionRate referral) in
           if 0 <? amount then
             referrer <- await (storage.getUser (Referral.referrerId referral)) ;;
             match referrer with
             | None => ret tt
             | Some _ =>
                 await (storage.creditUserWallet (Referral.referrerId referral) amount) ;;
                 await (storage.createWalletTransaction
                          (WalletTransaction.mk (Referral.referrerId referral) credit amount
                             (ReasonReferral (Order.orderCode o)) (Some (Order.id o)))) ;;
                 await (storage.updateReferralEarnings (Referral.id referral) amount) ;;
                 await (storage.updateReferrerTotalEarnings (Referral.referrerId referral) amount) ;;
                 sendNotification (Referral.referrerId referral)
             end
           else ret tt
         else ret tt
     end)
    (fun _ => ret tt).

(** The commission split: pending earning for the seller, then the log. *)
Definition holdSellerEarning (e : Env) (sellerId orderId : ident)
    (price : money) : M unit :=
  await (storage.createPendingEarning e sellerId orderId (sellerAmount price)
           pending (releaseDate (now e))) ;;
  await (storage.createAdminLog "platform_commission"
           (MetaCommission orderId price (commissionAmount price) (sellerAmount price))).

(** ** POST /api/orders *)

(** "For account products, try to reserve an item if available" *)
Definition reserveOneItem (e : Env) (productId : ident) (p : Product.t) : M (option ident) :=
  match Product.category p with
  | account =>
      item <- await (storage.getAvailableProductItem productId) ;;
      match item with
      | Some item =>
          await (storage.reserveProductItem (ProductItem.id item) (now e + 30 * 60 * 1000)) ;;
          ret (Some (ProductItem.id item))
      | None => ret None
      end
  | software => ret None
  end.

(** "check if enough items are available BEFORE processing", then "Mark
    items as sold".  Left: the early 400.  Right: [deliveredContent] and
    [soldItemIds]. *)
Definition takeItems (e : Env) (productId : ident) (p : Product.t) (quantity : Z)
  : M (response + (string * list ident)) :=
  match Product.category p with
  | account =>
      items <- await (storage.getAvailableProductItems productId quantity (now e)) ;;
      if Z.of_nat (List.length items) <? quantity
      then ret (inl (Res 400 (NotEnoughItems (List.length items))))
      else
        for_each items (fun item =>
          await (storage.updateProductItemStatus (ProductItem.id item) sold)) ;;
        ret (inr (String.concat newline (map ProductItem.content items),
                  map ProductItem.id items))
  | software => ret (inr (EmptyString, []))
  end.

(** The wallet branch after the items are sold: debit, ledger entry, paid
    order, delivery, stock, commission split, referral. *)
Definition payFromWallet (e : Env) (userId productId : ident) (buyer : User.t) (p : Product.t)
    (quantity : Z) (totalPrice : money) (deliveredContent : string)
    (soldItemIds : list ident) : M response :=
  let newBuyerBalance := User.walletBalance buyer - totalPrice in
  await (storage.updateUserBalance userId newBuyerBalance) ;;
  await (storage.createWalletTransaction
           (WalletTransaction.mk userId debit totalPrice
              (ReasonPurchase (Product.title p) quantity) None)) ;;
  o <- await (storage.createOrder e userId (Product.sellerId p) productId
                (hd_error soldItemIds) quantity totalPrice wallet paid) ;;
  (if (deliveredContent =? EmptyString)%string then ret tt
   else await (storage.updateOrderDeliveredContent (Order.id o) deliveredContent)) ;;
  (match Product.category p with
   | account => await (storage.updateProductStock productId (Product.stock p - quantity))
   | software => ret tt
   end) ;;
  holdSellerEarning e (Product.sellerId p) (Order.id o) totalPrice ;;
  sendNotification userId ;;
  sendNotification (Product.sellerId p) ;;
  payReferralCommission userId totalPrice o ;;
  ret (Res 201 (OrderJson o)).

Definition walletBranch (e : Env) (userId productId : ident) (p : Product.t) (quantity : Z)
    (totalPrice : money) : M response :=
  buyer <- await (storage.getUser userId) ;;
  match buyer with
  | None => ret (Res 400 WalletBalanceTooLow)
  | Some buyer =>
      if User.walletBalance buyer <? totalPrice then ret (Res 400 WalletBalanceTooLow)
      else
        taken <- takeItems e productId p quantity ;;
        match taken with
        | inl early => ret early
        | inr (deliveredContent, soldItemIds) =>
            payFromWallet e userId productId buyer p quantity totalPrice deliveredContent
                          soldItemIds
        end
  end.

(** [quantity] is the quantity of the request body when it is an integer
    (one that a JavaScript number holds exactly); the handler does not
    validate it, and it may be zero or negative.  The total,
    [(parseFloat(product.price) * quantity).toFixed(2)], is written as the
    exact product. *)
Definition post_api_orders (e : Env) (userId productId : ident) (quantity : Z)
    (paymentMethod : payment_method) : M response :=
  handler
    (found <- await (storage.getProductWithSeller productId) ;;
     match found with
     | None => ret (Res 404 ProductNotFound)
     | Some p =>
         if product_category_eqb (Product.category p) account && (Product.stock p <? quantity)
         then ret (Res 400 NotEnoughStock)
         else
           productItemId <- reserveOneItem e productId p ;;
           let totalPrice := Product.price p * quantity in
           match paymentMethod with
           | wallet => walletBranch e userId productId p quantity totalPrice
           | _ =>
               o <- await (storage.createOrder e userId (Product.sellerId p) productId
                             productItemId quantity totalPrice paymentMethod pending_payment) ;;
               ret (Res 201 (OrderJson o))
           end
     end).

(** ** POST /api/admin/orders/:id/confirm *)

Definition post_admin_orders_confirm (e : Env) (orderId : ident) : M response :=
  handler
    (found <- await (storage.getOrderWithDetails orderId) ;;
     match found with
     | None => ret (Res 404 OrderNotFound)
     | Some det =>
         let o := storage.order det in
         await (storage.updateOrderStatus orderId paid) ;;
         (match Order.productItemId o, storage.productItem det with
          | Some itemId, Some item =>
              await (storage.updateProductItemStatus itemId sold) ;;
              await (storage.updateOrderDeliveredContent orderId (ProductItem.content item))
          | _, _ => ret tt
          end) ;;
         (match Product.category (storage.product det) with
          | account =>
              await (storage.updateProductStock (Order.productId o)
                       (Product.stock (storage.product det) - Order.quantity o))
          | software => ret tt
          end) ;;
         holdSellerEarning e (Order.sellerId o) (Order.id o) (Order.price o) ;;
         await (storage.createAdminLog "order_confirmed" (MetaOrder orderId)) ;;
         sendNotification (Order.buyerId o) ;;
         sendNotification (Order.sellerId o) ;;
         payReferralCommission (Order.buyerId o) (Order.price o) o ;;
         ret (Res 200 OrderConfirmed)
     end).

(** ** POST /api/admin/orders/:id/cancel *)

Definition post_admin_orders_cancel (orderId : ident) : M response :=
  handler
    (found <- await (storage.getOrderWithDetails orderId) ;;
     match found with
     | None => ret (Res 404 OrderNotFound)
     | Some det =>
         await (storage.updateOrderStatus orderId cancelled) ;;
         (* "Release reserved item" *)
         (match Order.productItemId (storage.order det) with
          | Some itemId => await (storage.updateProductItemStatus itemId available)
          | None => ret tt
          end) ;;
         await (storage.createAdminLog "order_cancelled" (MetaOrder orderId)) ;;
         ret (Res 200 OrderCancelled)
     end).

(** ** POST /api/admin/sellers/:id/bonus

    [amount] is the amount of the request body when it is a number of
    hundredths.  The handler does not validate it: it adds whatever number
    the body carries to the balance in binary64 and stores the number as it
    came in the ledger, which rounds it on its own; amounts with more than
    two decimals are outside this definition. *)

Definition post_admin_sellers_bonus (sellerId : ident) (amount : money)
    (why : option string) : M response :=
  handler
    (found <- await (storage.getUser sellerId) ;;
     match found with
     | None => ret (Res 404 SellerNotFound)
     | Some u =>
         await (storage.updateUserBalance sellerId (User.walletBalance u + amount)) ;;
         await (storage.createWalletTransaction
                  (WalletTransaction.mk sellerId credit amount
                     (ReasonText (match storage.or_null why with
                                  | None => Some "Admin bonus"%string
                                  | w => w
                                  end)) None)) ;;
         await (storage.createAdminLog "seller_bonus_added" (MetaBonus sellerId amount)) ;;
         ret (Res 200 BonusAdded)
     end).

(** ** PATCH /api/admin/users/:id

    Of the fields of the request body only [walletBalance] is kept:
    [if (walletBalance !== undefined) updates.walletBalance = walletBalance]. *)

Definition patch_admin_users (userId : ident) (walletBalance : option money) : M response :=
  handler
    (await (storage.updateUser userId walletBalance) ;;
     await (storage.createAdminLog "user_updated"
              (MetaUser userId (match walletBalance with Some _ => true | None => false end))) ;;
     ret (Res 200 UserUpdated)).

(** ** POST /api/admin/cleanup *)

Definition post_admin_cleanup (e : Env) : M response :=
  handler
    (releasedItems <- await (storage.cleanupExpiredReservations (now e)) ;;
     cancelledOrders <- await (storage.cancelExpiredPendingOrders (now e)) ;;
     await (storage.createAdminLog "system_cleanup" (MetaCleanup releasedItems cancelledOrders)) ;;
     ret (Res 200 (CleanupCompleted releasedItems cancelledOrders))).

(** ** Pending earnings: the admin release and the periodic job *)

(** "Credit seller's wallet": read the seller, write the new balance, add
    the ledger entry. *)
Definition creditSeller (rel : PendingEarning.t) (why : reason) : M unit :=
  seller <- await (storage.getUser (PendingEarning.sellerId rel)) ;;
  match seller with
  | Some seller =>
      await (storage.updateUserBalance (PendingEarning.sellerId rel)
               (User.walletBalance seller + PendingEarning.amount rel)) ;;
      await (storage.createWalletTransaction
               (WalletTransaction.mk (PendingEarning.sellerId rel) credit
                  (PendingEarning.amount rel) why (Some (PendingEarning.orderId rel)))) ;;
      sendNotification (PendingEarning.sellerId rel)
  | None => ret tt
  end.

(** [released.sellerId] on the row the update returned: a TypeError when it
    returned none. *)
Definition returned_row (r : option PendingEarning.t) : M PendingEarning.t :=
  match r with
  | Some rel => ret rel
  | None => throw TypeError
  end.

(** POST /api/admin/pending-earnings/:id/release *)
Definition post_admin_pending_earnings_release (e : Env) (earningId : ident)
    (adminNote : option string) : M response :=
  handler
    (earning <- await (storage.getPendingEarningById earningId) ;;
     match earning with
     | None => ret (Res 404 EarningNotFoundOrProcessed)
     | Some earning =>
         if negb (pending_earning_status_eqb (PendingEarning.status earning) pending)
         then ret (Res 404 EarningNotFoundOrProcessed)
         else
           r <- await (storage.releasePendingEarning earningId adminNote (now e)) ;;
           rel <- returned_row r ;;
           creditSeller rel ReasonEarningReleased ;;
           await (storage.createAdminLog "pending_earning_released"
                    (MetaEarning earningId (PendingEarning.amount rel))) ;;
           ret (Res 200 (EarningReleased rel))
     end).

(** The note the job writes (in the source a Vietnamese sentence: released
    automatically after three days). *)
Definition autoReleaseNote : string := "auto-released after 3 days".

(** The job [releasePendingEarnings], run every five minutes: each earning
    in its own try/catch, the whole in another. *)
Definition releasePendingEarnings (e : Env) : M unit :=
  try_catch
    (releasableEarnings <- await (storage.getReleasablePendingEarnings (now e)) ;;
     for_each releasableEarnings (fun earning =>
       try_catch
         (r <- await (storage.releasePendingEarning (PendingEarning.id earning)
                        (Some autoReleaseNote) (now e)) ;;
          rel <- returned_row r ;;
          creditSeller rel ReasonEarningAutoReleased)
         (fun _ => ret tt)))
    (fun _ => ret tt).

(** Running a handler on a database in which no storage call fails. *)
Definition run {A} (m : M A) (d : DB) : (exn + A) * DB :=
  let (r, w) := m (mkWorld d None) in (r, db w).

(** Running it when the [n]-th storage call from now (counting from 0)
    fails. *)
Definition run_failing {A} (n : nat) (m : M A) (d : DB) : (exn + A) * DB :=
  let (r, w) := m (mkWorld d (Some n)) in (r, db w).

(** * Observations on a database *)

(** [balanceOf]: the denormalised balance column of an account. *)
Definition balanceOf (d : DB) (u : ident) : option money :=
  option_map User.walletBalance (find (fun r => (User.id r =? u)%string) (users d)).

(** The signed amount of a ledger entry: credits count up, debits down. *)
Definition signedAmount (t : WalletTransaction.t) : Z :=
  match WalletTransaction.type t with
  | credit => WalletTransaction.amount t
  | debit => - WalletTransaction.amount t
  end.

(** The signed sum of the wallet transactions of an account. *)
Definition ledgerSum (d : DB) (u : ident) : Z :=
  fold_right Z.add 0
    (map signedAmount
       (filter (fun t => (WalletTransaction.userId t =? u)%string) (walletTransactions d))).

(** Every account's balance column equals the signed sum of its entries. *)
Definition ledger_consistent (d : DB) : bool :=
  forallb (fun u => User.walletBalance u =? ledgerSum d (User.id u)) (users d).

Definition item_status (d : DB) (i : ident) : option product_item_status :=
  option_map ProductItem.status
    (find (fun it => (ProductItem.id it =? i)%string) (productItems d)).

Definition order_status_of (d : DB) (i : ident) : option order_status :=
  option_map Order.status (find (fun o => (Order.id o =? i)%string) (orders d)).

(** ** Sample databases *)

Definition sampleEnv : Env := mkEnv 1000 "o-new" "DH-NEW" "pe-new".

(** One account with an empty ledger. *)
Definition ledgerDB : DB :=
  set_users emptyDB [User.mk "alice" 0; User.mk "bob" 0].

(** A paid order whose bound unit is sold. *)
Definition paidOrderDB : DB :=
  mkDB [User.mk "buyer" 0; User.mk "seller" 0]
       [Product.mk "p1" "seller" "Account" account 10000 0]
       [ProductItem.mk "i1" "p1" "login|secret" sold None]
       [Order.mk "o1" "DH-1" "buyer" "seller" "p1" (Some "i1") 1 10000 wallet paid
                 (Some "login|secret"%string) 0]
       [] [] [] [] [].

(** A product whose only unit is reserved with a reservation that ended at
    time 5. *)
Definition expiredReservationDB : DB :=
  mkDB [User.mk "buyer" 50000; User.mk "seller" 0]
       [Product.mk "p1" "seller" "Account" account 10000 1]
       [ProductItem.mk "i1" "p1" "login|secret" reserved (Some 5)]
       [] [] [] [] [] [].

(** ** The cleanup sweeps *)

(** A reserved unit whose reservation ended before [t]. *)
Definition reservation_expired (t : timestamp) (it : ProductItem.t) : Prop :=
  ProductItem.status it = reserved
  /\ exists u, ProductItem.reservedUntil it = Some u /\ u < t.

(** An order still awaiting payment that was created more than 30 minutes
    before [t]. *)
Definition stale_order (t : timestamp) (o : Order.t) : Prop :=
  Order.status o = pending_payment /\ Order.createdAt o < t - 30 * 60 * 1000.

(** An order awaiting payment since time 0 with its unit reserved, and a
    second unit whose reservation ended at time 5. *)
Definition sweepDB : DB :=
  mkDB [User.mk "buyer" 0; User.mk "seller" 0]
       [Product.mk "p1" "seller" "Account" account 10000 2]
       [ProductItem.mk "i1" "p1" "login1|secret1" reserved (Some 1800000);
        ProductItem.mk "i2" "p1" "login2|secret2" reserved (Some 5)]
       [Order.mk "o1" "DH-1" "buyer" "seller" "p1" (Some "i1") 1 10000 qr pending_payment
                 None 0]
       [] [] [] [] [].

(** ** The commission split *)

(** The referral a paid order of [buyerId] pays out, with the amount: the
    first referral row of the buyer, when it is active, the rounded
    commission is positive and the referrer's account exists. *)
Definition referralDue (buyerId : ident) (price : money) (d : DB)
  : option (Referral.t * money) :=
  match find (fun r => (Referral.referredId r =? buyerId)%string) (referrals d) with
  | Some r =>
      let amount := referralCommission price (Referral.commissionRate r) in
      if Referral.isActive r && (0 <? amount)
         && existsb (fun u => (User.id u =? Referral.referrerId r)%string) (users d)
      then Some (r, amount)
      else None
  | None => None
  end.

(** The pending earning both payment paths create for an order. *)
Definition earningFor (e : Env) (o : Order.t) : PendingEarning.t :=
  PendingEarning.mk (newEarningId e) (Order.sellerId o) (Order.id o)
                    (sellerAmount (Order.price o)) pending
                    (now e + 3 * 24 * 60 * 60 * 1000) None None.

(** A product sold for one hundredth, with a funded buyer. *)
Definition pennyDB : DB :=
  mkDB [User.mk "buyer" 50000; User.mk "seller" 0; User.mk "friend" 0]
       [Product.mk "tool" "seller" "Tool" software 1 0]
       [] [] []
       [Referral.mk "r1" "friend" "buyer" (RateNum 500) 0 true]
       [UserReferralCode.mk "friend" 1 0] [] [].

(** ** The wallet purchase *)

(** The order row the wallet branch inserts. *)
Definition walletOrder (e : Env) (userId productId : ident) (p : Product.t)
    (quantity : Z) (soldItemIds : list ident) : Order.t :=
  Order.mk (newOrderId e) (newOrderCode e) userId (Product.sellerId p) productId
           (hd_error soldItemIds) quantity (Product.price p * quantity) wallet paid
           None (now e).

(** [paid_by_wallet ... d d1 o]: [d1] is [d] after the debit, the ledger
    entry, the insertion of the paid order [o], the delivery, the stock
    update and the commission split, that is, where the referral block
    starts. *)
Definition paid_by_wallet (e : Env) (userId productId : ident) (buyer : User.t)
    (p : Product.t) (quantity : Z) (deliveredContent : string) (soldItemIds : list ident)
    (d d1 : DB) (o : Order.t) : Prop :=
  let totalPrice := Product.price p * quantity in
  o = walletOrder e userId productId p quantity soldItemIds
  /\ existsb (fun x => (Order.id x =? newOrderId e)%string) (orders d) = false
  /\ existsb (fun x => (Order.orderCode x =? newOrderCode e)%string) (orders d) = false
  /\ existsb (fun x => (PendingEarning.id x =? newEarningId e)%string) (pendingEarnings d)
     = false
  /\ users d1
     = update_where (fun u => (User.id u =? userId)%string)
         (fun u => User.mk (User.id u) (User.walletBalance buyer - totalPrice)) (users d)
  /\ walletTransactions d1
     = walletTransactions d
       ++ [WalletTransaction.mk userId debit totalPrice
             (ReasonPurchase (Product.title p) quantity) None]
  /\ orders d1
     = (if (deliveredContent =? EmptyString)%string then orders d ++ [o]
        else update_where (fun x => (Order.id x =? Order.id o)%string)
               (fun x => Order.mk (Order.id x) (Order.orderCode x) (Order.buyerId x)
                           (Order.sellerId x) (Order.productId x) (Order.productItemId x)
                           (Order.quantity x) (Order.price x) (Order.paymentMethod x)
                           (Order.status x) (Some deliveredContent) (Order.createdAt x))
               (orders d ++ [o]))
  /\ productItems d1 = productItems d
  /\ products d1
     = (match Product.category p with
        | account =>
            update_where (fun x => (Product.id x =? productId)%string)
              (fun x => Product.mk (Product.id x) (Product.sellerId x) (Product.title x)
                          (Product.category x) (Product.price x) (Product.stock p - quantity))
              (products d)
        | software => products d
        end)
  /\ pendingEarnings d1 = pendingEarnings d ++ [earningFor e o]
  /\ referrals d1 = referrals d
  /\ userReferralCodes d1 = userReferralCodes d.

(** What the referral block did between [d1] and [d']. *)
Definition referral_paid (buyerId : ident) (price : money) (o : Order.t) (d1 d' : DB)
  : Prop :=
  products d' = products d1 /\ productItems d' = productItems d1
  /\ orders d' = orders d1 /\ pendingEarnings d' = pendingEarnings d1
  /\ match referralDue buyerId price d1 with
     | Some (r, amount) =>
         users d' = update_where (fun u => (User.id u =? Referral.referrerId r)%string)
                      (fun u => User.mk (User.id u) (User.walletBalance u + amount))
                      (users d1)
         /\ walletTransactions d'
            = walletTransactions d1
              ++ [WalletTransaction.mk (Referral.referrerId r) credit amount
                    (ReasonReferral (Order.orderCode o)) (Some (Order.id o))]
         /\ referrals d'
            = update_where (fun x => (Referral.id x =? Referral.id r)%string)
                (fun x => Referral.mk (Referral.id x) (Referral.referrerId x)
                            (Referral.referredId x) (Referral.commissionRate x)
                            (Referral.totalEarned x + amount) (Referral.isActive x))
                (referrals d1)
         /\ userReferralCodes d'
            = update_where
                (fun c => (UserReferralCode.userId c =? Referral.referrerId r)%string)
                (fun c => UserReferralCode.mk (UserReferralCode.userId c)
                            (UserReferralCode.totalReferrals c)
                            (UserReferralCode.totalEarnings c + amount))
                (userReferralCodes d1)
     | None =>
         users d' = users d1 /\ walletTransactions d' = walletTransactions d1
         /\ referrals d' = referrals d1 /\ userReferralCodes d' = userReferralCodes d1
     end.

(** ** The inventory steps of POST /api/orders, on the product_items table *)

Definition make_reserved (until : timestamp) (it : ProductItem.t) : ProductItem.t :=
  ProductItem.mk (ProductItem.id it) (ProductItem.productId it) (ProductItem.content it)
                 reserved (Some until).

Definition make_sold (it : ProductItem.t) : ProductItem.t :=
  ProductItem.mk (ProductItem.id it) (ProductItem.productId it) (ProductItem.content it)
                 sold None.

(** The table after "try to reserve an item if available". *)
Definition afterReservation (e : Env) (productId : ident) (p : Product.t)
    (items : list ProductItem.t) : list ProductItem.t :=
  match Product.category p with
  | account =>
      match find (storage.is_available_of productId) items with
      | Some it =>
          update_where (fun x => (ProductItem.id x =? ProductItem.id it)%string)
                       (make_reserved (now e + 30 * 60 * 1000)) items
      | None => items
      end
  | software => items
  end.

(** The table after the reset of expired reservations of the product. *)
Definition afterSweep (e : Env) (productId : ident) (items : list ProductItem.t)
  : list ProductItem.t :=
  update_where (storage.is_expired_of productId (now e)) storage.make_available items.

(** The rows [getAvailableProductItems] returns. *)
Definition scanned (productId : ident) (quantity : Z) (items : list ProductItem.t)
  : list ProductItem.t :=
  if quantity <? 0 then filter (storage.is_available_of productId) items
  else firstn (Z.to_nat quantity) (filter (storage.is_available_of productId) items).

(** The table after "Mark items as sold". *)
Definition markSold (ids : list ident) (items : list ProductItem.t) : list ProductItem.t :=
  fold_left (fun acc i => update_where (fun x => (ProductItem.id x =? i)%string) make_sold acc)
            ids items.

(** A key the environment generated is already taken: the insert of the
    order or of the pending earning violates a unique constraint. *)
Definition key_collision (e : Env) (d : DB) : Prop :=
  existsb (fun x => (Order.id x =? newOrderId e)%string) (orders d) = true
  \/ existsb (fun x => (Order.orderCode x =? newOrderCode e)%string) (orders d) = true
  \/ existsb (fun x => (PendingEarning.id x =? newEarningId e)%string) (pendingEarnings d)
     = true.

(** A write of the wallet branch that the database rejects: a generated key
    is already taken, or the quantity or the new stock does not fit its
    [integer] column. *)
Definition write_rejected (e : Env) (p : Product.t) (quantity : Z) (d : DB) : Prop :=
  key_collision e d
  \/ int4 quantity = false
  \/ (Product.category p = account /\ int4 (Product.stock p - quantity) = false).

(** The debit of the buyer and its ledger entry are in [d']. *)
Definition debit_committed (userId : ident) (buyer : User.t) (p : Product.t)
    (quantity : Z) (d0 d' : DB) : Prop :=
  users d'
  = update_where (fun u => (User.id u =? userId)%string)
      (fun u => User.mk (User.id u) (User.walletBalance buyer - Product.price p * quantity))
      (users d0)
  /\ walletTransactions d'
     = walletTransactions d0
       ++ [WalletTransaction.mk userId debit (Product.price p * quantity)
             (ReasonPurchase (Product.title p) quantity) None].

(** The end of the wallet branch from [d0] on: a 500 when the database
    rejects a write, the debit staying committed, else the 201 with the paid
    order and the referral block. *)
Definition wallet_paid (e : Env) (userId productId : ident) (buyer : User.t)
    (p : Product.t) (quantity : Z) (deliveredContent : string) (soldItemIds : list ident)
    (d0 : DB) (r : response) (d' : DB) : Prop :=
  (status r = 500 /\ write_rejected e p quantity d0
   /\ debit_committed userId buyer p quantity d0 d')
  \/ exists o d1,
       r = Res 201 (OrderJson o)
       /\ paid_by_wallet e userId productId buyer p quantity deliveredContent
                         soldItemIds d0 d1 o
       /\ referral_paid userId (Product.price p * quantity) o d1 d'.

(** The wallet branch from the read of the buyer on, started on [d]. *)
Definition wallet_branch_result (e : Env) (userId productId : ident) (p : Product.t)
    (quantity : Z) (d : DB) (r : response) (d' : DB) : Prop :=
  match find (fun u => (User.id u =? userId)%string) (users d) with
  | None => r = Res 400 WalletBalanceTooLow /\ d' = d
  | Some buyer =>
      if User.walletBalance buyer <? Product.price p * quantity
      then r = Res 400 WalletBalanceTooLow /\ d' = d
      else
        match Product.category p with
        | software =>
            wallet_paid e userId productId buyer p quantity EmptyString [] d r d'
        | account =>
            let items2 := afterSweep e productId (productItems d) in
            let taken := scanned productId quantity items2 in
            if Z.of_nat (List.length taken) <? quantity
            then r = Res 400 (NotEnoughItems (List.length taken))
                 /\ d' = set_productItems d items2
            else
              wallet_paid e userId productId buyer p quantity
                (String.concat newline (map ProductItem.content taken))
                (map ProductItem.id taken)
                (set_productItems d (markSold (map ProductItem.id taken) items2))
                r d'
        end
  end.

(** What a wallet order answers and leaves when no storage call fails. *)
Definition wallet_result (e : Env) (userId productId : ident) (quantity : Z)
    (d : DB) (r : response) (d' : DB) : Prop :=
  match find (fun p => (Product.id p =? productId)%string
                && existsb (fun u => (User.id u =? Product.sellerId p)%string) (users d))
             (products d) with
  | None => r = Res 404 ProductNotFound /\ d' = d
  | Some p =>
      if product_category_eqb (Product.category p) account && (Product.stock p <? quantity)
      then r = Res 400 NotEnoughStock /\ d' = d
      else
        wallet_branch_result e userId productId p quantity
          (set_productItems d (afterReservation e productId p (productItems d))) r d'
  end.

(** A referral row after [amount] was added to its cumulative earnings. *)
Definition earned (amount : money) (x : Referral.t) : Referral.t :=
  Referral.mk (Referral.id x) (Referral.referrerId x) (Referral.referredId x)
              (Referral.commissionRate x) (Referral.totalEarned x + amount)
              (Referral.isActive x).

(** The ledger entry of a referral commission. *)
Definition referralCredit (ref : Referral.t) (amount : money) (o : Order.t)
  : WalletTransaction.t :=
  WalletTransaction.mk (Referral.referrerId ref) credit amount
                       (ReasonReferral (Order.orderCode o)) (Some (Order.id o)).

(** The ledger entry of a wallet purchase. *)
Definition purchaseDebit (userId : ident) (p : Product.t) (quantity : Z)
  : WalletTransaction.t :=
  WalletTransaction.mk userId debit (Product.price p * quantity)
                       (ReasonPurchase (Product.title p) quantity) None.

(** [d0] differs from [d] at most in the product_items table. *)
Definition same_but_items (d d0 : DB) : Prop :=
  users d0 = users d /\ products d0 = products d /\ orders d0 = orders d
  /\ walletTransactions d0 = walletTransactions d /\ referrals d0 = referrals d
  /\ userReferralCodes d0 = userReferralCodes d
  /\ pendingEarnings d0 = pendingEarnings d.

(** The units a wallet order of [quantity] took: for an account product the
    available rows the scan returned after the reservation and the sweep
    ([quantity] of them when the quantity is not negative), all marked sold
    in [d0]; none for software. *)
Definition units_sold (e : Env) (productId : ident) (p : Product.t) (quantity : Z)
    (d d0 : DB) (deliveredContent : string) (soldItemIds : list ident) : Prop :=
  match Product.category p with
  | account =>
      let items2 := afterSweep e productId (afterReservation e productId p (productItems d)) in
      let taken := scanned productId quantity items2 in
      (0 <= quantity -> Z.of_nat (List.length taken) = quantity)
      /\ soldItemIds = map ProductItem.id taken
      /\ deliveredContent = String.concat newline (map ProductItem.content taken)
      /\ productItems d0 = markSold soldItemIds items2
  | software =>
      deliveredContent = EmptyString /\ soldItemIds = []
      /\ productItems d0 = productItems d
  end.

(** The buyer of [pennyDB] was referred by "friend" at 5%. *)
Definition pennyReferral : Referral.t :=
  Referral.mk "r1" "friend" "buyer" (RateNum 500) 0 true.

(** ** Stock that exactly covers the request *)

(** A unit the multi-unit scan of [productId] at time [t] can return:
    available, or reserved with a reservation that ended before [t]. *)
Definition allocatable (productId : ident) (t : timestamp) (it : ProductItem.t) : bool :=
  storage.is_available_of productId it || storage.is_expired_of productId t it.

(** Two available units, a buyer who can pay for both. *)
Definition exactStockDB : DB :=
  mkDB [User.mk "buyer" 50000; User.mk "seller" 0]
       [Product.mk "p1" "seller" "Account" account 10000 2]
       [ProductItem.mk "i1" "p1" "login1|secret1" available None;
        ProductItem.mk "i2" "p1" "login2|secret2" available None]
       [] [] [] [] [] [].

(** ** Order creation that fails *)

(** No unit is sold in [d'] that was not already sold in [d]. *)
Definition no_new_sold (d d' : DB) : Prop :=
  forall it, In it (productItems d') -> ProductItem.status it = sold ->
             In it (productItems d).


(** [pennyDB] holding an order with the key the database will generate
    again. *)
Definition keyCollisionDB : DB :=
  set_orders pennyDB
    [Order.mk "o-new" "DH-OLD" "buyer" "seller" "tool" None 1 1 qr cancelled None 0].


(** ** Sold units and delivery *)

Definition is_sold (it : ProductItem.t) : bool :=
  product_item_status_eqb (ProductItem.status it) sold.

(** The number of sold units. *)
Definition sold_count (d : DB) : nat :=
  List.length (filter is_sold (productItems d)).

(** The order row once the content [c] is attached ("if (deliveredContent)":
    the empty string attaches nothing). *)
Definition delivered (c : string) (o : Order.t) : Order.t :=
  if (c =? EmptyString)%string then o
  else Order.mk (Order.id o) (Order.orderCode o) (Order.buyerId o) (Order.sellerId o)
                (Order.productId o) (Order.productItemId o) (Order.quantity o)
                (Order.price o) (Order.paymentMethod o) (Order.status o)
                (Some c) (Order.createdAt o).

(** The row the first step of POST /api/orders reserves, as a test on rows. *)
Definition reserved_row (productId : ident) (items : list ProductItem.t)
    (r : ProductItem.t) : bool :=
  match find (storage.is_available_of productId) items with
  | Some first => (ProductItem.id r =? ProductItem.id first)%string
  | None => false
  end.

(** ** Releasing pending earnings *)

(** The ledger entry of a release. *)
Definition releaseCredit (why : reason) (rel : PendingEarning.t) : WalletTransaction.t :=
  WalletTransaction.mk (PendingEarning.sellerId rel) credit (PendingEarning.amount rel)
                       why (Some (PendingEarning.orderId rel)).

(** What one release of the earning [i] does when no storage call fails:
    every row with that key becomes released; the seller of the row the
    update returned, when the account exists, gets the amount on top of the
    balance just read, and the ledger entry. *)
Definition release_effect (t : timestamp) (note : option string) (why : reason)
    (d : DB) (i : ident) : DB :=
  let hit p := (PendingEarning.id p =? i)%string in
  let d1 := set_pendingEarnings d
              (update_where hit (storage.set_earning_status released t note)
                            (pendingEarnings d)) in
  match find hit (pendingEarnings d) with
  | None => d1
  | Some r0 =>
      match find (fun u => (User.id u =? PendingEarning.sellerId r0)%string) (users d) with
      | None => d1
      | Some u =>
          set_walletTransactions
            (set_users d1
               (update_where (fun x => (User.id x =? PendingEarning.sellerId r0)%string)
                  (fun x => User.mk (User.id x)
                              (User.walletBalance u + PendingEarning.amount r0))
                  (users d)))
            (walletTransactions d
             ++ [releaseCredit why (storage.set_earning_status released t note r0)])
      end
  end.

(** The earnings the job picks at time [t], in its order. *)
Definition releasable (t : timestamp) (d : DB) : list PendingEarning.t :=
  storage.sort_by_releaseAt (filter (storage.is_releasable t) (pendingEarnings d)).

(** The two ways of releasing. *)
Inductive release_attempt :=
| ViaEndpoint (adminNote : option string)
| ViaJob.

(** One release attempt aimed at the earning [i], as a computation. *)
Definition attempt (e : Env) (i : ident) (a : release_attempt) : M unit :=
  match a with
  | ViaEndpoint note => post_admin_pending_earnings_release e i note ;; ret tt
  | ViaJob => releasePendingEarnings e
  end.

Definition earning_status (d : DB) (i : ident) : option pending_earning_status :=
  option_map PendingEarning.status
    (find (fun p => (PendingEarning.id p =? i)%string) (pendingEarnings d)).

Definition is_release_reason (why : reason) : bool :=
  match why with
  | ReasonEarningReleased | ReasonEarningAutoReleased => true
  | _ => false
  end.

(** A ledger entry that credits the release of the earning [pe]. *)
Definition credits_earning (pe : PendingEarning.t) (t : WalletTransaction.t) : bool :=
  (WalletTransaction.userId t =? PendingEarning.sellerId pe)%string
  && match WalletTransaction.type t with credit => true | debit => false end
  && (WalletTransaction.amount t =? PendingEarning.amount pe)
  && match WalletTransaction.relatedOrderId t with
     | Some o => (o =? PendingEarning.orderId pe)%string
     | None => false
     end
  && is_release_reason (WalletTransaction.why t).

(** How many times the ledger credits the release of [pe]. *)
Definition release_credits (d : DB) (pe : PendingEarning.t) : nat :=
  List.length (filter (credits_earning pe) (walletTransactions d)).

(** An earning due at time 1000, its seller with an empty wallet. *)
Definition earningDB : DB :=
  mkDB [User.mk "buyer" 0; User.mk "seller" 0]
       [Product.mk "p1" "seller" "Account" account 10000 0]
       []
       [Order.mk "o1" "DH-1" "buyer" "seller" "p1" None 1 10000 qr paid None 0]
       [] [] []
       [PendingEarning.mk "pe1" "seller" "o1" 9500 pending 500 None None]
       [].

Definition dueEarning : PendingEarning.t :=
  PendingEarning.mk "pe1" "seller" "o1" 9500 pending 500 None None.

(** The columns of a pending earning that a release never writes. *)
Definition earning_core (p : PendingEarning.t) : ident * ident * ident * money :=
  (PendingEarning.id p, PendingEarning.sellerId p, PendingEarning.orderId p,
   PendingEarning.amount p).

(** Between [d] and [d'] every balance moved by what the account's ledger
    gained. *)
Definition balance_follows_ledger (d d' : DB) : Prop :=
  forall v, balanceOf d' v
            = option_map (fun b => b + (ledgerSum d' v - ledgerSum d v)) (balanceOf d v).

(** [pe] is the earning of its key and the only earning of its order in
    [d], and its seller's account exists. *)
Definition earning_known (d : DB) (pe : PendingEarning.t) : Prop :=
  NoDup (map PendingEarning.id (pendingEarnings d))
  /\ (exists r, In r (pendingEarnings d) /\ earning_core r = earning_core pe)
  /\ (forall r, In r (pendingEarnings d) ->
                PendingEarning.orderId r = PendingEarning.orderId pe ->
                PendingEarning.id r = PendingEarning.id pe)
  /\ existsb (fun u => (User.id u =? PendingEarning.sellerId pe)%string) (users d) = true.

(** An attempt is aimed at [pe]: the endpoint is called with its key; the
    job runs when it is due. *)
Definition aimed_at (e : Env) (pe : PendingEarning.t) (a : release_attempt) : Prop :=
  match a with
  | ViaEndpoint _ => True
  | ViaJob => PendingEarning.releaseAt pe <= now e
  end.

(** * The rest of the order life cycle and the payment requests

    Withdrawals, deposits and seller profiles live in tables of their own.
    [Shop] holds them beside the tables above.  [admin_logs] is only ever
    inserted into; the rows the requests of this part insert carry other
    [meta] objects than those above and are kept, in their order, in
    [auditTrail]. *)

Module Seller.
Inductive kyc_status := kyc_pending | kyc_approved | kyc_rejected.
Record t := mk { id : ident; kycStatus : kyc_status }.
End Seller.

Module Withdrawal.
Inductive withdrawal_status := pending | approved | completed | rejected.
Record bank_info := mkBank {
    bankName : option string; accountNumber : option string;
    accountName : option string }.
Record t := mk {
    id : ident; sellerId : ident; amount : money; bankInfo : bank_info;
    status : withdrawal_status; processedAt : option timestamp }.
End Withdrawal.

Module Deposit.
Inductive deposit_status := pending | approved | rejected.
Record t := mk {
    id : ident; userId : ident; amount : money; transactionCode : string;
    status : deposit_status; adminNote : option string;
    processedAt : option timestamp }.
End Deposit.

Inductive audit_meta :=
| MetaWithdrawal (withdrawalId : ident)
| MetaDepositApproved (depositId : ident) (amount : money) (userId : ident)
| MetaDepositRejected (depositId : ident) (reason : option string)
| MetaEarningCancelled (earningId : ident) (amount : money) (reason : option string).

Module Audit.
Record t := mk { action : string; meta : audit_meta }.
End Audit.

Record Shop := mkShop {
  core : DB;
  sellers : list Seller.t;
  withdrawals : list Withdrawal.t;
  deposits : list Deposit.t;
  auditTrail : list Audit.t }.

Definition set_core (s : Shop) (x : DB) : Shop :=
  mkShop x (sellers s) (withdrawals s) (deposits s) (auditTrail s).
Definition set_withdrawals (s : Shop) (x : list Withdrawal.t) : Shop :=
  mkShop (core s) (sellers s) x (deposits s) (auditTrail s).
Definition set_deposits (s : Shop) (x : list Deposit.t) : Shop :=
  mkShop (core s) (sellers s) (withdrawals s) x (auditTrail s).
Definition set_auditTrail (s : Shop) (x : list Audit.t) : Shop :=
  mkShop (core s) (sellers s) (withdrawals s) (deposits s) x.

(** Keys the database generates for the rows of these tables. *)
Record SiteEnv := mkSiteEnv {
  base : Env;
  newWithdrawalId : ident;    (* gen_random_uuid() for the withdrawals row *)
  newDepositId : ident }.     (* gen_random_uuid() for the deposits row *)

(** ** The same effects, over [Shop] *)

Module R.

Record Site := mkSite { shop : Shop; faults : option nat }.

Definition t (A : Type) : Type := Site -> (exn + A) * Site.

Definition ret {A} (a : A) : t A := fun w => (inr a, w).

Definition throw {A} (e : exn) : t A := fun w => (inl e, w).

Definition bind {A B} (m : t A) (k : A -> t B) : t B :=
  fun w => match m w with
           | (inl e, w') => (inl e, w')
           | (inr a, w') => k a w'
           end.

Definition try_catch {A} (m : t A) (h : exn -> t A) : t A :=
  fun w => match m w with
           | (inl e, w') => h e w'
           | (inr a, w') => (inr a, w')
           end.

Definition op (A : Type) : Type := Shop -> (exn + A) * Shop.

Definition query {A} (f : Shop -> A) : op A := fun s => (inr (f s), s).
Definition command (f : Shop -> Shop) : op unit := fun s => (inr tt, f s).

(** A storage method of the tables above, run on [core]. *)
Definition on_core {A} (o : storage_op A) : op A :=
  fun s => let (r, d') := o (core s) in (r, set_core s d').

(** [await storage.f(...)] *)
Definition await {A} (o : op A) : t A :=
  fun w =>
    match faults w with
    | Some O => (inl StorageFault, mkSite (shop w) None)
    | other =>
        let rest := match other with Some (S n) => Some n | _ => None end in
        let (r, s') := o (shop w) in (r, mkSite s' rest)
    end.

(** A computation of the first part, run on [core]. *)
Definition lift {A} (m : M A) : t A :=
  fun w =>
    let (r, w') := m (mkWorld (core (shop w)) (faults w)) in
    (r, mkSite (set_core (shop w) (db w')) (fuse w')).

End R.

Declare Scope shop_scope.
Delimit Scope shop_scope with shop.
Notation "x <- m ;; k" := (R.bind m (fun x => k))
  (at level 61, m at next level, right associativity) : shop_scope.
Notation "m ;; k" := (R.bind m (fun _ => k))
  (at level 61, right associativity) : shop_scope.

(** Running a request on a shop in which no storage call fails. *)
Definition serve {A} (m : R.t A) (s : Shop) : (exn + A) * Shop :=
  let (r, w) := m (R.mkSite s None) in (r, R.shop w).

(** ** More of class DatabaseStorage *)

Module DatabaseStorage.

Definition getOrder (i : ident) : storage_op (option Order.t) :=
  query (fun d => find (fun o => (Order.id o =? i)%string) (orders d)).

(** The update sets [payment_confirmed_at] and [updated_at], columns the
    order rows of the model do not carry. *)
Definition updateOrderPaymentConfirmation (i : ident) (confirmedAt : timestamp)
  : storage_op unit :=
  command (fun d => set_orders d
    (update_where (fun o => (Order.id o =? i)%string) (fun o => o) (orders d))).

Definition is_pending_of (sellerId : ident) (p : PendingEarning.t) : bool :=
  (PendingEarning.sellerId p =? sellerId)%string
  && pending_earning_status_eqb (PendingEarning.status p) pending.

(** [sum(amount)] over the pending earnings of the seller, ["0"] when the
    sum is NULL. *)
Definition getSellerPendingBalance (sellerId : ident) : storage_op money :=
  query (fun d => fold_right Z.add 0
    (map PendingEarning.amount (filter (is_pending_of sellerId) (pendingEarnings d)))).

Definition getSeller (i : ident) : R.op (option Seller.t) :=
  R.query (fun s => find (fun x => (Seller.id x =? i)%string) (sellers s)).

Definition getWithdrawal (i : ident) : R.op (option Withdrawal.t) :=
  R.query (fun s => find (fun w => (Withdrawal.id w =? i)%string) (withdrawals s)).

(** withdrawals inner join users on the seller, first row. *)
Definition getWithdrawalWithSeller (i : ident) : R.op (option (Withdrawal.t * User.t)) :=
  R.query (fun s =>
    match find (fun w => (Withdrawal.id w =? i)%string
                  && existsb (fun u => (User.id u =? Withdrawal.sellerId w)%string)
                             (users (core s)))
               (withdrawals s) with
    | None => None
    | Some w =>
        option_map (fun u => (w, u))
          (find (fun u => (User.id u =? Withdrawal.sellerId w)%string) (users (core s)))
    end).

(** [insert into withdrawals]: the primary key is unique. *)
Definition createWithdrawal (e : SiteEnv) (sellerId : ident) (amount : money)
    (bankInfo : Withdrawal.bank_info) (status : Withdrawal.withdrawal_status)
  : R.op Withdrawal.t :=
  fun s =>
    let row := Withdrawal.mk (newWithdrawalId e) sellerId amount bankInfo status None in
    if existsb (fun w => (Withdrawal.id w =? newWithdrawalId e)%string) (withdrawals s)
    then (inl (UniqueViolation "withdrawals_pkey"), s)
    else (inr row, set_withdrawals s (withdrawals s ++ [row])).

(** [processed_at] is written for completed and rejected only. *)
Definition updateWithdrawalStatus (i : ident) (status : Withdrawal.withdrawal_status)
    (t : timestamp) : R.op unit :=
  R.command (fun s => set_withdrawals s
    (update_where (fun w => (Withdrawal.id w =? i)%string)
       (fun w => Withdrawal.mk (Withdrawal.id w) (Withdrawal.sellerId w)
                   (Withdrawal.amount w) (Withdrawal.bankInfo w) status
                   (match status with
                    | Withdrawal.completed | Withdrawal.rejected => Some t
                    | _ => Withdrawal.processedAt w
                    end))
       (withdrawals s))).

(** [insert into deposits]: the primary key is unique. *)
Definition createDeposit (e : SiteEnv) (userId : ident) (amount : money)
    (transactionCode : string) (status : Deposit.deposit_status) : R.op Deposit.t :=
  fun s =>
    let row := Deposit.mk (newDepositId e) userId amount transactionCode status None None in
    if existsb (fun x => (Deposit.id x =? newDepositId e)%string) (deposits s)
    then (inl (UniqueViolation "deposits_pkey"), s)
    else (inr row, set_deposits s (deposits s ++ [row])).

Definition getDeposit (i : ident) : R.op (option Deposit.t) :=
  R.query (fun s => find (fun x => (Deposit.id x =? i)%string) (deposits s)).

(** deposits inner join users, first row. *)
Definition getDepositWithUser (i : ident) : R.op (option (Deposit.t * User.t)) :=
  R.query (fun s =>
    match find (fun x => (Deposit.id x =? i)%string
                  && existsb (fun u => (User.id u =? Deposit.userId x)%string)
                             (users (core s)))
               (deposits s) with
    | None => None
    | Some x =>
        option_map (fun u => (x, u))
          (find (fun u => (User.id u =? Deposit.userId x)%string) (users (core s)))
    end).

(** [adminNote: adminNote || null, processedAt: new Date()] *)
Definition updateDepositStatus (i : ident) (status : Deposit.deposit_status)
    (adminNote : option string) (t : timestamp) : R.op unit :=
  R.command (fun s => set_deposits s
    (update_where (fun x => (Deposit.id x =? i)%string)
       (fun x => Deposit.mk (Deposit.id x) (Deposit.userId x) (Deposit.amount x)
                   (Deposit.transactionCode x) status (storage.or_null adminNote) (Some t))
       (deposits s))).

Definition createAdminLog (action : string) (meta : audit_meta) : R.op unit :=
  R.command (fun s => set_auditTrail s (auditTrail s ++ [Audit.mk action meta])).

End DatabaseStorage.

(** ** Answers *)

Inductive answer_body :=
| Unauthorized                       (* "Unauthorized" *)
| UserNotFound                       (* "User not found" *)
| NoSuchOrder                        (* "Order not found" *)
| Forbidden                          (* "Forbidden" *)
| OrderNotPendingPayment             (* "Order is not pending payment" *)
| PaymentConfirmationSubmitted       (* with status "pending_confirmation" *)
| NoSuchPendingEarning               (* "Pending earning not found or already processed" *)
| EarningCancelled (p : PendingEarning.t)
| InsufficientBalance                (* "Insufficient balance" *)
| KycNotApproved                     (* "KYC must be approved to withdraw" *)
| WithdrawalJson (w : Withdrawal.t)  (* res.json(withdrawal) *)
| WithdrawalNotFound                 (* "Withdrawal not found" *)
| WithdrawalNotApproved              (* "Withdrawal must be approved first" *)
| WithdrawalApproved                 (* "Withdrawal approved" *)
| WithdrawalCompleted                (* "Withdrawal completed" *)
| WithdrawalRejected                 (* "Withdrawal rejected" *)
| DepositTooSmall                    (* the minimum deposit is 10,000 VND *)
| DepositCodeMissing                 (* the transaction code is missing *)
| DepositJson (x : Deposit.t)        (* res.json(deposit) *)
| DepositNotFound                    (* "Deposit not found" *)
| DepositApproved                    (* "Deposit approved and wallet credited" *)
| DepositRejected                    (* "Deposit rejected" *)
| Failed (e : exn).                  (* { message: error.message } *)

Record answer := Answer { code : Z; json : answer_body }.

Open Scope shop_scope.

(** [try { ... } catch (error) { res.status(500).json(...) }] *)
Definition route (m : R.t answer) : R.t answer :=
  R.try_catch m (fun e => R.ret (Answer 500 (Failed e))).

(** ** The middleware isAuthenticated of server/customAuth.ts

    The session must name a user that exists; the request goes on with that
    user's id. *)
Definition isAuthenticated (session : option ident) (next : ident -> R.t answer)
  : R.t answer :=
  match storage.or_null session with
  | None => R.ret (Answer 401 Unauthorized)
  | Some userId =>
      user <- R.await (R.on_core (storage.getUser userId)) ;;
      match user with
      | None => R.ret (Answer 401 UserNotFound)
      | Some u => next (User.id u)
      end
  end.

(** ** POST /api/orders/:id/confirm-payment *)

Definition post_api_orders_confirm_payment (e : SiteEnv) (userId orderId : ident)
  : R.t answer :=
  route
    (found <- R.await (R.on_core (DatabaseStorage.getOrder orderId)) ;;
     match found with
     | None => R.ret (Answer 404 NoSuchOrder)
     | Some o =>
         if negb (Order.buyerId o =? userId)%string then R.ret (Answer 403 Forbidden)
         else if negb (order_status_eqb (Order.status o) pending_payment)
         then R.ret (Answer 400 OrderNotPendingPayment)
         else
           R.await (R.on_core (storage.updateOrderStatus orderId pending_confirmation)) ;;
           R.await (R.on_core (DatabaseStorage.updateOrderPaymentConfirmation orderId
                                 (now (base e)))) ;;
           R.ret (Answer 200 PaymentConfirmationSubmitted)
     end).

(** ** POST /api/admin/pending-earnings/:id/cancel *)

Definition post_admin_pending_earnings_cancel (e : SiteEnv) (earningId : ident)
    (adminNote : option string) : R.t answer :=
  route
    (earning <- R.await (R.on_core (storage.getPendingEarningById earningId)) ;;
     match earning with
     | None => R.ret (Answer 404 NoSuchPendingEarning)
     | Some earning =>
         if negb (pending_earning_status_eqb (PendingEarning.status earning) pending)
         then R.ret (Answer 404 NoSuchPendingEarning)
         else
           r <- R.await (R.on_core (storage.cancelPendingEarning earningId adminNote
                                      (now (base e)))) ;;
           cancelled <- R.lift (returned_row r) ;;
           R.await (DatabaseStorage.createAdminLog "pending_earning_cancelled"
                      (MetaEarningCancelled earningId (PendingEarning.amount cancelled)
                         adminNote)) ;;
           R.ret (Answer 200 (EarningCancelled cancelled))
     end).

(** ** Withdrawals *)

(** POST /api/seller/withdrawals.  [amount] is the amount of the request
    body, a decimal. *)
Definition post_seller_withdrawals (e : SiteEnv) (userId : ident) (amount : money)
    (bankInfo : Withdrawal.bank_info) : R.t answer :=
  route
    (user <- R.await (R.on_core (storage.getUser userId)) ;;
     match user with
     | None => R.ret (Answer 400 InsufficientBalance)
     | Some user =>
         if User.walletBalance user <? amount then R.ret (Answer 400 InsufficientBalance)
         else
           seller <- R.await (DatabaseStorage.getSeller userId) ;;
           match seller with
           | None => R.ret (Answer 403 KycNotApproved)
           | Some seller =>
               match Seller.kycStatus seller with
               | Seller.kyc_approved =>
                   w <- R.await (DatabaseStorage.createWithdrawal e userId amount bankInfo
                                   Withdrawal.pending) ;;
                   R.ret (Answer 201 (WithdrawalJson w))
               | _ => R.ret (Answer 403 KycNotApproved)
               end
           end
     end).

(** POST /api/admin/withdrawals/:id/approve *)
Definition post_admin_withdrawals_approve (e : SiteEnv) (id : ident) : R.t answer :=
  route
    (found <- R.await (DatabaseStorage.getWithdrawal id) ;;
     match found with
     | None => R.ret (Answer 404 WithdrawalNotFound)
     | Some w =>
         R.await (DatabaseStorage.updateWithdrawalStatus id Withdrawal.approved
                    (now (base e))) ;;
         R.await (DatabaseStorage.createAdminLog "withdrawal_approved" (MetaWithdrawal id)) ;;
         R.lift (sendNotification (Withdrawal.sellerId w)) ;;
         R.ret (Answer 200 WithdrawalApproved)
     end).

(** POST /api/admin/withdrawals/:id/complete *)
Definition post_admin_withdrawals_complete (e : SiteEnv) (id : ident) : R.t answer :=
  route
    (found <- R.await (DatabaseStorage.getWithdrawalWithSeller id) ;;
     match found with
     | None => R.ret (Answer 404 WithdrawalNotFound)
     | Some (w, _) =>
         match Withdrawal.status w with
         | Withdrawal.approved =>
             (* "Deduct from seller's balance" *)
             seller <- R.await (R.on_core (storage.getUser (Withdrawal.sellerId w))) ;;
             (match seller with
              | Some seller =>
                  R.await (R.on_core (storage.updateUserBalance (Withdrawal.sellerId w)
                             (User.walletBalance seller - Withdrawal.amount w))) ;;
                  R.await (R.on_core (storage.createWalletTransaction
                             (WalletTransaction.mk (Withdrawal.sellerId w) debit
                                (Withdrawal.amount w)
                                (ReasonText (Some "Withdrawal completed"%string)) None)))
              | None => R.ret tt
              end) ;;
             R.await (DatabaseStorage.updateWithdrawalStatus id Withdrawal.completed
                        (now (base e))) ;;
             R.await (DatabaseStorage.createAdminLog "withdrawal_completed"
                        (MetaWithdrawal id)) ;;
             R.lift (sendNotification (Withdrawal.sellerId w)) ;;
             R.ret (Answer 200 WithdrawalCompleted)
         | _ => R.ret (Answer 400 WithdrawalNotApproved)
         end
     end).

(** POST /api/admin/withdrawals/:id/reject *)
Definition post_admin_withdrawals_reject (e : SiteEnv) (id : ident) : R.t answer :=
  route
    (found <- R.await (DatabaseStorage.getWithdrawal id) ;;
     R.await (DatabaseStorage.updateWithdrawalStatus id Withdrawal.rejected
                (now (base e))) ;;
     R.await (DatabaseStorage.createAdminLog "withdrawal_rejected" (MetaWithdrawal id)) ;;
     (match found with
      | Some w => R.lift (sendNotification (Withdrawal.sellerId w))
      | None => R.ret tt
      end) ;;
     R.ret (Answer 200 WithdrawalRejected)).

(** ** Deposits *)

(** The smallest deposit, 10,000 VND. *)
Definition minimumDeposit : money := 10000 * 100.

(** POST /api/deposits, the handler registered first (a second registration
    of the same path further down never runs).  [amount] is the amount of
    the request body, a decimal; it is falsy when zero. *)
Definition post_api_deposits (e : SiteEnv) (userId : ident) (amount : money)
    (transactionCode : option string) : R.t answer :=
  route
    (if (amount =? 0) || (amount <? minimumDeposit) then R.ret (Answer 400 DepositTooSmall)
     else
       match storage.or_null transactionCode with
       | None => R.ret (Answer 400 DepositCodeMissing)
       | Some transactionCode =>
           x <- R.await (DatabaseStorage.createDeposit e userId amount transactionCode
                           Deposit.pending) ;;
           R.ret (Answer 200 (DepositJson x))
       end).

(** The text of the ledger entry of a deposit (in the source a Vietnamese
    phrase followed by the transaction code). *)
Definition depositReason (transactionCode : string) : reason :=
  ReasonText (Some ("deposit, transaction code: " ++ transactionCode)%string).

(** POST /api/admin/deposits/:id/approve *)
Definition post_admin_deposits_approve (e : SiteEnv) (id : ident) : R.t answer :=
  route
    (found <- R.await (DatabaseStorage.getDepositWithUser id) ;;
     match found with
     | None => R.ret (Answer 404 DepositNotFound)
     | Some (x, user) =>
         R.await (DatabaseStorage.updateDepositStatus id Deposit.approved None
                    (now (base e))) ;;
         let newBalance := User.walletBalance user + Deposit.amount x in
         R.await (R.on_core (storage.updateUserBalance (Deposit.userId x) newBalance)) ;;
         R.await (R.on_core (storage.createWalletTransaction
                    (WalletTransaction.mk (Deposit.userId x) credit (Deposit.amount x)
                       (depositReason (Deposit.transactionCode x)) None))) ;;
         R.await (DatabaseStorage.createAdminLog "deposit_approved"
                    (MetaDepositApproved id (Deposit.amount x) (Deposit.userId x))) ;;
         R.lift (sendNotification (Deposit.userId x)) ;;
         R.ret (Answer 200 DepositApproved)
     end).

(** POST /api/admin/deposits/:id/reject *)
Definition post_admin_deposits_reject (e : SiteEnv) (id : ident) (why : option string)
  : R.t answer :=
  route
    (found <- R.await (DatabaseStorage.getDepositWithUser id) ;;
     R.await (DatabaseStorage.updateDepositStatus id Deposit.rejected why
                (now (base e))) ;;
     R.await (DatabaseStorage.createAdminLog "deposit_rejected"
                (MetaDepositRejected id why)) ;;
     (match found with
      | Some (x, _) => R.lift (sendNotification (Deposit.userId x))
      | None => R.ret tt
      end) ;;
     R.ret (Answer 200 DepositRejected)).

Close Scope shop_scope.

(** [app.post("/api/deposits", isAuthenticated, ...)] *)
Definition deposits_route (e : SiteEnv) (session : option ident) (amount : money)
    (transactionCode : option string) : R.t answer :=
  isAuthenticated session
    (fun userId => post_api_deposits e userId amount transactionCode).

(** ** The requests of the model

    Every request modelled here and above except PATCH /api/admin/users/:id
    and POST /api/admin/sellers/:id/bonus, and the periodic release job. *)
Inductive request :=
| PostOrder (userId productId : ident) (quantity : Z) (paymentMethod : payment_method)
| ConfirmPayment (userId orderId : ident)
| AdminConfirmOrder (orderId : ident)
| AdminCancelOrder (orderId : ident)
| AdminCleanup
| AdminReleaseEarning (earningId : ident) (adminNote : option string)
| AdminCancelEarning (earningId : ident) (adminNote : option string)
| ReleaseJob
| RequestWithdrawal (userId : ident) (amount : money) (bankInfo : Withdrawal.bank_info)
| ApproveWithdrawal (id : ident)
| CompleteWithdrawal (id : ident)
| RejectWithdrawal (id : ident)
| RequestDeposit (session : option ident) (amount : money) (transactionCode : option string)
| ApproveDeposit (id : ident)
| RejectDeposit (id : ident) (why : option string).

(** Serving a request, the answer dropped. *)
Definition perform (e : SiteEnv) (q : request) : R.t unit :=
  match q with
  | PostOrder userId productId quantity paymentMethod =>
      R.lift (post_api_orders (base e) userId productId quantity paymentMethod ;; ret tt)
  | ConfirmPayment userId orderId =>
      R.bind (post_api_orders_confirm_payment e userId orderId) (fun _ => R.ret tt)
  | AdminConfirmOrder orderId =>
      R.lift (post_admin_orders_confirm (base e) orderId ;; ret tt)
  | AdminCancelOrder orderId => R.lift (post_admin_orders_cancel orderId ;; ret tt)
  | AdminCleanup => R.lift (post_admin_cleanup (base e) ;; ret tt)
  | AdminReleaseEarning earningId adminNote =>
      R.lift (post_admin_pending_earnings_release (base e) earningId adminNote ;; ret tt)
  | AdminCancelEarning earningId adminNote =>
      R.bind (post_admin_pending_earnings_cancel e earningId adminNote) (fun _ => R.ret tt)
  | ReleaseJob => R.lift (releasePendingEarnings (base e))
  | RequestWithdrawal userId amount bankInfo =>
      R.bind (post_seller_withdrawals e userId amount bankInfo) (fun _ => R.ret tt)
  | ApproveWithdrawal id =>
      R.bind (post_admin_withdrawals_approve e id) (fun _ => R.ret tt)
  | CompleteWithdrawal id =>
      R.bind (post_admin_withdrawals_complete e id) (fun _ => R.ret tt)
  | RejectWithdrawal id =>
      R.bind (post_admin_withdrawals_reject e id) (fun _ => R.ret tt)
  | RequestDeposit session amount transactionCode =>
      R.bind (deposits_route e session amount transactionCode) (fun _ => R.ret tt)
  | ApproveDeposit id => R.bind (post_admin_deposits_approve e id) (fun _ => R.ret tt)
  | RejectDeposit id why => R.bind (post_admin_deposits_reject e id why) (fun _ => R.ret tt)
  end.

(** Serving a sequence of requests, one after the other, each with the
    clock and the fresh keys of its own environment. *)
Definition serve_all (l : list (SiteEnv * request)) (s : Shop) : Shop :=
  fold_left (fun acc x => snd (serve (perform (fst x) (snd x)) acc)) l s.

(** ** hashUid of server/customAuth.ts

    [crypto.createHash("sha256").update(s).digest("hex")] is a parameter. *)
(** The separator of the fields of an account line, "|". *)
Definition bar : Ascii.ascii := Ascii.ascii_of_nat 124.

(** [content.split("|")[0]]: the text before the first bar. *)
Fixpoint before_first_bar (content : string) : string :=
  match content with
  | EmptyString => EmptyString
  | String c rest =>
      if Ascii.eqb c bar then EmptyString else String c (before_first_bar rest)
  end.

Section HashUid.

Variable sha256_hex : string -> string.

Definition hashUid (content : string) : string :=
  let uidMatch := before_first_bar content in
  if (uidMatch =? EmptyString)%string then EmptyString else sha256_hex uidMatch.

End HashUid.

(** ** Observations on a shop *)

Definition withdrawal_status_of (s : Shop) (i : ident)
  : option Withdrawal.withdrawal_status :=
  option_map Withdrawal.status
    (find (fun w => (Withdrawal.id w =? i)%string) (withdrawals s)).

Definition deposit_status_of (s : Shop) (i : ident) : option Deposit.deposit_status :=
  option_map Deposit.status (find (fun x => (Deposit.id x =? i)%string) (deposits s)).

(** The ledger entry of a completed withdrawal. *)
Definition withdrawalDebit (w : Withdrawal.t) : WalletTransaction.t :=
  WalletTransaction.mk (Withdrawal.sellerId w) debit (Withdrawal.amount w)
                       (ReasonText (Some "Withdrawal completed"%string)) None.

(** The ledger entry of an approved deposit. *)
Definition depositCredit (x : Deposit.t) : WalletTransaction.t :=
  WalletTransaction.mk (Deposit.userId x) credit (Deposit.amount x)
                       (depositReason (Deposit.transactionCode x)) None.

(** A sequence of release attempts aimed at the earning [i], each with its
    own clock. *)
Definition attempts_on (i : ident) (l : list (Env * release_attempt)) (d : DB) : DB :=
  fold_left (fun acc ea => snd (run (attempt (fst ea) i (snd ea)) acc)) l d.

(** The seller's pending balance, as [getSellerPendingBalance] reads it. *)
Definition pendingBalance (d : DB) (sellerId : ident) : money :=
  fold_right Z.add 0
    (map PendingEarning.amount
       (filter (DatabaseStorage.is_pending_of sellerId) (pendingEarnings d))).

(** What the release job owes a seller at time [t]: the amounts of the
    seller's earnings the job picks. *)
Definition dueTotal (t : timestamp) (d : DB) (sellerId : ident) : money :=
  fold_right Z.add 0
    (map PendingEarning.amount
       (filter (fun p => (PendingEarning.sellerId p =? sellerId)%string
                         && storage.is_releasable t p)
               (pendingEarnings d))).

(** What one release credits the account [v]. *)
Definition credit_of (d : DB) (i v : ident) : money :=
  match find (fun p => (PendingEarning.id p =? i)%string) (pendingEarnings d) with
  | Some r0 => if (PendingEarning.sellerId r0 =? v)%string then PendingEarning.amount r0 else 0
  | None => 0
  end.

(** The accounts are the same and every balance moved by what the account's
    ledger gained. *)
Definition accounts_kept (d d' : DB) : Prop :=
  map User.id (users d') = map User.id (users d) /\ balance_follows_ledger d d'.

(** ** Sample shops *)

Definition sampleSiteEnv : SiteEnv := mkSiteEnv sampleEnv "w-new" "dep-new".

(** A shop over a core database, its other tables empty. *)
Definition shopOf (d : DB) : Shop := mkShop d [] [] [] [].

Definition sampleBank : Withdrawal.bank_info :=
  Withdrawal.mkBank (Some "VCB") (Some "0011") (Some "SELLER").

(** A seller with an approved identity check and an approved withdrawal of
    200.00, and a buyer with a pending deposit of 10000.00. *)
Definition payoutShop : Shop :=
  mkShop (set_users emptyDB [User.mk "seller" 50000; User.mk "buyer" 0])
         [Seller.mk "seller" Seller.kyc_approved]
         [Withdrawal.mk "w1" "seller" 20000 sampleBank Withdrawal.approved None]
         [Deposit.mk "dep1" "buyer" 1000000 "FT123" Deposit.pending None None]
         [].

(** * Reasoning about handlers *)

(** ** A program logic for [M] *)

(** The fuses a run may start from: any when [faulty], else none armed. *)
Definition allowed (faulty : bool) (fz : option nat) : Prop :=
  faulty = true \/ fz = None.

Definition outcome {A} (faulty : bool) (r : (exn + A) * World)
    (Q : A -> DB -> Prop) (E : exn -> DB -> Prop) : Prop :=
  match r with
  | (inr a, w) => allowed faulty (fuse w) /\ Q a (db w)
  | (inl e, w) => allowed faulty (fuse w) /\ E e (db w)
  end.

(** [spec faulty d m Q E]: started on [d], [m] returns a value and a
    database that satisfy [Q], or throws leaving a database that satisfies
    [E]; with [faulty = true] whichever storage call fails, with
    [faulty = false] when none does. *)
Definition spec {A} (faulty : bool) (d : DB) (m : M A)
    (Q : A -> DB -> Prop) (E : exn -> DB -> Prop) : Prop :=
  forall fz, allowed faulty fz -> outcome faulty (m (mkWorld d fz)) Q E.

(** No condition on the database an exception leaves. *)
Definition any_exn : exn -> DB -> Prop := fun _ _ => True.

Lemma spec_ret {A} f d (a : A) Q E : Q a d -> spec f d (ret a) Q E.
Proof. intros H fz Hfz. split; assumption. Qed.

Lemma spec_throw {A} f d e (Q : A -> DB -> Prop) E : E e d -> spec f d (throw e) Q E.
Proof. intros H fz Hfz. split; assumption. Qed.

Lemma spec_bind {A B} f d (m : M A) (k : A -> M B) Q E :
  spec f d m (fun a d' => spec f d' (k a) Q E) E -> spec f d (bind m k) Q E.
Proof.
  intros H fz Hfz. specialize (H fz Hfz). unfold bind.
  destruct (m (mkWorld d fz)) as [[e | a] [d' fz']]; simpl in *;
    [exact H | apply H; apply H].
Qed.

Lemma spec_try {A} f d (m : M A) h Q E :
  spec f d m Q (fun e d' => spec f d' (h e) Q E) -> spec f d (try_catch m h) Q E.
Proof.
  intros H fz Hfz. specialize (H fz Hfz). unfold try_catch.
  destruct (m (mkWorld d fz)) as [[e | a] [d' fz']]; simpl in *;
    [apply H; apply H | exact H].
Qed.

Lemma spec_await {A} f d (op : storage_op A) Q E :
  (f = true -> E StorageFault d) ->
  (match op d with
   | (inr a, d') => Q a d'
   | (inl e, d') => E e d'
   end) ->
  spec f d (await op) Q E.
Proof.
  intros HE H fz Hfz. unfold await; simpl.
  destruct fz as [[| n] |]; simpl.
  - destruct Hfz as [Hf | Hf]; [| discriminate]. split; [right; reflexivity | auto].
  - destruct Hfz as [Hf | Hf]; [| discriminate].
    destruct (op d) as [[e | a] d']; simpl; split; auto; left; assumption.
  - destruct (op d) as [[e | a] d']; simpl; split; auto; right; reflexivity.
Qed.

Lemma spec_query {A} f d (g : DB -> A) Q E :
  (f = true -> E StorageFault d) -> Q (g d) d -> spec f d (await (query g)) Q E.
Proof. intros. apply spec_await; auto. Qed.

Lemma spec_command f d (g : DB -> DB) Q E :
  (f = true -> E StorageFault d) -> Q tt (g d) -> spec f d (await (command g)) Q E.
Proof. intros. apply spec_await; auto. Qed.

(** The stock update goes through when the new stock fits its column. *)
Lemma spec_updateProductStock f d i stock (Q : unit -> DB -> Prop) E :
  (f = true -> E StorageFault d) ->
  (int4 stock = true ->
   Q tt (set_products d
           (update_where (fun p => (Product.id p =? i)%string)
              (fun p => Product.mk (Product.id p) (Product.sellerId p) (Product.title p)
                          (Product.category p) (Product.price p) stock)
              (products d)))) ->
  (int4 stock = false -> E (OutOfRange "integer") d) ->
  spec f d (await (storage.updateProductStock i stock)) Q E.
Proof.
  intros HF HQ HE. apply spec_await; [exact HF |].
  unfold storage.updateProductStock. destruct (int4 stock); auto.
Qed.

Lemma spec_weaken {A} f d (m : M A) (Q Q' : A -> DB -> Prop) (E E' : exn -> DB -> Prop) :
  spec f d m Q E ->
  (forall a d', Q a d' -> Q' a d') ->
  (forall e d', E e d' -> E' e d') ->
  spec f d m Q' E'.
Proof.
  intros H HQ HE fz Hfz. specialize (H fz Hfz).
  destruct (m (mkWorld d fz)) as [[e | a] w]; simpl in *; split; try apply H;
    [apply HE | apply HQ]; apply H.
Qed.

(** A loop keeps an invariant that every turn keeps. *)
Lemma spec_for_each {A} f (I : DB -> Prop) (g : A -> M unit) E xs :
  (forall x d, In x xs -> I d -> spec f d (g x) (fun _ d' => I d') E) ->
  forall d, I d -> spec f d (for_each xs g) (fun _ d' => I d') E.
Proof.
  induction xs as [| x xs IH]; intros Hg d Hd; simpl.
  - apply spec_ret; assumption.
  - apply spec_bind.
    eapply spec_weaken; [apply Hg; simpl; auto | | auto].
    intros u d' Hd'. apply IH; auto. intros; apply Hg; simpl; auto.
Qed.

(** A loop of storage commands that goes through has run them in order. *)
Lemma spec_for_each_command {A} f (g : A -> DB -> DB) xs E :
  (f = true -> forall ex d', E ex d') ->
  forall d,
  spec f d (for_each xs (fun x => await (command (g x))))
       (fun _ d' => d' = fold_left (fun acc x => g x acc) xs d) E.
Proof.
  intros HE. induction xs as [| x xs IH]; intros d; simpl.
  - apply spec_ret; reflexivity.
  - apply spec_bind. apply spec_command; [auto |]. apply IH.
Qed.

(** What [spec] says of a run in which no storage call fails ... *)
Lemma spec_run {A} d (m : M A) Q E :
  spec false d m Q E ->
  match run m d with
  | (inr a, d') => Q a d'
  | (inl e, d') => E e d'
  end.
Proof.
  intros H. specialize (H None (or_intror eq_refl)). unfold run.
  destruct (m (mkWorld d None)) as [[e | a] w]; apply H.
Qed.

(** ... and of a run from any fuse. *)
Lemma spec_any {A} d (m : M A) Q E fz :
  spec true d m Q E ->
  match m (mkWorld d fz) with
  | (inr a, w) => Q a (db w)
  | (inl e, w) => E e (db w)
  end.
Proof.
  intros H. specialize (H fz (or_introl eq_refl)).
  destruct (m (mkWorld d fz)) as [[e | a] w]; apply H.
Qed.

(** * The single-unit read and expired reservations *)

(** C9. The claim says both allocation reads treat a reserved unit whose
    reservation has expired as available.  [getAvailableProductItems] does
    (it resets expired reservations first); [getAvailableProductItem] does
    not: on a product whose only unit carries a reservation that ended at
    time 5, read at time 1000, the single-unit read finds nothing, the
    multi-unit read returns the unit, and a QR order created then gets no
    unit bound although one was logically available. *)
Theorem C9_single_read_ignores_expired_reservation :
  fst (storage.getAvailableProductItem "p1" expiredReservationDB) = inr None
  /\ fst (storage.getAvailableProductItems "p1" 1 1000 expiredReservationDB)
     = inr [ProductItem.mk "i1" "p1" "login|secret" available None]
  /\ (let (r, d') := run (post_api_orders sampleEnv "buyer" "p1" 1 qr) expiredReservationDB in
      r = inr (Res 201 (OrderJson
                 (Order.mk "o-new" "DH-NEW" "buyer" "seller" "p1" None 1 10000 qr
                           pending_payment None 1000)))
      /\ item_status d' "i1" = Some reserved).
Proof. vm_compute. repeat split; reflexivity. Qed.

(** * Sold units and order cancellation *)

(** C7. The claim says no operation moves a unit out of [sold], and that
    cancelling an order never flips its sold unit back.  The admin
    cancellation writes [available] on the bound unit whatever its status:
    cancelling a paid order makes its delivered unit available for sale
    again. *)
Theorem C7_admin_cancel_reopens_sold_unit :
  item_status paidOrderDB "i1" = Some sold
  /\ order_status_of paidOrderDB "o1" = Some paid
  /\ (let (r, d') := run (post_admin_orders_cancel "o1") paidOrderDB in
      r = inr (Res 200 OrderCancelled)
      /\ order_status_of d' "o1" = Some cancelled
      /\ item_status d' "i1" = Some available
      /\ fst (storage.getAvailableProductItem "p1" d')
         = inr (Some (ProductItem.mk "i1" "p1" "login|secret" available None))).
Proof. vm_compute. repeat split; reflexivity. Qed.

(** * The ledger and direct balance writes *)

(** C3. The claim says the balance column always equals the signed sum of
    the account's wallet transactions and no path sets a balance without an
    entry.  The admin bonus endpoint keeps that (it credits and appends the
    entry); PATCH /api/admin/users/:id writes the balance with no entry, so
    after it the balance is 500.00 and the ledger sums to 0. *)
Theorem C3_admin_patch_breaks_ledger :
  ledger_consistent ledgerDB = true
  /\ (let (r, d') := run (post_admin_sellers_bonus "alice" 50000 None) ledgerDB in
      r = inr (Res 200 BonusAdded)
      /\ balanceOf d' "alice" = Some 50000
      /\ ledgerSum d' "alice" = 50000
      /\ ledger_consistent d' = true)
  /\ (let (r, d') := run (patch_admin_users "alice" (Some 50000)) ledgerDB in
      r = inr (Res 200 UserUpdated)
      /\ balanceOf d' "alice" = Some 50000
      /\ walletTransactions d' = walletTransactions ledgerDB
      /\ ledgerSum d' "alice" = 0
      /\ ledger_consistent d' = false).
Proof. vm_compute. repeat split; reflexivity. Qed.

(** * The cleanup sweeps *)

Section UpdateWhere.
Context {A : Type}.

Lemma update_where_length (p : A -> bool) f l :
  List.length (update_where p f l) = List.length l.
Proof. apply length_map. Qed.

Lemma nth_error_update_where (p : A -> bool) f l k :
  nth_error (update_where p f l) k
  = option_map (fun r => if p r then f r else r) (nth_error l k).
Proof. apply nth_error_map. Qed.

Lemma update_where_twice (p q : A -> bool) f l :
  (forall r, f (f r) = f r) ->
  update_where p f (update_where q f l) = update_where (fun r => q r || p r) f l.
Proof.
  intros Hf. unfold update_where. rewrite map_map. apply map_ext.
  intros r. destruct (q r); simpl.
  - destruct (p (f r)); auto.
  - reflexivity.
Qed.

Lemma update_where_ext (p q : A -> bool) f l :
  (forall r, In r l -> p r = q r) -> update_where p f l = update_where q f l.
Proof.
  intros H. apply map_ext_in. intros r Hr. rewrite (H r Hr). reflexivity.
Qed.

Lemma update_where_none (p : A -> bool) f l :
  (forall r, In r l -> p r = false) -> update_where p f l = l.
Proof.
  intros H. unfold update_where. rewrite <- (map_id l) at 2.
  apply map_ext_in. intros r Hr. rewrite (H r Hr). reflexivity.
Qed.

Lemma filter_none (p : A -> bool) l :
  (forall r, In r l -> p r = false) -> filter p l = [].
Proof.
  induction l as [| a l IH]; simpl; intros H; auto.
  rewrite (H a) by auto. apply IH. auto.
Qed.

End UpdateWhere.

Lemma NoDup_key_inj {A} (key : A -> ident) (l : list A) a b :
  NoDup (map key l) -> In a l -> In b l -> key a = key b -> a = b.
Proof.
  induction l as [| x l IH]; simpl; intros Hnd Ha Hb Hk; [contradiction |].
  inversion Hnd as [| ? ? Hx Hl]; subst.
  destruct Ha as [-> | Ha], Hb as [-> | Hb]; auto.
  - exfalso. apply Hx. rewrite Hk. apply in_map; assumption.
  - exfalso. apply Hx. rewrite <- Hk. apply in_map; assumption.
Qed.

Lemma is_expired_iff t it : storage.is_expired t it = true <-> reservation_expired t it.
Proof.
  unfold storage.is_expired, reservation_expired, lt_nullable.
  rewrite andb_true_iff. split.
  - intros [Hs Hu]. split.
    + destruct (ProductItem.status it); simpl in Hs; congruence.
    + destruct (ProductItem.reservedUntil it) as [u |]; [| discriminate].
      exists u. split; auto. apply Z.ltb_lt; assumption.
  - intros [Hs [u [Hu Hlt]]]. rewrite Hs, Hu. split; auto. apply Z.ltb_lt; assumption.
Qed.

Lemma is_expired_order_iff t o :
  storage.is_expired_order t o = true <-> stale_order t o.
Proof.
  unfold storage.is_expired_order, stale_order.
  rewrite andb_true_iff, Z.ltb_lt. split; intros [Hs Hc]; split; auto.
  - destruct (Order.status o); simpl in Hs; congruence.
  - rewrite Hs; reflexivity.
Qed.

Lemma make_available_twice it :
  storage.make_available (storage.make_available it) = storage.make_available it.
Proof. reflexivity. Qed.

Lemma set_order_status_twice s o :
  storage.set_order_status s (storage.set_order_status s o) = storage.set_order_status s o.
Proof. reflexivity. Qed.

(** The loop of [cancelExpiredPendingOrders] as two updates. *)
Lemma cancel_loop l : forall d,
  orders (fold_left storage.cancel_one l d)
  = update_where (fun o' => existsb (fun o => (Order.id o' =? Order.id o)%string) l)
                 (storage.set_order_status cancelled) (orders d)
  /\ productItems (fold_left storage.cancel_one l d)
     = update_where (fun it => existsb (storage.bound_to it) l)
                    storage.make_available (productItems d)
  /\ users (fold_left storage.cancel_one l d) = users d
  /\ walletTransactions (fold_left storage.cancel_one l d) = walletTransactions d
  /\ pendingEarnings (fold_left storage.cancel_one l d) = pendingEarnings d.
Proof.
  induction l as [| o l IH]; intros d; simpl.
  - repeat split; symmetry; apply update_where_none; auto.
  - destruct (IH (storage.cancel_one d o)) as (Ho & Hi & Hu & Hw & Hp).
    rewrite Ho, Hi, Hu, Hw, Hp. unfold storage.cancel_one, storage.bound_to.
    destruct (Order.productItemId o) as [i |]; simpl;
      repeat split;
      try (rewrite update_where_twice by (intros; reflexivity); reflexivity).
Qed.

Lemma swept_not_expired t l it :
  In it (update_where (storage.is_expired t) storage.make_available l) ->
  storage.is_expired t it = false.
Proof.
  unfold update_where. rewrite in_map_iff. intros [r [Hr _]].
  destruct (storage.is_expired t r) eqn:He; subst; auto.
Qed.

Lemma cancelled_not_stale t (l : list Order.t) (p : Order.t -> bool) o :
  (forall r, In r l -> storage.is_expired_order t r = true -> p r = true) ->
  In o (update_where p (storage.set_order_status cancelled) l) ->
  storage.is_expired_order t o = false.
Proof.
  intros Hp. unfold update_where. rewrite in_map_iff. intros [r [Hr Hin]].
  destruct (p r) eqn:Hpr; subst.
  - reflexivity.
  - destruct (storage.is_expired_order t o) eqn:He; auto.
    rewrite (Hp o Hin He) in Hpr. discriminate.
Qed.

Lemma existsb_same_id (l : list Order.t) (p : Order.t -> bool) o :
  In o l -> p o = true ->
  existsb (fun o' => (Order.id o =? Order.id o')%string) (filter p l) = true.
Proof.
  intros Hin Hp. apply existsb_exists. exists o. split.
  - apply filter_In; auto.
  - apply String.eqb_refl.
Qed.

(** C8. [cleanupExpiredReservations] rewrites exactly the reserved units
    whose reservation ended before the sweep's clock reading, making them
    available with no expiry, and returns their number;
    [cancelExpiredPendingOrders] cancels exactly the orders in
    pending_payment created more than 30 minutes earlier (order ids being
    the primary key) and leaves every unit bound to such an order
    available; run again at once, each sweep returns 0 and changes
    nothing. *)
Theorem C8_cleanup_sweeps_exact_and_idempotent (d : DB) (t : timestamp) :
  NoDup (map Order.id (orders d)) ->
  (let (n, d1) := storage.cleanupExpiredReservations t d in
   n = inr (List.length (filter (storage.is_expired t) (productItems d)))
   /\ (forall k it, nth_error (productItems d) k = Some it ->
         (reservation_expired t it ->
            nth_error (productItems d1) k
            = Some (ProductItem.mk (ProductItem.id it) (ProductItem.productId it)
                                   (ProductItem.content it) available None))
         /\ (~ reservation_expired t it -> nth_error (productItems d1) k = Some it))
   /\ List.length (productItems d1) = List.length (productItems d)
   /\ orders d1 = orders d
   /\ storage.cleanupExpiredReservations t d1 = (inr 0%nat, d1))
  /\
  (let (n, d2) := storage.cancelExpiredPendingOrders t d in
   n = inr (List.length (filter (storage.is_expired_order t) (orders d)))
   /\ (forall k o, nth_error (orders d) k = Some o ->
         (stale_order t o ->
            nth_error (orders d2) k = Some (storage.set_order_status cancelled o))
         /\ (~ stale_order t o -> nth_error (orders d2) k = Some o))
   /\ (forall o i it, In o (orders d) -> stale_order t o ->
         Order.productItemId o = Some i ->
         In it (productItems d2) -> ProductItem.id it = i ->
         ProductItem.status it = available /\ ProductItem.reservedUntil it = None)
   /\ (forall k it, nth_error (productItems d) k = Some it ->
         (forall o, In o (orders d) -> stale_order t o ->
                    Order.productItemId o <> Some (ProductItem.id it)) ->
         nth_error (productItems d2) k = Some it)
   /\ storage.cancelExpiredPendingOrders t d2 = (inr 0%nat, d2)).
Proof.
  intros Hnd. split.
  - unfold storage.cleanupExpiredReservations. simpl.
    split; [reflexivity |]. split; [| split; [apply update_where_length | split]].
    + intros k it Hk. rewrite nth_error_update_where, Hk. simpl. split; intros H.
      * apply is_expired_iff in H. rewrite H. reflexivity.
      * destruct (storage.is_expired t it) eqn:He; auto.
        exfalso. apply H. apply is_expired_iff. assumption.
    + reflexivity.
    + unfold storage.cleanupExpiredReservations. simpl.
      rewrite (filter_none (storage.is_expired t)
                 (update_where (storage.is_expired t) storage.make_available (productItems d)))
        by apply swept_not_expired.
      rewrite (update_where_none (storage.is_expired t) storage.make_available
                 (update_where (storage.is_expired t) storage.make_available (productItems d)))
        by apply swept_not_expired.
      reflexivity.
  - unfold storage.cancelExpiredPendingOrders.
    destruct (cancel_loop (filter (storage.is_expired_order t) (orders d)) d)
      as (Ho & Hi & Hu & Hw & Hp).
    split; [reflexivity |]. split; [| split; [| split]].
    + intros k o Hk. rewrite Ho, nth_error_update_where, Hk. simpl.
      assert (Hin : In o (orders d)) by (eapply nth_error_In; eassumption).
      split; intros H.
      * rewrite (existsb_same_id _ _ o Hin) by (apply is_expired_order_iff; assumption).
        reflexivity.
      * destruct (existsb _ _) eqn:He; auto.
        apply existsb_exists in He. destruct He as [o' [Hin' Heq]].
        apply filter_In in Hin'. destruct Hin' as [Hin' Hst].
        apply String.eqb_eq in Heq.
        assert (o = o') by (eapply (NoDup_key_inj Order.id); eassumption).
        subst o'. exfalso. apply H. apply is_expired_order_iff. assumption.
    + intros o i it Hin Hst Hb Hit Hid. rewrite Hi in Hit.
      unfold update_where in Hit. apply in_map_iff in Hit.
      destruct Hit as [r [Hr Hrin]].
      assert (Hex : existsb (storage.bound_to r)
                       (filter (storage.is_expired_order t) (orders d)) = true).
      { apply existsb_exists. exists o. split.
        - apply filter_In. split; auto. apply is_expired_order_iff; assumption.
        - unfold storage.bound_to. rewrite Hb. apply String.eqb_eq.
          rewrite <- Hid. destruct (existsb (storage.bound_to r) _); subst it; reflexivity. }
      rewrite Hex in Hr. subst it. split; reflexivity.
    + intros k it Hk Hfree. rewrite Hi, nth_error_update_where, Hk. simpl.
      destruct (existsb (storage.bound_to it) _) eqn:He; auto.
      apply existsb_exists in He. destruct He as [o [Hin Hb]].
      apply filter_In in Hin. destruct Hin as [Hin Hst].
      unfold storage.bound_to in Hb.
      destruct (Order.productItemId o) as [i |] eqn:Hi'; [| discriminate].
      apply String.eqb_eq in Hb. exfalso.
      apply (Hfree o Hin); [apply is_expired_order_iff; assumption |].
      rewrite Hi', Hb. reflexivity.
    + rewrite (filter_none (storage.is_expired_order t)
                 (orders (fold_left storage.cancel_one
                            (filter (storage.is_expired_order t) (orders d)) d))).
      * simpl. reflexivity.
      * rewrite Ho. intros r Hr. eapply cancelled_not_stale; [| exact Hr].
        intros r' Hin He. apply existsb_same_id; assumption.
Qed.

Lemma C8_cleanup_sweeps_witness :
  NoDup (map Order.id (orders sweepDB))
  /\ order_status_of (snd (storage.cancelExpiredPendingOrders 1860001 sweepDB)) "o1"
     = Some cancelled
  /\ item_status (snd (storage.cancelExpiredPendingOrders 1860001 sweepDB)) "i1"
     = Some available
  /\ item_status (snd (storage.cleanupExpiredReservations 1000 sweepDB)) "i2"
     = Some available
  /\ item_status (snd (storage.cleanupExpiredReservations 1000 sweepDB)) "i1"
     = Some reserved
  /\ storage.cancelExpiredPendingOrders 1860001
       (snd (storage.cancelExpiredPendingOrders 1860001 sweepDB))
     = (inr 0%nat, snd (storage.cancelExpiredPendingOrders 1860001 sweepDB)).
Proof.
  assert (Hnd : NoDup (map Order.id (orders sweepDB))).
  { simpl. constructor; [intros [] | constructor]. }
  split; [exact Hnd |].
  pose proof (C8_cleanup_sweeps_exact_and_idempotent sweepDB 1860001 Hnd) as H.
  destruct H as [_ H].
  destruct (storage.cancelExpiredPendingOrders 1860001 sweepDB) as [n d2] eqn:E.
  destruct H as (_ & _ & _ & _ & Hidem).
  simpl snd.
  split; [injection E as _ <-; vm_compute; reflexivity |].
  split; [injection E as _ <-; vm_compute; reflexivity |].
  split; [vm_compute; reflexivity |].
  split; [vm_compute; reflexivity |].
  exact Hidem.
Defined.

(** * Symbolic execution of handlers *)

Create HintDb storage_ops.
#[local] Hint Unfold
  storage.getUser storage.updateUserBalance storage.updateUser
  storage.getProductWithSeller
  storage.getAvailableProductItem storage.updateProductItemStatus
  storage.reserveProductItem storage.updateOrderStatus
  storage.updateOrderDeliveredContent storage.getOrderWithDetails
  storage.createWalletTransaction storage.getReferralByReferredId
  storage.updateReferralEarnings storage.updateReferrerTotalEarnings
  storage.createAdminLog storage.getPendingEarningById
  storage.getReleasablePendingEarnings : storage_ops.

(** ** The referral block *)

Lemma find_some_existsb {A} (p : A -> bool) l a : find p l = Some a -> existsb p l = true.
Proof.
  intros H. apply existsb_exists. exists a. apply find_some in H. exact H.
Qed.

Lemma find_none_existsb {A} (p : A -> bool) l : find p l = None -> existsb p l = false.
Proof.
  intros H. destruct (existsb p l) eqn:E; auto.
  apply existsb_exists in E. destruct E as [a [Ha Hp]].
  rewrite (find_none _ _ H a Ha) in Hp. discriminate.
Qed.

(** What the referral block does when no storage call fails: nothing
    unless a referral is due; then the four writes. *)
Lemma spec_payReferralCommission d buyerId price o :
  spec false d (payReferralCommission buyerId price o)
    (fun _ d' => referral_paid buyerId price o d d')
    (fun _ _ => False).
Proof.
  unfold payReferralCommission, referral_paid, referralDue.
  apply spec_try. apply spec_bind. autounfold with storage_ops.
  apply spec_query; [discriminate |].
  destruct (find _ (referrals d)) as [r |]; [| apply spec_ret; repeat split].
  destruct (Referral.isActive r); simpl; [| apply spec_ret; repeat split].
  destruct (0 <? referralCommission price (Referral.commissionRate r)) eqn:Hpos; simpl;
    [| apply spec_ret; repeat split].
  apply spec_bind. apply spec_query; [discriminate |].
  destruct (find _ (users d)) as [u |] eqn:Hu.
  - rewrite (find_some_existsb _ _ _ Hu).
    apply spec_bind. unfold storage.creditUserWallet.
    replace (referralCommission price (Referral.commissionRate r) <=? 0) with false
      by (symmetry; apply Z.leb_gt; apply Z.ltb_lt; assumption).
    apply spec_command; [discriminate |].
    apply spec_bind. apply spec_command; [discriminate |].
    apply spec_bind. apply spec_command; [discriminate |].
    apply spec_bind. apply spec_command; [discriminate |].
    apply spec_ret. simpl. repeat split.
  - rewrite (find_none_existsb _ _ Hu). apply spec_ret. repeat split.
Qed.

(** ** The wallet branch once the items are sold *)

Lemma spec_payFromWallet d e userId productId buyer p quantity deliveredContent soldItemIds :
  spec false d
    (payFromWallet e userId productId buyer p quantity (Product.price p * quantity)
                   deliveredContent soldItemIds)
    (fun r d' =>
       exists o d1,
         r = Res 201 (OrderJson o)
         /\ paid_by_wallet e userId productId buyer p quantity deliveredContent
                           soldItemIds d d1 o
         /\ referral_paid userId (Product.price p * quantity) o d1 d')
    (fun _ d' => write_rejected e p quantity d /\ debit_committed userId buyer p quantity d d').
Proof.
  unfold payFromWallet, holdSellerEarning, write_rejected, key_collision, debit_committed.
  apply spec_bind. autounfold with storage_ops. apply spec_command; [discriminate |].
  apply spec_bind. autounfold with storage_ops. apply spec_command; [discriminate |].
  apply spec_bind. apply spec_await; [discriminate |].
  unfold storage.createOrder. simpl.
  destruct (int4 quantity) eqn:Hq; simpl negb; cbv iota;
    [| split; [right; left; reflexivity | split; reflexivity]].
  destruct (existsb (fun x => (Order.id x =? newOrderId e)%string) (orders d)) eqn:Hid;
    [split; [left; left; reflexivity | split; reflexivity] |].
  destruct (existsb (fun x => (Order.orderCode x =? newOrderCode e)%string) (orders d))
    eqn:Hcode; [split; [left; right; left; reflexivity | split; reflexivity] |].
  apply spec_bind.
  destruct (deliveredContent =? EmptyString)%string eqn:Hc;
    [apply spec_ret | autounfold with storage_ops; apply spec_command; [discriminate |]];
    (apply spec_bind;
     destruct (Product.category p) eqn:Hcat;
     [apply spec_await; [discriminate |]; unfold storage.updateProductStock;
      destruct (int4 (Product.stock p - quantity)) eqn:Hstock;
        [| split; [right; right; split; reflexivity | split; reflexivity]]
     | apply spec_ret];
     (apply spec_bind; apply spec_bind; apply spec_await; [discriminate |];
      unfold storage.createPendingEarning; simpl;
      destruct (existsb _ (pendingEarnings d)) eqn:Hpe;
        [split; [left; right; right; reflexivity | split; reflexivity] |];
      autounfold with storage_ops; apply spec_command; [discriminate |];
      apply spec_bind; apply spec_ret; apply spec_bind; apply spec_ret;
      apply spec_bind;
      eapply spec_weaken;
        [apply spec_payReferralCommission | | intros ex d' F; destruct F];
      intros u1 d' Href; apply spec_ret;
      eexists; eexists; split; [reflexivity |]; split; [| exact Href];
      unfold paid_by_wallet; rewrite Hc, Hcat; simpl; repeat split; assumption)).
Qed.

(** ** The wallet order, from the request to the answer *)

Lemma mark_sold_loop d (taken : list ProductItem.t) : forall items,
  fold_left
    (fun acc (x : ProductItem.t) =>
       set_productItems acc
         (update_where (fun it => (ProductItem.id it =? ProductItem.id x)%string)
            (fun it => ProductItem.mk (ProductItem.id it) (ProductItem.productId it)
                         (ProductItem.content it) sold None)
            (productItems acc)))
    taken (set_productItems d items)
  = set_productItems d (markSold (map ProductItem.id taken) items).
Proof.
  induction taken as [| x taken IH]; intros items; simpl.
  - reflexivity.
  - unfold set_productItems at 2. simpl. apply IH.
Qed.

Lemma spec_walletBranch us ps its os ws rs cs pes ls e userId productId p quantity :
  let d := mkDB us ps its os ws rs cs pes ls in
  spec false d
    (walletBranch e userId productId p quantity (Product.price p * quantity))
    (fun r d' => wallet_branch_result e userId productId p quantity d r d')
    (fun ex d' =>
       wallet_branch_result e userId productId p quantity d (Res 500 (ErrorMessage ex)) d').
Proof.
  intros d. unfold walletBranch, wallet_branch_result.
  apply spec_bind. autounfold with storage_ops. apply spec_query; [discriminate |].
  simpl users. simpl productItems.
  destruct (find _ us) as [buyer |]; [| apply spec_ret; split; reflexivity].
  destruct (User.walletBalance buyer <? Product.price p * quantity);
    [apply spec_ret; split; reflexivity |].
  apply spec_bind. unfold takeItems.
  destruct (Product.category p) eqn:Hcat.
  - apply spec_bind. apply spec_await; [discriminate |].
    unfold storage.getAvailableProductItems. simpl productItems. cbv zeta.
    fold (afterSweep e productId its).
    fold (scanned productId quantity (afterSweep e productId its)).
    destruct (Z.of_nat (List.length _) <? quantity).
    + apply spec_ret. apply spec_ret. split; reflexivity.
    + apply spec_bind.
      eapply spec_weaken;
        [apply (spec_for_each_command false
                  (fun x => fun d0 => set_productItems d0
                     (update_where
                        (fun it => (ProductItem.id it =? ProductItem.id x)%string)
                        (fun it => ProductItem.mk (ProductItem.id it)
                                     (ProductItem.productId it)
                                     (ProductItem.content it) sold None)
                        (productItems d0)))
                  _ (fun _ _ => False));
         discriminate
        | | intros ex d' F; destruct F].
      intros u1 d' ->. apply spec_ret.
      rewrite mark_sold_loop.
      eapply spec_weaken; [apply spec_payFromWallet | | ].
      * intros r d' (o & d1 & Hr & Hp & Href). right. exists o, d1.
        split; [exact Hr | split; [exact Hp | exact Href]].
      * intros ex d' Hk. left. split; [reflexivity | exact Hk].
  - apply spec_ret.
    eapply spec_weaken; [apply spec_payFromWallet | | ].
    + intros r d' (o & d1 & Hr & Hp & Href). right. exists o, d1.
      split; [exact Hr | split; [exact Hp | exact Href]].
    + intros ex d' Hk. left. split; [reflexivity | exact Hk].
Qed.

Lemma spec_wallet_order d e userId productId quantity :
  spec false d (post_api_orders e userId productId quantity wallet)
    (fun r d' => wallet_result e userId productId quantity d r d')
    (fun _ _ => False).
Proof.
  destruct d as [us ps its os ws rs cs pes ls].
  unfold post_api_orders, handler.
  apply spec_try.
  eapply spec_weaken with
    (Q := fun r d' => wallet_result e userId productId quantity
                        (mkDB us ps its os ws rs cs pes ls) r d')
    (E := fun ex d' => wallet_result e userId productId quantity
                         (mkDB us ps its os ws rs cs pes ls)
                         (Res 500 (ErrorMessage ex)) d');
    [| intros; assumption
     | intros ex d' H; apply spec_ret; exact H].
  unfold wallet_result. simpl users. simpl products. simpl productItems.
  apply spec_bind. autounfold with storage_ops. apply spec_query; [discriminate |].
  simpl users. simpl products.
  destruct (find _ ps) as [p |]; [| apply spec_ret; split; reflexivity].
  destruct (product_category_eqb (Product.category p) account && (Product.stock p <? quantity));
    [apply spec_ret; split; reflexivity |].
  apply spec_bind. unfold reserveOneItem, afterReservation.
  destruct (Product.category p) eqn:Hcat.
  - apply spec_bind. autounfold with storage_ops. apply spec_query; [discriminate |].
    simpl productItems.
    destruct (find (storage.is_available_of productId) its) as [it |].
    + apply spec_bind. apply spec_command; [discriminate |]. apply spec_ret.
      apply spec_walletBranch.
    + apply spec_ret. apply spec_walletBranch.
  - apply spec_ret. apply spec_walletBranch.
Qed.


Lemma wallet_order_run d e userId productId quantity r d' :
  run (post_api_orders e userId productId quantity wallet) d = (inr r, d') ->
  wallet_result e userId productId quantity d r d'.
Proof.
  intros Hrun.
  pose proof (spec_run _ _ _ _ (spec_wallet_order d e userId productId quantity)) as H.
  rewrite Hrun in H. exact H.
Qed.

(** A wallet order answered 201: the path it took. *)
Lemma wallet_created d e userId productId quantity r d' :
  run (post_api_orders e userId productId quantity wallet) d = (inr r, d') ->
  status r = 201 ->
  exists p buyer c ids d0 d1 o,
    find (fun p => (Product.id p =? productId)%string
            && existsb (fun u => (User.id u =? Product.sellerId p)%string) (users d))
         (products d) = Some p
    /\ find (fun u => (User.id u =? userId)%string) (users d) = Some buyer
    /\ Product.price p * quantity <= User.walletBalance buyer
    /\ same_but_items d d0
    /\ units_sold e productId p quantity d d0 c ids
    /\ r = Res 201 (OrderJson o)
    /\ paid_by_wallet e userId productId buyer p quantity c ids d0 d1 o
    /\ referral_paid userId (Product.price p * quantity) o d1 d'.
Proof.
  intros Hrun Hst.
  pose proof (wallet_order_run _ _ _ _ _ _ _ Hrun) as H.
  unfold wallet_result, wallet_branch_result in H. simpl users in H.
  simpl productItems in H.
  destruct (find _ (products d)) as [p |] eqn:Hp;
    [| destruct H as [-> _]; discriminate Hst].
  destruct (_ && _); [destruct H as [-> _]; discriminate Hst |].
  destruct (find _ (users d)) as [buyer |] eqn:Hb;
    [| destruct H as [-> _]; discriminate Hst].
  destruct (_ <? _) eqn:Hbal; [destruct H as [-> _]; discriminate Hst |].
  apply Z.ltb_ge in Hbal.
  destruct (Product.category p) eqn:Hcat.
  - cbv zeta in H.
    destruct (_ <? quantity) eqn:Hlen; [destruct H as [-> _]; discriminate Hst |].
    apply Z.ltb_ge in Hlen.
    destruct H as [[H5 _] | (o & d1 & Hr & Hpaid & Href)];
      [rewrite H5 in Hst; discriminate Hst |].
    exists p, buyer,
      (String.concat newline (map ProductItem.content
         (scanned productId quantity
            (afterSweep e productId (afterReservation e productId p (productItems d)))))),
      (map ProductItem.id
         (scanned productId quantity
            (afterSweep e productId (afterReservation e productId p (productItems d))))),
      (set_productItems d
         (markSold (map ProductItem.id
            (scanned productId quantity
               (afterSweep e productId (afterReservation e productId p (productItems d)))))
            (afterSweep e productId (afterReservation e productId p (productItems d))))),
      d1, o.
    split; [reflexivity |]. split; [reflexivity |]. split; [exact Hbal |].
    split; [repeat split |].
    split; [| split; [exact Hr | split; [exact Hpaid | exact Href]]].
    unfold units_sold. rewrite Hcat. split; [| repeat split].
    intros Hq. unfold scanned in *.
    replace (quantity <? 0) with false in * by (symmetry; apply Z.ltb_ge; exact Hq).
    pose proof (firstn_le_length (Z.to_nat quantity)
      (filter (storage.is_available_of productId)
         (afterSweep e productId (afterReservation e productId p (productItems d))))).
    lia.
  - destruct H as [[H5 _] | (o & d1 & Hr & Hpaid & Href)];
      [rewrite H5 in Hst; discriminate Hst |].
    exists p, buyer, EmptyString, [],
      (set_productItems d (afterReservation e productId p (productItems d))), d1, o.
    split; [reflexivity |]. split; [reflexivity |]. split; [exact Hbal |].
    split; [repeat split |].
    split; [| split; [exact Hr | split; [exact Hpaid | exact Href]]].
    unfold units_sold. rewrite Hcat. split; [reflexivity |]. split; [reflexivity |].
    unfold afterReservation. rewrite Hcat. reflexivity.
Qed.

(** * Binary64 rounding *)

Lemma nearest_even_near (x : Q) :
  (x - (1 # 2) <= inject_Z (Number.nearest_even x) <= x + (1 # 2))%Q.
Proof.
  unfold Number.nearest_even.
  pose proof (Qfloor_le x) as Hlo. pose proof (Qlt_floor x) as Hhi.
  rewrite inject_Z_plus in Hhi. change (inject_Z 1) with 1%Q in Hhi.
  destruct (Qcompare_spec (x - inject_Z (Qfloor x)) (1 # 2)) as [He | Hl | Hg].
  - destruct (Z.even (Qfloor x));
      [| rewrite inject_Z_plus; change (inject_Z 1) with 1%Q]; lra.
  - lra.
  - rewrite inject_Z_plus. change (inject_Z 1) with 1%Q. lra.
Qed.

Lemma pow2_pos (k : Z) : (0 < 2 ^ k)%Q.
Proof. apply Qpower_0_lt. reflexivity. Qed.

Lemma frac_le (a b c d : Q) :
  (0 < b)%Q -> (0 < d)%Q -> (0 <= a)%Q -> (a <= c)%Q -> (d <= b)%Q -> (a / b <= c / d)%Q.
Proof.
  intros Hb Hd Ha Hac Hdb.
  apply Qle_shift_div_r; [exact Hb |].
  assert (H : (c / d * b == c * (b / d))%Q) by (field; lra).
  rewrite H.
  assert (H1 : (1 <= b / d)%Q) by (apply Qle_shift_div_l; lra).
  nra.
Qed.

Lemma ulp_exponent_le (x : Q) :
  (0 < x)%Q -> (2 ^ (Number.ulp_exponent x + 52) <= x)%Q.
Proof.
  intros Hx. unfold Number.ulp_exponent.
  destruct (Qle_bool _ x) eqn:Hb.
  - apply Qle_bool_iff in Hb.
    replace (_ - 52 + 52) with (Z.log2 (Qnum x) - Z.log2 (Z.pos (Qden x))) by lia.
    exact Hb.
  - clear Hb. destruct x as [n d]. simpl Qnum in *. simpl Qden in *.
    assert (Hn : 0 < n) by (unfold Qlt in Hx; simpl in Hx; lia).
    replace (Z.log2 n - Z.log2 (Z.pos d) - 53 + 52)
      with (Z.log2 n - (Z.log2 (Z.pos d) + 1)) by lia.
    rewrite Qpower_minus by (intros H; discriminate H).
    pose proof (Z.log2_spec n Hn) as [Hn1 _].
    pose proof (Z.log2_spec (Z.pos d) ltac:(lia)) as [_ Hd2].
    pose proof (Z.log2_nonneg n). pose proof (Z.log2_nonneg (Z.pos d)).
    change 2%Q with (inject_Z 2).
    rewrite <- !Zpower_Qpower by lia.
    rewrite (Qmake_Qdiv n d).
    apply frac_le.
    + rewrite <- (Zlt_Qlt 0). apply Z.pow_pos_nonneg; lia.
    + reflexivity.
    + rewrite <- (Zle_Qle 0). apply Z.pow_nonneg; lia.
    + rewrite <- Zle_Qle. exact Hn1.
    + rewrite <- Zle_Qle.
      replace (Z.log2 (Z.pos d) + 1) with (Z.succ (Z.log2 (Z.pos d))) by lia. lia.
Qed.

Lemma round_pos_near (x : Q) :
  (0 < x)%Q -> (x * (1 - unit_roundoff) <= Number.round_pos x <= x * (1 + unit_roundoff))%Q.
Proof.
  intros Hx. unfold Number.round_pos.
  pose proof (ulp_exponent_le x Hx) as He.
  set (e := Number.ulp_exponent x) in *.
  rewrite Qpower_plus in He by (intros H; discriminate H).
  pose proof (pow2_pos e) as Ht.
  pose proof (nearest_even_near (x / 2 ^ e)) as Hm.
  set (m := inject_Z (Number.nearest_even (x / 2 ^ e))) in *.
  set (t := (2 ^ e)%Q) in *.
  assert (Hy : (x == x / t * t)%Q) by (field; lra).
  set (y := (x / t)%Q) in *.
  assert (H52 : (2 ^ 52 == 4503599627370496)%Q) by reflexivity.
  rewrite H52 in He. unfold unit_roundoff.
  assert (H1 : (m * t <= (y + (1 # 2)) * t)%Q) by (apply Qmult_le_compat_r; lra).
  assert (H2 : ((y - (1 # 2)) * t <= m * t)%Q) by (apply Qmult_le_compat_r; lra).
  assert (H3 : ((y + (1 # 2)) * t == x + (1 # 2) * t)%Q) by (rewrite Hy; ring).
  assert (H4 : ((y - (1 # 2)) * t == x - (1 # 2) * t)%Q) by (rewrite Hy; ring).
  rewrite H3 in H1. rewrite H4 in H2.
  split; lra.
Qed.

Lemma near_weaken (e e' x y : Q) : (e <= e')%Q -> near e x y -> near e' x y.
Proof.
  unfold near. intros He H. pose proof (Qabs_nonneg y) as Hy.
  apply (Qle_trans _ _ _ H). apply Qmult_le_compat_r; assumption.
Qed.

Lemma round_near (x : Q) : near unit_roundoff (Number.round x) x.
Proof.
  unfold near, Number.round. destruct x as [n d].
  destruct n as [| n | n]; simpl Qnum; cbv iota.
  - assert (H : (0 - 0 # d == 0)%Q) by reflexivity. rewrite H. simpl.
    assert (Hz : (Qabs (0 # d) == 0)%Q) by reflexivity. rewrite Hz. unfold unit_roundoff. lra.
  - rewrite Qred_correct.
    assert (Hx : (0 < Z.pos n # d)%Q) by reflexivity.
    pose proof (round_pos_near _ Hx) as Hb.
    rewrite (Qabs_pos (Z.pos n # d)) by lra.
    apply Qabs_Qle_condition. unfold unit_roundoff in *. lra.
  - rewrite Qred_correct.
    assert (Hx : (0 < - (Z.neg n # d))%Q) by reflexivity.
    pose proof (round_pos_near _ Hx) as Hb.
    assert (Hneg : (Z.neg n # d < 0)%Q) by reflexivity.
    rewrite (Qabs_neg (Z.neg n # d)) by lra.
    apply Qabs_Qle_condition. unfold unit_roundoff in *. lra.
Qed.

Lemma near_mul (e1 e2 a A c C : Q) :
  (0 <= e1)%Q -> (0 <= e2)%Q -> near e1 a A -> near e2 c C ->
  near (e1 + e2 + e1 * e2) (a * c) (A * C).
Proof.
  unfold near. intros H1 H2 Ha Hc.
  assert (Hd : (a * c - A * C == (a - A) * c + A * (c - C))%Q) by ring.
  rewrite Hd. eapply Qle_trans; [apply Qabs_triangle |].
  rewrite !Qabs_Qmult.
  assert (Hcc : (Qabs c <= Qabs C + Qabs (c - C))%Q).
  { assert (He : (c == C + (c - C))%Q) by ring. rewrite He at 1. apply Qabs_triangle. }
  pose proof (Qabs_nonneg A). pose proof (Qabs_nonneg C). pose proof (Qabs_nonneg c).
  pose proof (Qabs_nonneg (a - A)). pose proof (Qabs_nonneg (c - C)).
  set (x := Qabs (a - A)) in *. set (z := Qabs (c - C)) in *.
  set (AA := Qabs A) in *. set (CC := Qabs C) in *. set (cc := Qabs c) in *.
  assert (G1 : (x * cc <= (e1 * AA) * (CC + e2 * CC))%Q).
  { apply Qmult_le_compat_nonneg; split; lra. }
  assert (G2 : (AA * z <= AA * (e2 * CC))%Q).
  { apply Qmult_le_compat_nonneg; split; lra. }
  assert (G3 : ((e1 + e2 + e1 * e2) * (AA * CC)
                == e1 * AA * (CC + e2 * CC) + AA * (e2 * CC))%Q) by ring.
  rewrite G3. lra.
Qed.

Lemma near_trans (e1 e2 b a A : Q) :
  (0 <= e1)%Q -> (0 <= e2)%Q -> near e1 b a -> near e2 a A ->
  near (e1 + e2 + e1 * e2) b A.
Proof.
  unfold near. intros H1 H2 Hb Ha.
  assert (Hd : (b - A == (b - a) + (a - A))%Q) by ring.
  rewrite Hd. eapply Qle_trans; [apply Qabs_triangle |].
  assert (Haa : (Qabs a <= Qabs A + Qabs (a - A))%Q).
  { assert (He : (a == A + (a - A))%Q) by ring. rewrite He at 1. apply Qabs_triangle. }
  pose proof (Qabs_nonneg A). pose proof (Qabs_nonneg a).
  pose proof (Qabs_nonneg (b - a)). pose proof (Qabs_nonneg (a - A)).
  set (x := Qabs (b - a)) in *. set (z := Qabs (a - A)) in *.
  set (AA := Qabs A) in *. set (aa := Qabs a) in *.
  assert (G1 : (e1 * aa <= e1 * (AA + e2 * AA))%Q).
  { apply Qmult_le_compat_nonneg; split; lra. }
  assert (G3 : ((e1 + e2 + e1 * e2) * AA == e1 * (AA + e2 * AA) + e2 * AA)%Q) by ring.
  rewrite G3. lra.
Qed.

Lemma near_refl (x : Q) : near 0 x x.
Proof.
  unfold near. assert (H : (x - x == 0)%Q) by ring. rewrite H. simpl.
  pose proof (Qabs_nonneg x). lra.
Qed.

(** The amount [toFixed(2)] prints for a number within half a unit of
    [N / K] hundredths: one of the integers nearest to [N / K]. *)
Lemma toFixed2_near (y : Q) (N K : Z) :
  0 < K ->
  (Qabs (inject_Z K * (100 * y) - inject_Z N) < 1 # 2)%Q ->
  2 * Z.abs (K * Number.toFixed2 y - N) <= K.
Proof.
  intros HK Hy. apply Qabs_Qlt_condition in Hy.
  unfold Number.toFixed2.
  pose proof (Qfloor_le (Qabs y * 100 + (1 # 2))) as Hlo.
  pose proof (Qlt_floor (Qabs y * 100 + (1 # 2))) as Hhi.
  rewrite inject_Z_plus in Hhi. change (inject_Z 1) with 1%Q in Hhi.
  set (f := Qfloor (Qabs y * 100 + (1 # 2))) in *.
  assert (HKq : (0 < inject_Z K)%Q) by (rewrite <- (Zlt_Qlt 0); exact HK).
  assert (Hf1 : (inject_Z K * inject_Z f <= inject_Z K * (Qabs y * 100 + (1 # 2)))%Q)
    by (apply Qmult_le_l; assumption).
  assert (Hf2 : (inject_Z K * (Qabs y * 100 + (1 # 2)) < inject_Z K * (inject_Z f + 1))%Q)
    by (apply Qmult_lt_l; assumption).
  assert (E1 : (inject_Z K * (Qabs y * 100 + (1 # 2))
                == inject_Z K * (100 * Qabs y) + (1 # 2) * inject_Z K)%Q) by ring.
  assert (E2 : (inject_Z K * (inject_Z f + 1) == inject_Z K * inject_Z f + inject_Z K)%Q)
    by ring.
  rewrite E1 in Hf1, Hf2. rewrite E2 in Hf2. clear E1 E2.
  rewrite <- inject_Z_mult in Hf1, Hf2.
  destruct y as [n d]. destruct n as [| n | n]; simpl Qnum; simpl Z.sgn.
  - (* y = 0 *)
    assert (H0 : (100 * (0 # d) == 0)%Q) by reflexivity.
    rewrite H0 in Hy.
    assert (HN : (- (1 # 2) < - inject_Z N < 1 # 2)%Q) by (split; lra).
    assert (N = 0).
    { destruct HN as [Ha Hb].
      assert (Ha' : (inject_Z N < inject_Z 1)%Q) by (change (inject_Z 1) with 1%Q; lra).
      assert (Hb' : (inject_Z (-1) < inject_Z N)%Q) by (change (inject_Z (-1)) with (-1)%Q; lra).
      rewrite <- Zlt_Qlt in Ha', Hb'. lia. }
    subst N. lia.
  - (* y > 0 *)
    assert (Hpos : (0 <= Z.pos n # d)%Q) by (unfold Qle; simpl; lia).
    rewrite (Qabs_pos _ Hpos) in Hf1, Hf2.
    set (Y := (inject_Z K * (100 * (Z.pos n # d)))%Q) in *.
    assert (G1 : (inject_Z (2 * (K * f - N)) < inject_Z (K + 1))%Q).
    { rewrite inject_Z_mult, inject_Z_plus. unfold Zminus.
      rewrite inject_Z_plus, inject_Z_opp.
      change (inject_Z 2) with 2%Q. change (inject_Z 1) with 1%Q. lra. }
    assert (G2 : (inject_Z (2 * (N - K * f)) < inject_Z (K + 1))%Q).
    { rewrite inject_Z_mult, inject_Z_plus. unfold Zminus.
      rewrite inject_Z_plus, inject_Z_opp.
      change (inject_Z 2) with 2%Q. change (inject_Z 1) with 1%Q. lra. }
    rewrite <- Zlt_Qlt in G1, G2. lia.
  - (* y < 0 *)
    assert (Hneg : (Z.neg n # d <= 0)%Q) by (unfold Qle; simpl; lia).
    rewrite (Qabs_neg _ Hneg) in Hf1, Hf2.
    assert (E : (inject_Z K * (100 * - (Z.neg n # d))
                 == - (inject_Z K * (100 * (Z.neg n # d))))%Q) by ring.
    rewrite E in Hf1, Hf2. clear E.
    set (Y := (inject_Z K * (100 * (Z.neg n # d)))%Q) in *.
    assert (G1 : (inject_Z (2 * (K * f + N)) < inject_Z (K + 1))%Q).
    { rewrite inject_Z_mult, !inject_Z_plus.
      change (inject_Z 2) with 2%Q. change (inject_Z 1) with 1%Q. lra. }
    assert (G2 : (inject_Z (2 * (- N - K * f)) < inject_Z (K + 1))%Q).
    { rewrite inject_Z_mult, inject_Z_plus. unfold Zminus.
      rewrite inject_Z_plus, !inject_Z_opp.
      change (inject_Z 2) with 2%Q. change (inject_Z 1) with 1%Q. lra. }
    rewrite <- Zlt_Qlt in G1, G2. lia.
Qed.

Lemma round_zero (x : Q) : (x == 0)%Q -> Number.round x = 0%Q.
Proof.
  intros H. unfold Number.round. destruct x as [n d]. unfold Qeq in H. simpl in H.
  assert (n = 0) by lia. subst n. reflexivity.
Qed.

(** The amount printed for [price * rate], the rate [c] being within three
    roundings of [R / K]: one of the integers nearest to [price * R / K]
    hundredths. *)
Lemma amount_near (p : Z) (c : Q) (R K : Z) :
  0 < K -> 0 <= R ->
  near (3 * unit_roundoff) c (inject_Z R / inject_Z K) ->
  Z.abs p * R <= 2 ^ 49 ->
  2 * Z.abs (K * Number.toFixed2 (Number.mul (Number.of_hundredths p) c) - p * R) <= K.
Proof.
  intros HK HR Hc Hbound. apply toFixed2_near; [exact HK |].
  unfold Number.mul, Number.of_hundredths.
  set (P := (inject_Z p / 100)%Q). set (rho := (inject_Z R / inject_Z K)%Q) in *.
  pose proof (round_near P) as Ha. set (a := Number.round P) in *.
  assert (Hu0 : (0 <= unit_roundoff)%Q) by (unfold unit_roundoff; lra).
  assert (H3u : (0 <= 3 * unit_roundoff)%Q) by (unfold unit_roundoff; lra).
  pose proof (near_mul _ _ _ _ _ _ Hu0 H3u Ha Hc) as Hac.
  pose proof (round_near (a * c)) as Hy. set (y := Number.round (a * c)) in *.
  assert (He : (0 <= unit_roundoff + 3 * unit_roundoff + unit_roundoff * (3 * unit_roundoff))%Q) by (unfold unit_roundoff; lra).
  pose proof (near_trans _ _ _ _ _ Hu0 He Hy Hac) as Hn.
  apply (near_weaken _ (6 * unit_roundoff)) in Hn; [| unfold unit_roundoff; lra].
  unfold near in Hn. set (W := (P * rho)%Q) in *.
  assert (HKq : (0 < inject_Z K)%Q) by (rewrite <- (Zlt_Qlt 0); exact HK).
  assert (HT : (inject_Z (p * R) == inject_Z K * 100 * W)%Q).
  { rewrite inject_Z_mult. unfold W, P, rho. field. lra. }
  assert (Habs : (Qabs (inject_Z (p * R)) <= 562949953421312)%Q).
  { change (Qabs (inject_Z (p * R))) with (inject_Z (Z.abs (p * R))).
    change 562949953421312%Q with (inject_Z 562949953421312).
    rewrite <- Zle_Qle. rewrite Z.abs_mul, (Z.abs_eq R) by lia.
    change 562949953421312 with (2 ^ 49). exact Hbound. }
  assert (Hd : (inject_Z K * (100 * y) - inject_Z (p * R) == inject_Z K * 100 * (y - W))%Q).
  { rewrite HT. ring. }
  rewrite Hd, Qabs_Qmult.
  rewrite HT, Qabs_Qmult in Habs.
  assert (Hm : (Qabs (inject_Z K * 100) == inject_Z K * 100)%Q) by (apply Qabs_pos; lra).
  rewrite Hm in *.
  pose proof (Qabs_nonneg (y - W)). pose proof (Qabs_nonneg W).
  set (dy := Qabs (y - W)) in *. set (w := Qabs W) in *.
  assert (Hmpos : (0 < inject_Z K * 100)%Q) by lra.
  set (m := (inject_Z K * 100)%Q) in *.
  assert (G : (m * dy <= m * (6 * unit_roundoff * w))%Q) by (apply Qmult_le_l; [exact Hmpos | exact Hn]).
  assert (G' : (m * (6 * unit_roundoff * w) == 6 * unit_roundoff * (m * w))%Q) by ring.
  rewrite G' in G. unfold unit_roundoff in G. lra.
Qed.

Lemma amount_exact (s p R K : Z) :
  0 < K -> 2 * Z.abs (K * s - p * R) <= K -> (p * R) mod K = 0 -> K * s = p * R.
Proof.
  intros HK H Hm. apply Z.mod_divide in Hm; [| lia]. destruct Hm as [k Hk].
  rewrite Hk in *.
  replace (K * s - k * K) with (K * (s - k)) in H by ring.
  rewrite Z.abs_mul, (Z.abs_eq K) in H by lia.
  assert (Ha : Z.abs (s - k) = 0) by (pose proof (Z.abs_nonneg (s - k)); nia).
  apply Z.abs_0_iff in Ha. nia.
Qed.

Lemma near_constant (c rho : Q) :
  Qle_bool (Qabs (c - rho)) (3 * unit_roundoff * Qabs rho) = true -> near (3 * unit_roundoff) c rho.
Proof. intros H. apply Qle_bool_imp_le in H. exact H. Qed.

Lemma sellerAmount_rounds price :
  Z.abs price <= 2 ^ 44 ->
  Z.abs (100 * sellerAmount price - 95 * price) <= 50
  /\ (price mod 20 = 0 -> 100 * sellerAmount price = 95 * price).
Proof.
  intros Hp.
  assert (H : 2 * Z.abs (20 * sellerAmount price - price * 19) <= 20).
  { unfold sellerAmount. apply amount_near; [lia | lia | | ].
    - apply near_constant. vm_compute. reflexivity.
    - change (2 ^ 49) with (2 ^ 44 * 32). lia. }
  split; [lia |].
  intros Hm.
  assert (E : 20 * sellerAmount price = price * 19).
  { apply amount_exact; [lia | exact H |].
    apply Z.mod_divide in Hm; [| lia]. destruct Hm as [k ->].
    replace (k * 20 * 19) with (k * 19 * 20) by ring. apply Z.mod_mul. lia. }
  lia.
Qed.

Lemma commissionAmount_rounds price :
  Z.abs price <= 2 ^ 44 ->
  Z.abs (100 * commissionAmount price - 5 * price) <= 50.
Proof.
  intros Hp.
  assert (H : 2 * Z.abs (20 * commissionAmount price - price * 1) <= 20).
  { unfold commissionAmount. apply amount_near; [lia | lia | | ].
    - apply near_constant. vm_compute. reflexivity.
    - change (2 ^ 49) with (2 ^ 44 * 32). lia. }
  lia.
Qed.

(** The binary64 numbers nearest to 0.1 and to 0.3, and [1 - 0.05]. *)
Lemma round_examples :
  Number.round (1 # 10) = 3602879701896397 # 36028797018963968
  /\ Number.round (3 # 10) = 5404319552844595 # 18014398509481984
  /\ Number.sub 1 commissionRate = 4278419646001971 # 4503599627370496.
Proof. repeat split; vm_compute; reflexivity. Qed.

(** The total of an order, [(parseFloat(price) * quantity).toFixed(2)],
    is the exact product for a quantity that is not negative and a total of
    at most 2^49 hundredths. *)
Lemma totalPrice_exact (price quantity : Z) :
  0 <= quantity -> Z.abs price * quantity <= 2 ^ 49 ->
  Number.toFixed2 (Number.mul (Number.of_hundredths price)
                              (Number.round (inject_Z quantity)))
  = price * quantity.
Proof.
  intros Hq Hb.
  pose proof (amount_near price (Number.round (inject_Z quantity)) quantity 1
                ltac:(lia) Hq) as H.
  assert (Hc : near (3 * unit_roundoff) (Number.round (inject_Z quantity))
                    (inject_Z quantity / inject_Z 1)).
  { pose proof (round_near (inject_Z quantity)) as Hr.
    apply (near_weaken _ (3 * unit_roundoff)) in Hr; [| unfold unit_roundoff; lra].
    unfold near in *.
    assert (E : (inject_Z quantity / inject_Z 1 == inject_Z quantity)%Q)
      by (change (inject_Z 1) with 1%Q; field).
    rewrite E. exact Hr. }
  specialize (H Hc Hb). lia.
Qed.

(** * The seller's pending earning *)

Lemma find_update_where_key {A} (key : A -> ident) (i : ident) (f : A -> A) l :
  (forall r, key (f r) = key r) ->
  find (fun r => (key r =? i)%string) (update_where (fun r => (key r =? i)%string) f l)
  = option_map f (find (fun r => (key r =? i)%string) l).
Proof.
  intros Hk. induction l as [| a l IH]; simpl; auto.
  destruct (key a =? i)%string eqn:Ha.
  - rewrite Hk, Ha. reflexivity.
  - rewrite Ha. exact IH.
Qed.

Lemma update_where_compose {A} (p : A -> bool) (f g : A -> A) l :
  (forall r, p (f r) = p r) ->
  update_where p g (update_where p f l) = update_where p (fun r => g (f r)) l.
Proof.
  intros Hp. unfold update_where. rewrite map_map. apply map_ext.
  intros r. destruct (p r) eqn:Hr.
  - rewrite Hp, Hr. reflexivity.
  - rewrite Hr. reflexivity.
Qed.

(** The admin confirmation, when no storage call fails and it answers 200. *)
Lemma spec_confirm d e orderId :
  spec false d (post_admin_orders_confirm e orderId)
    (fun r d' =>
       r = Res 200 OrderConfirmed ->
       exists o d1,
         In o (orders d) /\ Order.id o = orderId
         /\ order_status_of d1 orderId = Some paid
         /\ pendingEarnings d1 = pendingEarnings d ++ [earningFor e o]
         /\ users d1 = users d /\ walletTransactions d1 = walletTransactions d
         /\ referrals d1 = referrals d /\ userReferralCodes d1 = userReferralCodes d
         /\ referral_paid (Order.buyerId o) (Order.price o) o d1 d')
    any_exn.
Proof.
  destruct d as [us ps its os ws rs cs pes ls].
  unfold post_admin_orders_confirm, handler, holdSellerEarning.
  apply spec_try.
  eapply spec_weaken with (E := any_exn);
    [| intros r d' H; exact H
     | intros ex d' _; apply spec_ret; intros H; discriminate H].
  apply spec_bind. autounfold with storage_ops. apply spec_query; [discriminate |].
  simpl orders. simpl products. simpl users. simpl productItems.
  destruct (find _ os) as [o |] eqn:Ho; [| apply spec_ret; intros H; discriminate H].
  destruct (find _ ps) as [p |] eqn:Hp; [| apply spec_ret; intros H; discriminate H].
  simpl.
  assert (Hin : In o os /\ Order.id o = orderId).
  { apply find_some in Ho. destruct Ho as [Hin Hb].
    apply andb_true_iff in Hb. destruct Hb as [Hb _].
    apply andb_true_iff in Hb. destruct Hb as [Hb _].
    apply String.eqb_eq in Hb. auto. }
  destruct Hin as [Hin Hid].
  assert (Hfind : find (fun x => (Order.id x =? orderId)%string) os <> None).
  { intros Hn. pose proof (find_none _ _ Hn o Hin) as Hc. simpl in Hc.
    rewrite Hid, String.eqb_refl in Hc. discriminate. }
  apply spec_bind. apply spec_command; [discriminate |].
  apply spec_bind.
  assert (Htail : forall os',
    order_status_of (mkDB us ps its os' ws rs cs pes ls) orderId = Some paid ->
    forall ps' its',
    spec false (mkDB us ps' its' os' ws rs cs pes ls)
      (bind (bind (await (storage.createPendingEarning e (Order.sellerId o) (Order.id o)
                            (sellerAmount (Order.price o)) pending (releaseDate (now e))))
                  (fun _ => await (storage.createAdminLog "platform_commission"
                     (MetaCommission (Order.id o) (Order.price o)
                        (commissionAmount (Order.price o)) (sellerAmount (Order.price o))))))
         (fun _ =>
            bind (await (storage.createAdminLog "order_confirmed" (MetaOrder orderId)))
              (fun _ => bind (sendNotification (Order.buyerId o))
                 (fun _ => bind (sendNotification (Order.sellerId o))
                    (fun _ => bind (payReferralCommission (Order.buyerId o) (Order.price o) o)
                       (fun _ => ret (Res 200 OrderConfirmed)))))))
      (fun r d' =>
         r = Res 200 OrderConfirmed ->
         exists o0 d1,
           In o0 os /\ Order.id o0 = orderId
           /\ order_status_of d1 orderId = Some paid
           /\ pendingEarnings d1 = pes ++ [earningFor e o0]
           /\ users d1 = us /\ walletTransactions d1 = ws
           /\ referrals d1 = rs /\ userReferralCodes d1 = cs
           /\ referral_paid (Order.buyerId o0) (Order.price o0) o0 d1 d')
      any_exn).
  { intros os' Hst ps' its'.
    apply spec_bind. apply spec_bind. apply spec_await; [discriminate |].
    unfold storage.createPendingEarning. simpl.
    destruct (existsb _ pes); [exact I |].
    autounfold with storage_ops. apply spec_command; [discriminate |].
    apply spec_bind. apply spec_command; [discriminate |].
    apply spec_bind. apply spec_ret. apply spec_bind. apply spec_ret.
    apply spec_bind.
    eapply spec_weaken; [apply spec_payReferralCommission | | intros ex d' F; destruct F].
    intros u1 d' Href. apply spec_ret. intros _.
    eexists o. eexists. split; [exact Hin |]. split; [exact Hid |].
    split; [| split; [| split; [| split; [| split; [| split; [| exact Href]]]]]];
      try reflexivity.
    exact Hst. }
  assert (Hpaid : forall f,
    (forall x, Order.id (f x) = Order.id x) ->
    (forall x, Order.status (f x) = paid) ->
    order_status_of
      (mkDB us ps its (update_where (fun x => (Order.id x =? orderId)%string) f os)
            ws rs cs pes ls) orderId = Some paid).
  { intros f Hk Hs. unfold order_status_of. simpl orders.
    rewrite (find_update_where_key Order.id orderId f os Hk).
    destruct (find (fun x => (Order.id x =? orderId)%string) os) as [x |];
      [| contradiction]. simpl. rewrite Hs. reflexivity. }
  destruct (Order.productItemId o) as [itemId |].
  - destruct (find _ its) as [item |].
    + apply spec_bind. apply spec_command; [discriminate |].
      apply spec_command; [discriminate |]. apply spec_bind.
      destruct (Product.category p);
        [apply spec_updateProductStock; [discriminate | intros _ | intros _; exact I]
        | apply spec_ret];
        (apply Htail; simpl orders;
         rewrite update_where_compose by (intros; reflexivity);
         apply Hpaid; intros; reflexivity).
    + apply spec_ret. apply spec_bind.
      destruct (Product.category p);
        [apply spec_updateProductStock; [discriminate | intros _ | intros _; exact I]
        | apply spec_ret];
        (apply Htail; apply Hpaid; intros; reflexivity).
  - apply spec_ret. apply spec_bind.
    destruct (Product.category p);
      [apply spec_updateProductStock; [discriminate | intros _ | intros _; exact I]
      | apply spec_ret];
      (apply Htail; apply Hpaid; intros; reflexivity).
Qed.

(** C5 (as amended). Every order that becomes paid by a wallet purchase
    answered 201 or by an admin confirmation answered 200 gets one pending
    earning for its seller, in status pending, releasable three days after
    the request, whose amount is [(price * 0.95).toFixed(2)] as binary64
    arithmetic gives it.  For prices up to 2^44 hundredths that amount is
    within half a hundredth of 95% of the price, and exactly 95% whenever
    the price in hundredths is a multiple of 20 (100,000.00 gives
    95,000.00). *)
Theorem C5_pending_earning_is_rounded_95_percent (d : DB) (e : Env) :
  (forall userId productId quantity r d',
     run (post_api_orders e userId productId quantity wallet) d = (inr r, d') ->
     status r = 201 ->
     exists o, payload r = OrderJson o /\ Order.status o = paid
               /\ pendingEarnings d' = pendingEarnings d ++ [earningFor e o])
  /\ (forall orderId r d',
        run (post_admin_orders_confirm e orderId) d = (inr r, d') ->
        r = Res 200 OrderConfirmed ->
        exists o, In o (orders d) /\ Order.id o = orderId
                  /\ order_status_of d' orderId = Some paid
                  /\ pendingEarnings d' = pendingEarnings d ++ [earningFor e o])
  /\ (forall o,
        PendingEarning.sellerId (earningFor e o) = Order.sellerId o
        /\ PendingEarning.orderId (earningFor e o) = Order.id o
        /\ PendingEarning.status (earningFor e o) = pending
        /\ PendingEarning.releaseAt (earningFor e o) = now e + 259200000
        /\ PendingEarning.amount (earningFor e o) = sellerAmount (Order.price o)
        /\ (Z.abs (Order.price o) <= 2 ^ 44 ->
            Z.abs (100 * sellerAmount (Order.price o) - 95 * Order.price o) <= 50
            /\ (Order.price o mod 20 = 0 ->
                100 * sellerAmount (Order.price o) = 95 * Order.price o)))
  /\ sellerAmount 10000000 = 9500000.
Proof.
  split; [| split; [| split; [| vm_compute; reflexivity]]].
  - intros userId productId quantity r d' Hrun Hst.
    destruct (wallet_created _ _ _ _ _ _ _ Hrun Hst)
      as (p & buyer & c & ids & d0 & d1 & o & _ & _ & _ & Hsame & _ & Hr & Hpaid & Href).
    destruct Hsame as (_ & _ & _ & _ & _ & _ & Hpe0).
    destruct Hpaid as (Ho & _ & _ & _ & _ & _ & _ & _ & _ & Hpe & _).
    destruct Href as (_ & _ & _ & Hpe' & _).
    exists o. subst r. split; [reflexivity |]. split; [rewrite Ho; reflexivity |].
    rewrite Hpe', Hpe, Hpe0. reflexivity.
  - intros orderId r d' Hrun Hr.
    pose proof (spec_run _ _ _ _ (spec_confirm d e orderId)) as H.
    rewrite Hrun in H. destruct (H Hr) as (o & d1 & Hin & Hid & Hst & Hpe & _ & _ & _ & _ & Href).
    exists o. destruct Href as (_ & _ & Hos & Hpe' & _).
    split; [exact Hin |]. split; [exact Hid |]. split.
    + unfold order_status_of in *. rewrite Hos. exact Hst.
    + rewrite Hpe', Hpe. reflexivity.
  - intros o. unfold earningFor. cbn [PendingEarning.sellerId PendingEarning.orderId
      PendingEarning.status PendingEarning.releaseAt PendingEarning.amount].
    split; [reflexivity |]. split; [reflexivity |]. split; [reflexivity |].
    split; [reflexivity |]. split; [reflexivity |].
    apply sellerAmount_rounds.
Qed.

(** C5 as stated fails in two ways.  For a product sold at 0.01 the
    pending earning is 0.01, the whole price and not 95% of it.  And an
    order can become paid with no pending earning, the request answering
    500: when the admin confirms the order of [sweepDB] and the storage call
    that inserts the earning fails; and when a wallet order of quantity
    -2147483648 for an account product is inserted as paid and the new
    stock then does not fit the 32-bit stock column. *)
Lemma C5_counterexample :
  (exists o d',
     run (post_api_orders sampleEnv "buyer" "tool" 1 wallet) pennyDB
     = (inr (Res 201 (OrderJson o)), d')
     /\ Order.price o = 1
     /\ map PendingEarning.amount (pendingEarnings d') = [1]
     /\ 100 * 1 <> 95 * Order.price o)
  /\ (exists d',
        run_failing 5 (post_admin_orders_confirm sampleEnv "o1") sweepDB
        = (inr (Res 500 (ErrorMessage StorageFault)), d')
        /\ order_status_of sweepDB "o1" = Some pending_payment
        /\ order_status_of d' "o1" = Some paid
        /\ pendingEarnings d' = [])
  /\ (exists d',
        run (post_api_orders sampleEnv "buyer" "p1" (-2147483648) wallet) exactStockDB
        = (inr (Res 500 (ErrorMessage (OutOfRange "integer"))), d')
        /\ orders exactStockDB = []
        /\ map Order.status (orders d') = [paid]
        /\ pendingEarnings d' = []).
Proof.
  split; [| split].
  - eexists. eexists. split; [vm_compute; reflexivity |].
    split; [reflexivity |]. split; [reflexivity |]. discriminate.
  - eexists. split; [vm_compute; reflexivity |]. repeat split.
  - eexists. split; [vm_compute; reflexivity |]. repeat split.
Qed.

Lemma C5_pending_earning_witness :
  exists o,
    pendingEarnings (snd (run (post_api_orders sampleEnv "buyer" "tool" 1 wallet) pennyDB))
    = pendingEarnings pennyDB ++ [earningFor sampleEnv o].
Proof.
  destruct (C5_pending_earning_is_rounded_95_percent pennyDB sampleEnv) as [H _].
  destruct (run (post_api_orders sampleEnv "buyer" "tool" 1 wallet) pennyDB)
    as [r d'] eqn:E.
  assert (Hr : exists r0, r = inr r0 /\ status r0 = 201).
  { vm_compute in E. injection E as <- _. eexists. split; reflexivity. }
  destruct Hr as (r0 & -> & Hst).
  destruct (H "buyer" "tool" 1 r0 d' E Hst) as (o & _ & _ & Hpe).
  exists o. exact Hpe.
Defined.

(** * The referral commission *)

Lemma find_update_where_other {A} (key : A -> ident) (i j : ident) (f : A -> A) l :
  (forall r, key (f r) = key r) -> i <> j ->
  find (fun r => (key r =? i)%string) (update_where (fun r => (key r =? j)%string) f l)
  = find (fun r => (key r =? i)%string) l.
Proof.
  intros Hk Hij. induction l as [| a l IH]; simpl; auto.
  destruct (key a =? j)%string eqn:Hj.
  - rewrite Hk. apply String.eqb_eq in Hj.
    destruct (key a =? i)%string eqn:Hi.
    + apply String.eqb_eq in Hi. congruence.
    + exact IH.
  - destruct (key a =? i)%string; [reflexivity | exact IH].
Qed.

Lemma existsb_update_where_key {A} (key : A -> ident) (i : ident) (p : A -> bool) f l :
  (forall r, key (f r) = key r) ->
  existsb (fun r => (key r =? i)%string) (update_where p f l)
  = existsb (fun r => (key r =? i)%string) l.
Proof.
  intros Hk. induction l as [| a l IH]; simpl; auto.
  rewrite IH. destruct (p a); [rewrite Hk |]; reflexivity.
Qed.

(** What the referral block leaves for a buyer whose first referral row is
    [ref], active, with an existing referrer. *)
Lemma referral_paid_active buyerId price o d1 d' ref b :
  referral_paid buyerId price o d1 d' ->
  find (fun r => (Referral.referredId r =? buyerId)%string) (referrals d1) = Some ref ->
  Referral.isActive ref = true ->
  balanceOf d1 (Referral.referrerId ref) = Some b ->
  let a := referralCommission price (Referral.commissionRate ref) in
  (0 < a ->
     balanceOf d' (Referral.referrerId ref) = Some (b + a)
     /\ walletTransactions d' = walletTransactions d1 ++ [referralCredit ref a o]
     /\ referrals d'
        = update_where (fun x => (Referral.id x =? Referral.id ref)%string) (earned a)
                       (referrals d1))
  /\ (a <= 0 ->
      balanceOf d' (Referral.referrerId ref) = Some b
      /\ walletTransactions d' = walletTransactions d1
      /\ referrals d' = referrals d1).
Proof.
  intros (_ & _ & _ & _ & H) Hfind Hact Hb a.
  unfold referralDue in H. rewrite Hfind, Hact in H. fold a in H.
  assert (Hex : existsb (fun u => (User.id u =? Referral.referrerId ref)%string) (users d1)
                = true).
  { unfold balanceOf in Hb.
    destruct (find _ (users d1)) as [u |] eqn:Hu; [| discriminate].
    eapply find_some_existsb; eassumption. }
  rewrite Hex in H. split; intros Ha.
  - replace (0 <? a) with true in H by (symmetry; apply Z.ltb_lt; assumption).
    simpl in H. destruct H as (Hu & Hw & Hr & _).
    split; [| split; assumption].
    unfold balanceOf in *. rewrite Hu.
    rewrite (find_update_where_key User.id) by (intros; reflexivity).
    destruct (find _ (users d1)) as [u |]; [| discriminate].
    simpl in *. injection Hb as ->. reflexivity.
  - replace (0 <? a) with false in H by (symmetry; apply Z.ltb_ge; assumption).
    simpl in H. destruct H as (Hu & Hw & Hr & _).
    split; [| split; assumption].
    unfold balanceOf in *. rewrite Hu. exact Hb.
Qed.

(** The rate read from "h/100" percent is [h / 10000] up to two roundings. *)
Lemma referralCommissionRate_near h :
  near (3 * unit_roundoff) (referralCommissionRate (RateNum h))
       (inject_Z h / inject_Z 10000).
Proof.
  unfold referralCommissionRate, Number.div, Number.of_hundredths.
  assert (Hu0 : (0 <= unit_roundoff)%Q) by (unfold unit_roundoff; lra).
  pose proof (round_near (inject_Z h / 100)) as H1.
  pose proof (near_mul _ _ _ _ _ _ Hu0 (Qle_refl 0) H1 (near_refl (/ 100))) as H2.
  pose proof (round_near (Number.round (inject_Z h / 100) / 100)) as H3.
  assert (He : (0 <= unit_roundoff + 0 + unit_roundoff * 0)%Q)
    by (unfold unit_roundoff; lra).
  pose proof (near_trans _ _ _ _ _ Hu0 He H3 H2) as H4.
  apply (near_weaken _ (3 * unit_roundoff)) in H4; [| unfold unit_roundoff; lra].
  unfold near in *.
  assert (E : (inject_Z h / inject_Z 10000 == inject_Z h / 100 * / 100)%Q)
    by (change (inject_Z 10000) with 10000%Q; field).
  rewrite E. exact H4.
Qed.

Lemma referralCommission_rounds price h :
  0 <= h -> Z.abs price * h <= 2 ^ 49 ->
  Z.abs (10000 * referralCommission price (RateNum h) - price * h) <= 5000
  /\ ((price * h) mod 10000 = 0 ->
      10000 * referralCommission price (RateNum h) = price * h).
Proof.
  intros Hh Hb.
  assert (H : 2 * Z.abs (10000 * referralCommission price (RateNum h) - price * h)
              <= 10000).
  { unfold referralCommission. apply amount_near; [lia | exact Hh | | exact Hb].
    apply referralCommissionRate_near. }
  split; [lia |]. intros Hm. apply amount_exact; [lia | exact H | exact Hm].
Qed.

Lemma referralCommissionRate_default :
  referralCommissionRate RateNaN = referralCommissionRate (RateNum 500).
Proof. vm_compute. reflexivity. Qed.

(** C6 (as amended). When no storage call fails and an order of a buyer
    becomes paid (wallet purchase answered 201, or admin confirmation
    answered 200), and the buyer's referral row is active with an existing
    referrer, the commission is [(price * rate).toFixed(2)] as binary64
    arithmetic gives it, the rate being the stored percentage over 100 (5%
    when the stored rate is empty or not a number).  If that amount is
    positive the referrer's balance grows by it at once, a credit entry
    referencing the order is appended, and the referral's cumulative
    earnings grow by it; if it is not positive, nothing is credited or
    recorded.  For a rate of h/100 percent and a price with
    |price * h| <= 2^49 the amount is within half a hundredth of
    price * h / 10000 hundredths, and equal to it when that is a whole
    number. *)
Theorem C6_referral_commission (d : DB) (e : Env) (buyerId : ident)
    (ref : Referral.t) (b : money) :
  find (fun r => (Referral.referredId r =? buyerId)%string) (referrals d) = Some ref ->
  Referral.isActive ref = true ->
  Referral.referrerId ref <> buyerId ->
  balanceOf d (Referral.referrerId ref) = Some b ->
  (forall productId quantity r d',
     run (post_api_orders e buyerId productId quantity wallet) d = (inr r, d') ->
     status r = 201 ->
     exists o p,
       payload r = OrderJson o /\ Order.buyerId o = buyerId
       /\ let a := referralCommission (Order.price o) (Referral.commissionRate ref) in
          (0 < a ->
             balanceOf d' (Referral.referrerId ref) = Some (b + a)
             /\ walletTransactions d'
                = walletTransactions d
                  ++ [purchaseDebit buyerId p quantity; referralCredit ref a o]
             /\ referrals d'
                = update_where (fun x => (Referral.id x =? Referral.id ref)%string)
                               (earned a) (referrals d))
          /\ (a <= 0 ->
              balanceOf d' (Referral.referrerId ref) = Some b
              /\ walletTransactions d'
                 = walletTransactions d ++ [purchaseDebit buyerId p quantity]
              /\ referrals d' = referrals d))
  /\ (forall orderId r d',
        run (post_admin_orders_confirm e orderId) d = (inr r, d') ->
        r = Res 200 OrderConfirmed ->
        exists o,
          In o (orders d) /\ Order.id o = orderId
          /\ (Order.buyerId o = buyerId ->
              let a := referralCommission (Order.price o) (Referral.commissionRate ref) in
              (0 < a ->
                 balanceOf d' (Referral.referrerId ref) = Some (b + a)
                 /\ walletTransactions d' = walletTransactions d ++ [referralCredit ref a o]
                 /\ referrals d'
                    = update_where (fun x => (Referral.id x =? Referral.id ref)%string)
                                   (earned a) (referrals d))
              /\ (a <= 0 ->
                  balanceOf d' (Referral.referrerId ref) = Some b
                  /\ walletTransactions d' = walletTransactions d
                  /\ referrals d' = referrals d)))
  /\ (forall price,
        referralCommission price RateEmpty = referralCommission price (RateNum 500)
        /\ referralCommission price RateNaN = referralCommission price (RateNum 500)
        /\ forall h,
             0 <= h -> Z.abs price * h <= 2 ^ 49 ->
             Z.abs (10000 * referralCommission price (RateNum h) - price * h) <= 5000
             /\ ((price * h) mod 10000 = 0 ->
                 10000 * referralCommission price (RateNum h) = price * h))
  /\ referralCommission 20000000 (RateNum 500) = 1000000.
Proof.
  intros Hfind Hact Hne Hb.
  split; [| split; [| split; [| vm_compute; reflexivity]]].
  - intros productId quantity r d' Hrun Hst.
    destruct (wallet_created _ _ _ _ _ _ _ Hrun Hst)
      as (p & buyer & c & ids & d0 & d1 & o & _ & _ & _ & Hsame & _ & Hr & Hpaid & Href).
    destruct Hsame as (Hu0 & _ & _ & Hw0 & Hr0 & _ & _).
    destruct Hpaid as (Ho & _ & _ & _ & Hu1 & Hw1 & _ & _ & _ & _ & Hr1 & _).
    assert (Hb1 : balanceOf d1 (Referral.referrerId ref) = Some b).
    { unfold balanceOf in *. rewrite Hu1, Hu0.
      rewrite (find_update_where_other User.id) by (auto; intros; reflexivity).
      exact Hb. }
    rewrite <- Hr0, <- Hr1 in Hfind.
    pose proof (referral_paid_active _ _ _ _ _ _ _ Href Hfind Hact Hb1) as [Hpos Hzero].
    exists o, p. subst r. split; [reflexivity |]. split; [rewrite Ho; reflexivity |].
    assert (Hprice : Order.price o = Product.price p * quantity) by (rewrite Ho; reflexivity).
    rewrite Hprice. cbv zeta. split; intros Ha.
    + destruct (Hpos Ha) as (H1 & H2 & H3). split; [exact H1 |]. split.
      * rewrite H2, Hw1, Hw0, <- app_assoc. reflexivity.
      * rewrite H3, Hr1, Hr0. reflexivity.
    + destruct (Hzero Ha) as (H1 & H2 & H3). split; [exact H1 |]. split.
      * rewrite H2, Hw1, Hw0. reflexivity.
      * rewrite H3, Hr1, Hr0. reflexivity.
  - intros orderId r d' Hrun Hr.
    pose proof (spec_run _ _ _ _ (spec_confirm d e orderId)) as H.
    rewrite Hrun in H.
    destruct (H Hr) as (o & d1 & Hin & Hid & _ & _ & Hu1 & Hw1 & Hr1 & _ & Href).
    exists o. split; [exact Hin |]. split; [exact Hid |]. intros Hbuyer.
    rewrite Hbuyer in Href.
    assert (Hb1 : balanceOf d1 (Referral.referrerId ref) = Some b).
    { unfold balanceOf in *. rewrite Hu1. exact Hb. }
    rewrite <- Hr1 in Hfind.
    pose proof (referral_paid_active _ _ _ _ _ _ _ Href Hfind Hact Hb1) as [Hpos Hzero].
    cbv zeta. split; intros Ha.
    + destruct (Hpos Ha) as (H1 & H2 & H3). split; [exact H1 |]. split.
      * rewrite H2, Hw1. reflexivity.
      * rewrite H3, Hr1. reflexivity.
    + destruct (Hzero Ha) as (H1 & H2 & H3). split; [exact H1 |]. split.
      * rewrite H2, Hw1. reflexivity.
      * rewrite H3, Hr1. reflexivity.
  - intros price. split; [reflexivity |].
    split; [unfold referralCommission; rewrite referralCommissionRate_default; reflexivity |].
    intros h. apply referralCommission_rounds.
Qed.

(** C6 as stated fails: the buyer has an active 5% referral, the order of
    0.05 is paid, and no credit entry referencing the order is recorded
    (the only entry is the buyer's debit): the commission rounds to 0.00 and
    the handler skips amounts that are not positive. *)
Lemma C6_counterexample :
  find (fun r => (Referral.referredId r =? "buyer")%string) (referrals pennyDB)
  = Some pennyReferral
  /\ Referral.isActive pennyReferral = true
  /\ exists o d',
       run (post_api_orders sampleEnv "buyer" "tool" 5 wallet) pennyDB
       = (inr (Res 201 (OrderJson o)), d')
       /\ Order.status o = paid /\ Order.price o = 5
       /\ walletTransactions d'
          = [WalletTransaction.mk "buyer" debit 5 (ReasonPurchase "Tool" 5) None]
       /\ balanceOf d' "friend" = balanceOf pennyDB "friend".
Proof.
  split; [reflexivity |]. split; [reflexivity |].
  eexists. eexists. split; [vm_compute; reflexivity |]. repeat split.
Qed.

Lemma C6_referral_commission_witness :
  referralCommission 20000000 (RateNum 500) = 1000000
  /\ referrals (snd (run (post_api_orders sampleEnv "buyer" "tool" 5 wallet) pennyDB))
     = referrals pennyDB.
Proof.
  assert (Hfind : find (fun r => (Referral.referredId r =? "buyer")%string)
                       (referrals pennyDB) = Some pennyReferral) by reflexivity.
  assert (Hact : Referral.isActive pennyReferral = true) by reflexivity.
  assert (Hne : Referral.referrerId pennyReferral <> "buyer") by discriminate.
  assert (Hb : balanceOf pennyDB (Referral.referrerId pennyReferral) = Some 0)
    by reflexivity.
  destruct (C6_referral_commission pennyDB sampleEnv "buyer" pennyReferral 0
              Hfind Hact Hne Hb) as (Hw & _ & _ & Hex).
  split; [exact Hex |].
  remember (run (post_api_orders sampleEnv "buyer" "tool" 5 wallet) pennyDB)
    as out eqn:Hrun in |- *.
  destruct out as [res d']. symmetry in Hrun.
  assert (Hres : exists r, res = inr r /\ status r = 201
                           /\ forall o, payload r = OrderJson o -> Order.price o = 5).
  { vm_compute in Hrun. injection Hrun as <- _. eexists. split; [reflexivity |].
    split; [reflexivity |]. intros o Ho. simpl in Ho. injection Ho as <-. reflexivity. }
  destruct Hres as (r & -> & Hst & Hprice).
  destruct (Hw "tool" 5 r d' Hrun Hst) as (o & p & Hpay & _ & _ & Hzero).
  rewrite (Hprice o Hpay) in Hzero. simpl snd. apply Hzero. vm_compute. discriminate.
Defined.

(** * Stock that exactly covers the request *)


Lemma filter_map_length {A} (p : A -> bool) (f : A -> A) l :
  List.length (filter p (map f l)) = List.length (filter (fun r => p (f r)) l).
Proof.
  induction l as [| x l IH]; simpl; auto.
  destruct (p (f x)); simpl; rewrite IH; reflexivity.
Qed.

Lemma find_map_key {A} (key : A -> ident) (i : ident) (f : A -> A) l :
  (forall r, key (f r) = key r) ->
  find (fun r => (key r =? i)%string) (map f l)
  = option_map f (find (fun r => (key r =? i)%string) l).
Proof.
  intros Hk. induction l as [| a l IH]; simpl; auto.
  rewrite Hk. destruct (key a =? i)%string; [reflexivity | exact IH].
Qed.

Lemma In_firstn {A} (x : A) n l : In x (firstn n l) -> In x l.
Proof.
  revert l. induction n as [| n IH]; intros [| a l]; simpl; try contradiction.
  intros [H | H]; auto.
Qed.

Lemma fresh_reservation_not_expired productId t r :
  storage.is_expired_of productId t (make_reserved (t + 30 * 60 * 1000) r) = false.
Proof.
  unfold storage.is_expired_of, storage.is_expired, make_reserved, lt_nullable.
  cbn [ProductItem.status ProductItem.reservedUntil ProductItem.productId].
  replace (t + 30 * 60 * 1000 <? t) with false by (symmetry; apply Z.ltb_ge; lia).
  rewrite !andb_false_r. reflexivity.
Qed.

Lemma reserved_not_available productId u r :
  storage.is_available_of productId (make_reserved u r) = false.
Proof.
  unfold storage.is_available_of, make_reserved. simpl. apply andb_false_r.
Qed.




(** * Order creation that fails *)

(** Under any fuse, what follows a step matters only through its
    continuation. *)
Lemma spec_skip {A B} d (m : M A) (k : A -> M B) Q :
  (forall a d', spec true d' (k a) Q any_exn) -> spec true d (bind m k) Q any_exn.
Proof.
  intros H fz _. unfold bind.
  destruct (m (mkWorld d fz)) as [[ex | a] [d' fz']]; simpl.
  - split; [left; reflexivity | exact I].
  - apply (H a d' fz'). left; reflexivity.
Qed.

Lemma payFromWallet_answers_201 d e userId productId buyer p quantity total c ids
    (Q : response -> DB -> Prop) :
  (forall o d', Q (Res 201 (OrderJson o)) d') ->
  spec true d (payFromWallet e userId productId buyer p quantity total c ids) Q any_exn.
Proof.
  intros HQ. unfold payFromWallet.
  repeat (apply spec_skip; intros).
  apply spec_ret. apply HQ.
Qed.

Lemma no_new_sold_update (p : ProductItem.t -> bool) f l it :
  (forall r, ProductItem.status (f r) <> sold) ->
  In it (update_where p f l) -> ProductItem.status it = sold -> In it l.
Proof.
  intros Hf Hin Hs. unfold update_where in Hin. apply in_map_iff in Hin.
  destruct Hin as [r [Hr Hin]]. destruct (p r); subst it; auto.
  exfalso. apply (Hf r). exact Hs.
Qed.

(** The wallet branch from the read of the buyer on: a 4xx answer leaves
    every table but product_items untouched and sells nothing. *)
Lemma spec_walletBranch_rejection us ps its os ws rs cs pes ls e userId productId p quantity :
  let d := mkDB us ps its os ws rs cs pes ls in
  spec true d
    (walletBranch e userId productId p quantity (Product.price p * quantity))
    (fun r d' => status r = 400 \/ status r = 404 ->
                 same_but_items d d' /\ no_new_sold d d')
    any_exn.
Proof.
  intros d. unfold walletBranch.
  assert (Hrefl : same_but_items d d /\ no_new_sold d d).
  { split; [repeat split | intros it Hin _; exact Hin]. }
  apply spec_bind. autounfold with storage_ops. apply spec_query; [intros; exact I |].
  destruct (find _ (users d)) as [buyer |]; [| apply spec_ret; intros _; exact Hrefl].
  destruct (User.walletBalance buyer <? Product.price p * quantity);
    [apply spec_ret; intros _; exact Hrefl |].
  apply spec_bind. unfold takeItems.
  destruct (Product.category p).
  - apply spec_bind. apply spec_await; [intros; exact I |].
    unfold storage.getAvailableProductItems. cbv zeta.
    destruct (Z.of_nat (List.length _) <? quantity).
    + apply spec_ret. apply spec_ret. intros _. split; [repeat split |].
      intros it Hin Hs. simpl in Hin.
      eapply no_new_sold_update; [| exact Hin | exact Hs].
      intros r. simpl. discriminate.
    + apply spec_skip. intros u1 d1. apply spec_ret.
      apply payFromWallet_answers_201. intros o d' [H | H]; discriminate H.
  - apply spec_ret.
    apply payFromWallet_answers_201. intros o d' [H | H]; discriminate H.
Qed.

Lemma spec_wallet_rejection d e userId productId quantity :
  spec true d (post_api_orders e userId productId quantity wallet)
    (fun r d' => status r = 400 \/ status r = 404 ->
                 same_but_items d d' /\ no_new_sold d d')
    any_exn.
Proof.
  destruct d as [us ps its os ws rs cs pes ls].
  unfold post_api_orders, handler.
  apply spec_try.
  eapply spec_weaken with (E := any_exn);
    [| intros r d' H; exact H
     | intros ex d' _; apply spec_ret; intros [H | H]; discriminate H].
  assert (Hrefl : same_but_items (mkDB us ps its os ws rs cs pes ls)
                                 (mkDB us ps its os ws rs cs pes ls)
                  /\ no_new_sold (mkDB us ps its os ws rs cs pes ls)
                                 (mkDB us ps its os ws rs cs pes ls)).
  { split; [repeat split | intros it Hin _; exact Hin]. }
  apply spec_bind. autounfold with storage_ops. apply spec_query; [intros; exact I |].
  destruct (find _ _) as [p |]; [| apply spec_ret; intros _; exact Hrefl].
  destruct (product_category_eqb (Product.category p) account && (Product.stock p <? quantity));
    [apply spec_ret; intros _; exact Hrefl |].
  apply spec_bind. unfold reserveOneItem.
  destruct (Product.category p).
  - apply spec_bind. autounfold with storage_ops. apply spec_query; [intros; exact I |].
    simpl productItems.
    destruct (find (storage.is_available_of productId) its) as [it |].
    + apply spec_bind. apply spec_command; [intros; exact I |]. apply spec_ret.
      eapply spec_weaken; [apply spec_walletBranch_rejection | | auto].
      intros r d' H Hst. destruct (H Hst) as [Hsame Hsold].
      split; [exact Hsame |].
      intros x Hin Hs. specialize (Hsold x Hin Hs). simpl in Hsold.
      eapply no_new_sold_update; [| exact Hsold | exact Hs].
      intros r0. simpl. discriminate.
    + apply spec_ret. apply spec_walletBranch_rejection.
  - apply spec_ret. apply spec_walletBranch_rejection.
Qed.




(** * The wallet purchase *)

Section Counting.
Context {A : Type} (key : A -> ident).

Lemma NoDup_firstn n (l : list A) : NoDup l -> NoDup (firstn n l).
Proof.
  revert l. induction n as [| n IH]; intros [| a l] H; simpl; try constructor.
  - inversion H as [| ? ? Ha Hl]; subst. intros Hin. apply Ha.
    eapply In_firstn; eassumption.
  - inversion H; subst. apply IH; assumption.
Qed.

Lemma filter_or_length (p g : A -> bool) l :
  (forall r, In r l -> p r = true -> g r = false) ->
  List.length (filter (fun r => p r || g r) l)
  = (List.length (filter p l) + List.length (filter g l))%nat.
Proof.
  induction l as [| a l IH]; simpl; intros H; auto.
  specialize (IH (fun r Hr => H r (or_intror Hr))).
  destruct (p a) eqn:Hp; simpl.
  - rewrite (H a) by auto. simpl. rewrite IH. reflexivity.
  - destruct (g a); simpl; rewrite IH; lia.
Qed.

Lemma filter_unaffected (p g : A -> bool) f l :
  (forall r, In r l -> p r = true -> g r = false) ->
  (forall r, g (f r) = false) ->
  filter g (update_where p f l) = filter g l.
Proof.
  intros Hp Hf. induction l as [| a l IH]; simpl; auto.
  rewrite IH by (intros; apply Hp; simpl; auto).
  destruct (p a) eqn:Ha.
  - rewrite Hf, (Hp a) by (simpl; auto). reflexivity.
  - reflexivity.
Qed.

Lemma map_key_update_where (p : A -> bool) f l :
  (forall r, key (f r) = key r) -> map key (update_where p f l) = map key l.
Proof.
  intros Hf. unfold update_where. rewrite map_map. apply map_ext.
  intros r. destruct (p r); auto.
Qed.

(** Selecting the rows of [l] whose key is the key of a row of [s]
    selects [s], when keys are unique and [s] is made of rows of [l]. *)
Lemma in_key_filter l s r :
  NoDup (map key l) -> incl s l ->
  In r l -> existsb (fun i => (key r =? i)%string) (map key s) = true -> In r s.
Proof.
  intros Hnd Hincl Hr Hex. apply existsb_exists in Hex.
  destruct Hex as [i [Hi Heq]]. apply String.eqb_eq in Heq.
  apply in_map_iff in Hi. destruct Hi as [r' [Hk Hr']].
  assert (r = r').
  { eapply (NoDup_key_inj key); eauto. congruence. }
  subst r'. exact Hr'.
Qed.

Lemma key_filter_length l s :
  NoDup (map key l) -> incl s l -> NoDup s ->
  List.length (filter (fun r => existsb (fun i => (key r =? i)%string) (map key s)) l)
  = List.length s.
Proof.
  intros Hnd Hincl Hs. apply Permutation_length. apply NoDup_Permutation.
  - apply NoDup_filter. eapply NoDup_map_inv; eassumption.
  - exact Hs.
  - intros r. rewrite filter_In. split.
    + intros [Hr Hex]. eapply in_key_filter; eassumption.
    + intros Hr. split; [apply Hincl; exact Hr |].
      apply existsb_exists. exists (key r). split; [apply in_map; exact Hr |].
      apply String.eqb_refl.
Qed.

End Counting.

Lemma markSold_as_update ids : forall l,
  markSold ids l
  = update_where (fun r => existsb (fun i => (ProductItem.id r =? i)%string) ids)
                 make_sold l.
Proof.
  unfold markSold. induction ids as [| i ids IH]; intros l; simpl.
  - symmetry. apply update_where_none. auto.
  - rewrite IH. rewrite update_where_twice by (intros; reflexivity). reflexivity.
Qed.

Lemma update_where_last {A} (p : A -> bool) f l a :
  existsb p l = false -> p a = true ->
  update_where p f (l ++ [a]) = l ++ [f a].
Proof.
  intros Hl Ha. unfold update_where. rewrite map_app. simpl. rewrite Ha.
  f_equal. fold (update_where p f l). apply update_where_none.
  intros r Hr. destruct (p r) eqn:Hp; auto.
  assert (existsb p l = true) by (apply existsb_exists; eauto). congruence.
Qed.

Lemma afterReservation_as_update e productId p items :
  Product.category p = account ->
  afterReservation e productId p items
  = update_where (reserved_row productId items)
                 (make_reserved (now e + 30 * 60 * 1000)) items.
Proof.
  intros Hcat. unfold afterReservation, reserved_row. rewrite Hcat.
  destruct (find _ items); [reflexivity |].
  symmetry. apply update_where_none. auto.
Qed.

Lemma reserved_row_available productId items r :
  NoDup (map ProductItem.id items) -> In r items ->
  reserved_row productId items r = true ->
  storage.is_available_of productId r = true.
Proof.
  unfold reserved_row. intros Hnd Hin H.
  destruct (find _ items) as [first |] eqn:Hf; [| discriminate].
  apply find_some in Hf. destruct Hf as [Hfin Hav].
  apply String.eqb_eq in H.
  assert (r = first) by (eapply (NoDup_key_inj ProductItem.id); eauto).
  subst. exact Hav.
Qed.

Lemma available_not_sold productId r :
  storage.is_available_of productId r = true -> is_sold r = false.
Proof.
  unfold storage.is_available_of, is_sold. intros H.
  apply andb_true_iff in H. destruct H as [_ H].
  destruct (ProductItem.status r); simpl in *; congruence.
Qed.

Lemma expired_not_sold productId t r :
  storage.is_expired_of productId t r = true -> is_sold r = false.
Proof.
  unfold storage.is_expired_of, storage.is_expired, is_sold. intros H.
  apply andb_true_iff in H. destruct H as [_ H].
  apply andb_true_iff in H. destruct H as [H _].
  destruct (ProductItem.status r); simpl in *; congruence.
Qed.

(** The units a wallet order takes, read on the tables before and after. *)
Lemma wallet_units d e productId p quantity d0 c ids :
  NoDup (map ProductItem.id (productItems d)) ->
  Product.category p = account ->
  0 <= quantity ->
  units_sold e productId p quantity d d0 c ids ->
  exists taken,
    Z.of_nat (List.length taken) = quantity
    /\ ids = map ProductItem.id taken
    /\ c = String.concat newline (map ProductItem.content taken)
    /\ NoDup taken
    /\ (forall it, In it taken ->
          ProductItem.productId it = productId
          /\ ProductItem.status it = available
          /\ (exists r, In r (productItems d)
                        /\ ProductItem.id r = ProductItem.id it
                        /\ ProductItem.content r = ProductItem.content it
                        /\ allocatable productId (now e) r = true)
          /\ item_status d0 (ProductItem.id it) = Some sold)
    /\ sold_count d0 = (sold_count d + List.length taken)%nat
    /\ (forall x, In x (productItems d0) -> ProductItem.status x = sold ->
          In x (productItems d) \/ exists t, In t taken /\ x = make_sold t).
Proof.
  intros Hnd Hcat Hq Hunits. unfold units_sold in Hunits. rewrite Hcat in Hunits.
  cbv zeta in Hunits. unfold scanned in Hunits.
  replace (quantity <? 0) with false in Hunits by (symmetry; apply Z.ltb_ge; exact Hq).
  destruct Hunits as (Hlen & Hids & Hc & Hitems). specialize (Hlen Hq).
  rewrite afterReservation_as_update in * by assumption.
  set (items := productItems d) in *.
  set (items1 := update_where (reserved_row productId items)
                   (make_reserved (now e + 30 * 60 * 1000)) items) in *.
  set (items2 := afterSweep e productId items1) in *.
  set (taken := firstn (Z.to_nat quantity)
                  (filter (storage.is_available_of productId) items2)) in *.
  assert (Hnd1 : NoDup (map ProductItem.id items1)).
  { unfold items1. rewrite (map_key_update_where ProductItem.id) by (intros; reflexivity).
    exact Hnd. }
  assert (Hnd2 : NoDup (map ProductItem.id items2)).
  { unfold items2, afterSweep.
    rewrite (map_key_update_where ProductItem.id) by (intros; reflexivity). exact Hnd1. }
  assert (Hincl : incl taken items2).
  { intros x Hx. unfold taken in Hx. apply In_firstn in Hx.
    apply filter_In in Hx. apply Hx. }
  assert (Hav : forall x, In x taken -> storage.is_available_of productId x = true).
  { intros x Hx. unfold taken in Hx. apply In_firstn in Hx.
    apply filter_In in Hx. apply Hx. }
  assert (Hndt : NoDup taken).
  { unfold taken. apply NoDup_firstn. apply NoDup_filter.
    eapply NoDup_map_inv; eassumption. }
  assert (Hsold2 : filter is_sold items2 = filter is_sold items).
  { unfold items2, afterSweep. rewrite filter_unaffected;
      [| intros r _ Hr; eapply expired_not_sold; eassumption | intros; reflexivity].
    unfold items1. apply filter_unaffected; [| intros; reflexivity].
    intros r Hr Hrow. apply (available_not_sold productId).
    exact (reserved_row_available productId items r Hnd Hr Hrow). }
  assert (Hd0 : productItems d0
                = update_where
                    (fun r => existsb (fun i => (ProductItem.id r =? i)%string)
                                      (map ProductItem.id taken))
                    make_sold items2).
  { rewrite Hitems, Hids. apply markSold_as_update. }
  exists taken. split; [exact Hlen |]. split; [exact Hids |]. split; [exact Hc |].
  split; [exact Hndt |]. split; [| split].
  - intros it Hit. pose proof (Hav it Hit) as Ha.
    unfold storage.is_available_of in Ha. apply andb_true_iff in Ha.
    destruct Ha as [Hpid Hst]. apply String.eqb_eq in Hpid.
    split; [exact Hpid |].
    split; [destruct (ProductItem.status it); simpl in Hst; congruence |].
    split.
    + pose proof (Hincl it Hit) as Hin2. unfold items2, afterSweep, update_where in Hin2.
      apply in_map_iff in Hin2. destruct Hin2 as [r1 [Hr1 Hin1]].
      unfold items1, update_where in Hin1. apply in_map_iff in Hin1.
      destruct Hin1 as [r [Hr Hin]]. exists r. split; [exact Hin |].
      destruct (reserved_row productId items r) eqn:Hrow.
      * exfalso. subst r1. rewrite fresh_reservation_not_expired in Hr1. subst it.
        pose proof (Hav _ Hit) as Hc'. rewrite reserved_not_available in Hc'.
        discriminate.
      * subst r1. unfold allocatable.
        destruct (storage.is_expired_of productId (now e) r) eqn:Hex.
        -- subst it. simpl. rewrite orb_true_r. repeat split.
        -- subst it. rewrite (Hav _ Hit). repeat split.
    + unfold item_status. rewrite Hd0. unfold update_where.
      rewrite (find_map_key ProductItem.id)
        by (intros r; destruct (existsb _ _); reflexivity).
      destruct (find (fun r => (ProductItem.id r =? ProductItem.id it)%string) items2)
        as [r0 |] eqn:Hr0.
      * apply find_some in Hr0. destruct Hr0 as [_ Hid]. apply String.eqb_eq in Hid.
        simpl.
        replace (existsb (fun i => (ProductItem.id r0 =? i)%string)
                         (map ProductItem.id taken)) with true; [reflexivity |].
        symmetry. apply existsb_exists. exists (ProductItem.id it).
        split; [apply in_map; exact Hit | apply String.eqb_eq; exact Hid].
      * exfalso. pose proof (find_none _ _ Hr0 it (Hincl it Hit)) as Hc'.
        simpl in Hc'. rewrite String.eqb_refl in Hc'. discriminate.
  - unfold sold_count. rewrite Hd0. unfold update_where. rewrite filter_map_length.
    rewrite (filter_ext
               (fun r => is_sold
                  (if existsb (fun i => (ProductItem.id r =? i)%string)
                              (map ProductItem.id taken)
                   then make_sold r else r))
               (fun r => existsb (fun i => (ProductItem.id r =? i)%string)
                                 (map ProductItem.id taken) || is_sold r))
      by (intros r;
          destruct (existsb (fun i => (ProductItem.id r =? i)%string)
                            (map ProductItem.id taken)); reflexivity).
    rewrite filter_or_length.
    + rewrite (key_filter_length ProductItem.id) by assumption.
      rewrite Hsold2. fold items. lia.
    + intros r Hr Hex. eapply available_not_sold. apply Hav.
      eapply (in_key_filter ProductItem.id); eassumption.
  - intros x Hx Hs. rewrite Hd0 in Hx. unfold update_where in Hx.
    apply in_map_iff in Hx. destruct Hx as [r [Hr Hin]].
    destruct (existsb (fun i => (ProductItem.id r =? i)%string)
                      (map ProductItem.id taken)) eqn:Hex.
    + right. exists r. split; [| congruence].
      eapply (in_key_filter ProductItem.id); eassumption.
    + left. subst x.
      assert (Hrs : In r (filter is_sold items2)).
      { apply filter_In. split; [exact Hin |]. unfold is_sold. rewrite Hs. reflexivity. }
      rewrite Hsold2 in Hrs. apply filter_In in Hrs. apply Hrs.
Qed.

Lemma referralDue_found buyerId price d ref a :
  referralDue buyerId price d = Some (ref, a) ->
  In ref (referrals d) /\ Referral.referredId ref = buyerId.
Proof.
  unfold referralDue. intros H.
  destruct (find _ (referrals d)) as [r |] eqn:Hf; [| discriminate].
  destruct (_ && _); [| discriminate]. injection H as <- _.
  apply find_some in Hf. destruct Hf as [Hin Heq].
  apply String.eqb_eq in Heq. auto.
Qed.

(** C2 (as amended). A wallet purchase of a non-negative quantity
    answered 201, in a run where no storage call fails, has created a paid
    order for unit price times quantity, lowered the buyer's balance by
    exactly that total and appended the matching debit entry (any further
    entry belongs to a referrer); for an account product exactly [quantity]
    units go from available, or from reserved with an expired reservation,
    to sold (no other unit becomes sold), and their contents, joined by
    newlines, are the order's delivered content.  A request refused by one
    of the handler's checks leaves the buyer's balance unchanged. *)
Theorem C2_wallet_purchase_effects
    (d : DB) (e : Env) (userId productId : ident) (quantity : Z) :
  NoDup (map ProductItem.id (productItems d)) ->
  (forall ref, In ref (referrals d) -> Referral.referredId ref = userId ->
               Referral.referrerId ref <> userId) ->
  0 <= quantity ->
  (forall r d',
     run (post_api_orders e userId productId quantity wallet) d = (inr r, d') ->
     status r = 201 ->
     exists o p b taken,
       r = Res 201 (OrderJson o)
       /\ Order.status o = paid /\ Order.buyerId o = userId
       /\ Order.price o = Product.price p * quantity
       /\ fst (storage.getProductWithSeller productId d) = inr (Some p)
       /\ balanceOf d userId = Some b
       /\ Product.price p * quantity <= b
       /\ balanceOf d' userId = Some (b - Product.price p * quantity)
       /\ (exists extra,
             walletTransactions d'
             = walletTransactions d ++ purchaseDebit userId p quantity :: extra
             /\ forall t, In t extra -> WalletTransaction.userId t <> userId)
       /\ orders d'
          = orders d ++ [delivered (String.concat newline (map ProductItem.content taken)) o]
       /\ match Product.category p with
          | account =>
              Z.of_nat (List.length taken) = quantity
              /\ NoDup taken
              /\ (forall it, In it taken ->
                    ProductItem.productId it = productId
                    /\ ProductItem.status it = available
                    /\ (exists r0, In r0 (productItems d)
                                   /\ ProductItem.id r0 = ProductItem.id it
                                   /\ ProductItem.content r0 = ProductItem.content it
                                   /\ allocatable productId (now e) r0 = true)
                    /\ item_status d' (ProductItem.id it) = Some sold)
              /\ sold_count d' = (sold_count d + List.length taken)%nat
              /\ (forall x, In x (productItems d') -> ProductItem.status x = sold ->
                    In x (productItems d) \/ exists t, In t taken /\ x = make_sold t)
          | software => taken = [] /\ productItems d' = productItems d
          end)
  /\ (forall r d',
        run (post_api_orders e userId productId quantity wallet) d = (inr r, d') ->
        status r = 400 \/ status r = 404 ->
        balanceOf d' userId = balanceOf d userId).
Proof.
  intros Hnd Hself Hq. split.
  - intros r d' Hrun Hst.
    destruct (wallet_created _ _ _ _ _ _ _ Hrun Hst)
      as (p & buyer & c & ids & d0 & d1 & o & Hp & Hb & Hbal & Hsame & Hunits
          & Hr & Hpaid & Href).
    destruct Hsame as (Hu0 & _ & Ho0 & Hw0 & Hr0 & _ & _).
    destruct Hpaid as (Ho & Hid & _ & _ & Hu1 & Hw1 & Ho1 & Hi1 & _ & _ & Hr1 & _).
    destruct Href as (_ & Hi' & Ho' & _ & Href).
    assert (Hb1 : balanceOf d1 userId
                  = Some (User.walletBalance buyer - Product.price p * quantity)).
    { unfold balanceOf. rewrite Hu1, Hu0.
      rewrite (find_update_where_key User.id) by (intros; reflexivity).
      rewrite Hb. reflexivity. }
    assert (Hmoney :
      balanceOf d' userId = Some (User.walletBalance buyer - Product.price p * quantity)
      /\ exists extra,
           walletTransactions d'
           = walletTransactions d ++ purchaseDebit userId p quantity :: extra
           /\ forall t, In t extra -> WalletTransaction.userId t <> userId).
    { destruct (referralDue userId (Product.price p * quantity) d1) as [[ref a] |] eqn:Hdue.
      - destruct (referralDue_found _ _ _ _ _ Hdue) as [Hin Hred].
        rewrite Hr1, Hr0 in Hin. pose proof (Hself ref Hin Hred) as Hne.
        destruct Href as (Hu' & Hw' & _). split.
        + unfold balanceOf in *. rewrite Hu'.
          rewrite (find_update_where_other User.id) by (auto; intros; reflexivity).
          exact Hb1.
        + eexists. split.
          * rewrite Hw', Hw1, Hw0, <- app_assoc. reflexivity.
          * intros t [<- | []]. exact Hne.
      - destruct Href as (Hu' & Hw' & _). split.
        + unfold balanceOf in *. rewrite Hu'. exact Hb1.
        + exists []. split; [rewrite Hw', Hw1, Hw0; reflexivity | intros t []]. }
    destruct Hmoney as [Hbal' Hledger].
    assert (Horders : orders d' = orders d ++ [delivered c o]).
    { rewrite Ho', Ho1, Ho0. unfold delivered.
      destruct (c =? EmptyString)%string; [reflexivity |].
      rewrite update_where_last; [reflexivity | | apply String.eqb_refl].
      rewrite Ho. rewrite <- Ho0. exact Hid. }
    assert (Htaken : exists taken,
      c = String.concat newline (map ProductItem.content taken)
      /\ match Product.category p with
         | account =>
             Z.of_nat (List.length taken) = quantity
             /\ NoDup taken
             /\ (forall it, In it taken ->
                   ProductItem.productId it = productId
                   /\ ProductItem.status it = available
                   /\ (exists r0, In r0 (productItems d)
                                  /\ ProductItem.id r0 = ProductItem.id it
                                  /\ ProductItem.content r0 = ProductItem.content it
                                  /\ allocatable productId (now e) r0 = true)
                   /\ item_status d' (ProductItem.id it) = Some sold)
             /\ sold_count d' = (sold_count d + List.length taken)%nat
             /\ (forall x, In x (productItems d') -> ProductItem.status x = sold ->
                   In x (productItems d) \/ exists t, In t taken /\ x = make_sold t)
         | software => taken = [] /\ productItems d' = productItems d
         end).
    { destruct (Product.category p) eqn:Hcat.
      - destruct (wallet_units d e productId p quantity d0 c ids Hnd Hcat Hq Hunits)
          as (taken & Hlen & _ & Hc & Hndt & Hall & Hcount & Honly).
        exists taken. split; [exact Hc |].
        unfold item_status, sold_count in *. rewrite Hi', Hi1.
        split; [exact Hlen |]. split; [exact Hndt |]. split; [exact Hall |].
        split; [exact Hcount | exact Honly].
      - unfold units_sold in Hunits. rewrite Hcat in Hunits.
        destruct Hunits as (Hc & _ & Hi0).
        exists []. split; [exact Hc |]. split; [reflexivity |].
        rewrite Hi', Hi1. exact Hi0. }
    destruct Htaken as (taken & Hc & Hitems).
    exists o, p, (User.walletBalance buyer), taken.
    split; [exact Hr |]. split; [rewrite Ho; reflexivity |].
    split; [rewrite Ho; reflexivity |]. split; [rewrite Ho; reflexivity |].
    split; [unfold storage.getProductWithSeller, query; simpl; rewrite Hp; reflexivity |].
    split; [unfold balanceOf; rewrite Hb; reflexivity |].
    split; [exact Hbal |]. split; [exact Hbal' |]. split; [exact Hledger |].
    split; [rewrite <- Hc; exact Horders | exact Hitems].
  - intros r d' Hrun Hst.
    pose proof (spec_any d _ _ _ None (spec_wallet_rejection d e userId productId quantity))
      as H.
    unfold run in Hrun.
    destruct (post_api_orders e userId productId quantity wallet (mkWorld d None))
      as [res w'].
    injection Hrun as -> <-.
    destruct (H Hst) as [(Hu & _) _].
    unfold balanceOf. rewrite Hu. reflexivity.
Qed.

(** C2 as stated fails in three places.  Order creation fails (the
    generated order key is already taken, the insert throws and the request
    answers 500) and the buyer's balance has changed, with the debit entry in
    the ledger.  A purchase of quantity -1 is answered 201: the balance
    rises by the unit price and one unit is sold, not -1.  A unit stored as
    reserved, its reservation over, is sold by a purchase: it goes from
    reserved to sold. *)
Lemma C2_counterexample :
  (exists d',
     run (post_api_orders sampleEnv "buyer" "tool" 3 wallet) keyCollisionDB
     = (inr (Res 500 (ErrorMessage (UniqueViolation "orders_pkey"))), d')
     /\ balanceOf keyCollisionDB "buyer" = Some 50000
     /\ balanceOf d' "buyer" = Some 49997
     /\ orders d' = orders keyCollisionDB
     /\ walletTransactions d'
        = [WalletTransaction.mk "buyer" debit 3 (ReasonPurchase "Tool" 3) None])
  /\ (exists o d',
        run (post_api_orders sampleEnv "buyer" "p1" (-1) wallet) exactStockDB
        = (inr (Res 201 (OrderJson o)), d')
        /\ Order.status o = paid /\ Order.quantity o = -1
        /\ balanceOf exactStockDB "buyer" = Some 50000
        /\ balanceOf d' "buyer" = Some 60000
        /\ sold_count exactStockDB = 0%nat
        /\ sold_count d' = 1%nat)
  /\ (exists o d',
        run (post_api_orders sampleEnv "buyer" "p1" 1 wallet) expiredReservationDB
        = (inr (Res 201 (OrderJson o)), d')
        /\ item_status expiredReservationDB "i1" = Some reserved
        /\ item_status d' "i1" = Some sold
        /\ Order.deliveredContent (delivered "login|secret" o) = Some "login|secret"%string
        /\ orders d' = [delivered "login|secret" o]).
Proof.
  split; [| split].
  - eexists. split; [vm_compute; reflexivity |]. repeat split.
  - eexists. eexists. split; [vm_compute; reflexivity |]. repeat split.
  - eexists. eexists. split; [vm_compute; reflexivity |]. repeat split.
Qed.

Lemma C2_wallet_purchase_witness :
  balanceOf (snd (run (post_api_orders sampleEnv "buyer" "p1" 1 wallet) exactStockDB))
            "buyer"
  = Some 40000
  /\ sold_count (snd (run (post_api_orders sampleEnv "buyer" "p1" 1 wallet) exactStockDB))
     = 1%nat.
Proof.
  assert (Hnd : NoDup (map ProductItem.id (productItems exactStockDB))).
  { simpl. constructor; [simpl; intros [H | []]; discriminate H |].
    constructor; [intros [] | constructor]. }
  assert (Hself : forall ref, In ref (referrals exactStockDB) ->
                    Referral.referredId ref = "buyer" ->
                    Referral.referrerId ref <> "buyer") by (intros ref []).
  destruct (C2_wallet_purchase_effects exactStockDB sampleEnv "buyer" "p1" 1 Hnd Hself
              ltac:(lia))
    as [H _].
  remember (run (post_api_orders sampleEnv "buyer" "p1" 1 wallet) exactStockDB)
    as out eqn:Hrun in |- *.
  destruct out as [res d']. symmetry in Hrun.
  assert (Hres : exists r, res = inr r /\ status r = 201).
  { vm_compute in Hrun. injection Hrun as <- _. eexists. split; reflexivity. }
  destruct Hres as (r & -> & Hst).
  destruct (H r d' Hrun Hst)
    as (o & p & b & taken & _ & _ & _ & _ & Hp & Hb & _ & Hb' & _ & _ & Hitems).
  vm_compute in Hp. injection Hp as <-. vm_compute in Hb. injection Hb as <-.
  simpl in Hitems. destruct Hitems as (Hlen & _ & _ & Hcount & _).
  simpl snd. split; [exact Hb' |]. rewrite Hcount.
  assert (Ht : List.length taken = 1%nat) by lia. rewrite Ht. reflexivity.
Defined.

(** * Releasing pending earnings *)

Lemma spec_release_step d t note why i
    (Q : unit -> DB -> Prop) :
  Q tt (release_effect t note why d i) ->
  spec false d
    (try_catch
       (r <- await (storage.releasePendingEarning i note t) ;;
        rel <- returned_row r ;;
        creditSeller rel why)
       (fun _ => ret tt))
    Q (fun _ _ => False).
Proof.
  destruct d as [us ps its os ws rs cs pes ls].
  unfold release_effect. simpl pendingEarnings. simpl users. simpl walletTransactions.
  intros HQ. apply spec_try. apply spec_bind. apply spec_await; [discriminate |].
  unfold storage.releasePendingEarning. simpl pendingEarnings.
  destruct (find (fun p => (PendingEarning.id p =? i)%string) pes) as [r0 |]; simpl option_map.
  - apply spec_bind. apply spec_ret. unfold creditSeller.
    apply spec_bind. autounfold with storage_ops. apply spec_query; [discriminate |].
    simpl users. simpl PendingEarning.sellerId.
    destruct (find _ us) as [u |].
    + apply spec_bind. apply spec_command; [discriminate |].
      apply spec_bind. apply spec_command; [discriminate |].
      apply spec_ret. exact HQ.
    + apply spec_ret. exact HQ.
  - apply spec_bind. apply spec_throw. apply spec_ret. exact HQ.
Qed.

Lemma spec_release_loop t note why : forall (l : list PendingEarning.t) d,
  spec false d
    (for_each l (fun earning =>
       try_catch
         (r <- await (storage.releasePendingEarning (PendingEarning.id earning) note t) ;;
          rel <- returned_row r ;;
          creditSeller rel why)
         (fun _ => ret tt)))
    (fun _ d' => d' = fold_left (release_effect t note why) (map PendingEarning.id l) d)
    (fun _ _ => False).
Proof.
  induction l as [| x l IH]; intros d; simpl.
  - apply spec_ret. reflexivity.
  - apply spec_bind. apply spec_release_step. apply IH.
Qed.

(** The job, when no storage call fails: the releases of the earnings it
    picked, in order. *)
Lemma spec_releasePendingEarnings d e :
  spec false d (releasePendingEarnings e)
    (fun _ d' =>
       d' = fold_left (release_effect (now e) (Some autoReleaseNote) ReasonEarningAutoReleased)
                      (map PendingEarning.id (releasable (now e) d)) d)
    (fun _ _ => False).
Proof.
  unfold releasePendingEarnings. apply spec_try.
  apply spec_bind. autounfold with storage_ops. apply spec_query; [discriminate |].
  eapply spec_weaken; [apply spec_release_loop | | intros ex d' F; destruct F].
  intros u d' H. exact H.
Qed.

(** The admin endpoint, when no storage call fails. *)
Lemma spec_release_endpoint d e i note :
  spec false d (post_admin_pending_earnings_release e i note)
    (fun r d' =>
       match find (fun p => (PendingEarning.id p =? i)%string) (pendingEarnings d) with
       | Some earning =>
           if pending_earning_status_eqb (PendingEarning.status earning) pending
           then status r = 200
                /\ d' = set_adminLogs
                          (release_effect (now e) note ReasonEarningReleased d i)
                          (adminLogs d
                           ++ [AdminLog.mk "pending_earning_released"
                                 (MetaEarning i (PendingEarning.amount earning))])
           else r = Res 404 EarningNotFoundOrProcessed /\ d' = d
       | None => r = Res 404 EarningNotFoundOrProcessed /\ d' = d
       end)
    (fun _ _ => False).
Proof.
  destruct d as [us ps its os ws rs cs pes ls].
  unfold post_admin_pending_earnings_release, handler, release_effect.
  simpl pendingEarnings. simpl users. simpl walletTransactions. simpl adminLogs.
  apply spec_try. apply spec_bind. autounfold with storage_ops.
  apply spec_query; [discriminate |]. simpl pendingEarnings.
  destruct (find (fun p => (PendingEarning.id p =? i)%string) pes) as [earning |] eqn:Hf;
    [| apply spec_ret; split; reflexivity].
  destruct (pending_earning_status_eqb (PendingEarning.status earning) pending);
    simpl negb; cbv iota; [| apply spec_ret; split; reflexivity].
  apply spec_bind. apply spec_await; [discriminate |].
  unfold storage.releasePendingEarning. simpl pendingEarnings. rewrite Hf. simpl option_map.
  apply spec_bind. apply spec_ret. apply spec_bind. unfold creditSeller.
  apply spec_bind. autounfold with storage_ops. apply spec_query; [discriminate |].
  simpl users. simpl PendingEarning.sellerId.
  destruct (find _ us) as [u |].
  - apply spec_bind. apply spec_command; [discriminate |].
    apply spec_bind. apply spec_command; [discriminate |]. apply spec_ret.
    apply spec_bind. apply spec_command; [discriminate |]. apply spec_ret.
    split; reflexivity.
  - apply spec_ret. apply spec_bind. apply spec_command; [discriminate |]. apply spec_ret.
    split; reflexivity.
Qed.

(** ** One release, on the tables *)

Lemma release_effect_earnings t note why d i :
  pendingEarnings (release_effect t note why d i)
  = update_where (fun p => (PendingEarning.id p =? i)%string)
                 (storage.set_earning_status released t note) (pendingEarnings d).
Proof.
  unfold release_effect.
  destruct (find _ (pendingEarnings d)); [destruct (find _ (users d)) |]; reflexivity.
Qed.

Lemma release_effect_user_ids t note why d i :
  map User.id (users (release_effect t note why d i)) = map User.id (users d).
Proof.
  unfold release_effect.
  destruct (find _ (pendingEarnings d)) as [r0 |]; [destruct (find _ (users d)) |];
    simpl; try reflexivity.
  apply (map_key_update_where User.id). intros; reflexivity.
Qed.

Lemma release_effect_cores t note why d i :
  map earning_core (pendingEarnings (release_effect t note why d i))
  = map earning_core (pendingEarnings d).
Proof.
  rewrite release_effect_earnings. unfold update_where. rewrite map_map.
  apply map_ext. intros r. destruct (PendingEarning.id r =? i)%string; reflexivity.
Qed.

Lemma existsb_by_keys {A} (key : A -> ident) i (l l' : list A) :
  map key l' = map key l ->
  existsb (fun r => (key r =? i)%string) l' = existsb (fun r => (key r =? i)%string) l.
Proof.
  intros H.
  assert (Hm : forall m : list A,
             existsb (fun r => (key r =? i)%string) m
             = existsb (fun k => (k =? i)%string) (map key m)).
  { induction m as [| a m IH]; simpl; [| rewrite IH]; reflexivity. }
  rewrite !Hm, H. reflexivity.
Qed.

Lemma cores_ids (l l' : list PendingEarning.t) :
  map earning_core l' = map earning_core l ->
  map PendingEarning.id l' = map PendingEarning.id l.
Proof.
  intros H.
  assert (Hm : forall m, map PendingEarning.id m
                         = map (fun c => fst (fst (fst c))) (map earning_core m)).
  { intros m. rewrite map_map. reflexivity. }
  rewrite !Hm, H. reflexivity.
Qed.

Lemma cores_in (l l' : list PendingEarning.t) r :
  map earning_core l' = map earning_core l -> In r l' ->
  exists r0, In r0 l /\ earning_core r0 = earning_core r.
Proof.
  intros H Hin. apply (in_map earning_core) in Hin. rewrite H in Hin.
  apply in_map_iff in Hin. destruct Hin as [r0 [Hc Hr0]]. exists r0. auto.
Qed.

(** What is known of [pe] stays known through tables with the same
    earnings up to the released columns and the same accounts. *)
Lemma earning_known_transfer d d' pe :
  map earning_core (pendingEarnings d') = map earning_core (pendingEarnings d) ->
  map User.id (users d') = map User.id (users d) ->
  earning_known d pe -> earning_known d' pe.
Proof.
  intros Hc Hu (Hnd & (r & Hr & Hcore) & Hone & Hseller).
  split; [rewrite (cores_ids _ _ Hc); exact Hnd |]. split; [| split].
  - apply (in_map earning_core) in Hr. rewrite <- Hc in Hr. apply in_map_iff in Hr.
    destruct Hr as [r' [Hr' Hin']]. exists r'. split; [exact Hin' | congruence].
  - intros r' Hin' Ho. destruct (cores_in _ _ _ Hc Hin') as (r0 & Hin0 & Hc0).
    unfold earning_core in Hc0. injection Hc0 as Hi _ Hord _.
    rewrite <- Hi. apply Hone; [exact Hin0 | congruence].
  - rewrite (existsb_by_keys User.id _ _ _ Hu). exact Hseller.
Qed.

Lemma earning_known_step t note why d i pe :
  earning_known d pe -> earning_known (release_effect t note why d i) pe.
Proof.
  apply earning_known_transfer;
    [apply release_effect_cores | apply release_effect_user_ids].
Qed.

(** The row of [pe]'s key, in a database where [pe] is known. *)
Lemma earning_known_row d pe :
  earning_known d pe ->
  exists r, find (fun p => (PendingEarning.id p =? PendingEarning.id pe)%string)
                 (pendingEarnings d) = Some r
            /\ In r (pendingEarnings d)
            /\ earning_core r = earning_core pe.
Proof.
  intros (Hnd & (r & Hr & Hcore) & _ & _).
  destruct (find (fun p => (PendingEarning.id p =? PendingEarning.id pe)%string)
                 (pendingEarnings d)) as [r' |] eqn:Hf.
  - apply find_some in Hf. destruct Hf as [Hin' Hid']. apply String.eqb_eq in Hid'.
    assert (r' = r).
    { eapply (NoDup_key_inj PendingEarning.id); eauto.
      unfold earning_core in Hcore. injection Hcore as Hi _ _ _. congruence. }
    subst r'. exists r. auto.
  - exfalso. pose proof (find_none _ _ Hf r Hr) as Hc. simpl in Hc.
    unfold earning_core in Hcore. injection Hcore as Hi _ _ _.
    rewrite Hi, String.eqb_refl in Hc. discriminate.
Qed.

(** ** Balance and ledger under releases *)

Lemma sum_app (l l' : list Z) :
  fold_right Z.add 0 (l ++ l') = fold_right Z.add 0 l + fold_right Z.add 0 l'.
Proof. induction l as [| x l IH]; simpl; lia. Qed.

Lemma ledgerSum_credit d ws s a why o v :
  walletTransactions d = ws ->
  fold_right Z.add 0
    (map signedAmount
       (filter (fun t => (WalletTransaction.userId t =? v)%string)
               (ws ++ [WalletTransaction.mk s credit a why o])))
  = ledgerSum d v + (if (s =? v)%string then a else 0).
Proof.
  intros <-. unfold ledgerSum. rewrite filter_app, map_app, sum_app. simpl.
  destruct (s =? v)%string; simpl; unfold signedAmount; simpl; lia.
Qed.

Lemma balance_follows_ledger_refl d : balance_follows_ledger d d.
Proof.
  intros v. destruct (balanceOf d v); simpl; [f_equal; lia | reflexivity].
Qed.

Lemma balance_follows_ledger_step t note why d0 d i :
  balance_follows_ledger d0 d ->
  balance_follows_ledger d0 (release_effect t note why d i).
Proof.
  intros H v. specialize (H v). unfold release_effect.
  destruct (find _ (pendingEarnings d)) as [r0 |]; [| exact H].
  destruct (find (fun u => (User.id u =? PendingEarning.sellerId r0)%string) (users d))
    as [u |] eqn:Hu; [| exact H].
  unfold balanceOf, ledgerSum in *. simpl users. simpl walletTransactions.
  unfold releaseCredit. simpl PendingEarning.sellerId. simpl PendingEarning.amount.
  rewrite (ledgerSum_credit d (walletTransactions d)) by reflexivity. unfold ledgerSum.
  destruct (PendingEarning.sellerId r0 =? v)%string eqn:Hs.
  - apply String.eqb_eq in Hs. subst v.
    rewrite (find_update_where_key User.id) by (intros; reflexivity).
    rewrite Hu in *. simpl in *.
    destruct (find _ (users d0)) as [u0 |]; simpl in *; [| discriminate].
    injection H as H. f_equal. lia.
  - apply String.eqb_neq in Hs.
    rewrite (find_update_where_other User.id) by (auto; intros; reflexivity).
    rewrite H. destruct (find _ (users d0)); simpl; [f_equal; lia | reflexivity].
Qed.

Lemma balance_follows_ledger_fold t note why d0 ids : forall d,
  balance_follows_ledger d0 d ->
  balance_follows_ledger d0 (fold_left (release_effect t note why) ids d).
Proof.
  induction ids as [| i ids IH]; intros d H; simpl; auto.
  apply IH. apply balance_follows_ledger_step. exact H.
Qed.

Lemma earning_known_fold t note why pe ids : forall d,
  earning_known d pe ->
  earning_known (fold_left (release_effect t note why) ids d) pe.
Proof.
  induction ids as [| i ids IH]; intros d H; simpl; auto.
  apply IH. apply earning_known_step. exact H.
Qed.

(** ** Ledger entries of a release *)

Lemma release_credits_self t note why d pe :
  earning_known d pe -> is_release_reason why = true ->
  release_credits (release_effect t note why d (PendingEarning.id pe)) pe
  = S (release_credits d pe).
Proof.
  intros Hk Hwhy. destruct (earning_known_row d pe Hk) as (r & Hf & _ & Hcore).
  destruct Hk as (_ & _ & _ & Hseller).
  unfold earning_core in Hcore. injection Hcore as _ Hs Ho Ha.
  unfold release_effect. rewrite Hf.
  destruct (find (fun u => (User.id u =? PendingEarning.sellerId r)%string) (users d))
    as [u |] eqn:Hu.
  - unfold release_credits. simpl walletTransactions.
    rewrite filter_app, length_app. simpl.
    unfold credits_earning at 2. simpl.
    rewrite Hs, Ho, Ha, !String.eqb_refl, Z.eqb_refl, Hwhy. simpl. lia.
  - rewrite Hs in Hu. apply find_none_existsb in Hu. congruence.
Qed.

Lemma release_credits_other t note why d pe i :
  earning_known d pe -> i <> PendingEarning.id pe ->
  release_credits (release_effect t note why d i) pe = release_credits d pe.
Proof.
  intros (_ & _ & Hone & _) Hi. unfold release_effect.
  destruct (find _ (pendingEarnings d)) as [r0 |] eqn:Hf; [| reflexivity].
  destruct (find _ (users d)) as [u |]; [| reflexivity].
  unfold release_credits. simpl walletTransactions.
  rewrite filter_app, length_app. simpl.
  replace (credits_earning pe _) with false; [simpl; lia |].
  symmetry. unfold credits_earning. simpl.
  apply find_some in Hf. destruct Hf as [Hin Hid]. apply String.eqb_eq in Hid.
  destruct (PendingEarning.orderId r0 =? PendingEarning.orderId pe)%string eqn:Ho.
  - apply String.eqb_eq in Ho. exfalso. apply Hi. rewrite <- Hid. apply Hone; assumption.
  - rewrite !andb_false_r. reflexivity.
Qed.

Lemma release_credits_fold_other t note why pe ids : forall d,
  earning_known d pe -> ~ In (PendingEarning.id pe) ids ->
  release_credits (fold_left (release_effect t note why) ids d) pe = release_credits d pe.
Proof.
  induction ids as [| i ids IH]; intros d Hk Hn; simpl; auto.
  rewrite IH.
  - apply release_credits_other; [exact Hk |]. intros ->. apply Hn. simpl; auto.
  - apply earning_known_step. exact Hk.
  - intros Hin. apply Hn. simpl; auto.
Qed.

Lemma release_credits_fold_self t note why pe ids : forall d,
  earning_known d pe -> is_release_reason why = true ->
  NoDup ids -> In (PendingEarning.id pe) ids ->
  release_credits (fold_left (release_effect t note why) ids d) pe
  = S (release_credits d pe).
Proof.
  induction ids as [| i ids IH]; intros d Hk Hwhy Hnd Hin; simpl; [contradiction |].
  inversion Hnd as [| ? ? Hi Hids]; subst.
  destruct Hin as [-> | Hin].
  - rewrite release_credits_fold_other by (auto using earning_known_step).
    apply release_credits_self; assumption.
  - rewrite IH by (auto using earning_known_step).
    rewrite release_credits_other; [reflexivity | exact Hk |].
    intros ->. contradiction.
Qed.

(** ** Release is one-way *)

Lemma earning_status_step t note why d i j :
  earning_status (release_effect t note why d i) j
  = if (j =? i)%string
    then option_map (fun _ => released) (earning_status d j)
    else earning_status d j.
Proof.
  unfold earning_status. rewrite release_effect_earnings.
  destruct (j =? i)%string eqn:Hji.
  - apply String.eqb_eq in Hji. subst j.
    rewrite (find_update_where_key PendingEarning.id) by (intros; reflexivity).
    destruct (find _ (pendingEarnings d)); reflexivity.
  - apply String.eqb_neq in Hji.
    rewrite (find_update_where_other PendingEarning.id) by (auto; intros; reflexivity).
    reflexivity.
Qed.

Lemma earning_status_fold t note why j ids : forall d s,
  earning_status d j = Some s ->
  s = released \/ In j ids ->
  earning_status (fold_left (release_effect t note why) ids d) j = Some released.
Proof.
  induction ids as [| i ids IH]; intros d s Hs Hor; simpl.
  - destruct Hor as [-> | []]. exact Hs.
  - destruct (j =? i)%string eqn:Hji.
    + apply (IH _ released); [| left; reflexivity].
      rewrite earning_status_step, Hji, Hs. reflexivity.
    + apply (IH _ s).
      * rewrite earning_status_step, Hji. exact Hs.
      * destruct Hor as [-> | [-> | Hin]]; auto.
        rewrite String.eqb_refl in Hji. discriminate.
Qed.

Lemma insert_by_releaseAt_perm p l :
  Permutation (storage.insert_by_releaseAt p l) (p :: l).
Proof.
  induction l as [| q l IH]; simpl; [reflexivity |].
  destruct (PendingEarning.releaseAt q <=? PendingEarning.releaseAt p).
  - rewrite IH. apply perm_swap.
  - reflexivity.
Qed.

Lemma sort_by_releaseAt_perm l : Permutation (storage.sort_by_releaseAt l) l.
Proof.
  unfold storage.sort_by_releaseAt. induction l as [| p l IH]; simpl; [reflexivity |].
  rewrite insert_by_releaseAt_perm. constructor. exact IH.
Qed.

Lemma releasable_spec t d x :
  In x (releasable t d)
  <-> In x (pendingEarnings d) /\ storage.is_releasable t x = true.
Proof.
  unfold releasable. rewrite <- filter_In. split; intros H.
  - eapply Permutation_in; [apply sort_by_releaseAt_perm | exact H].
  - eapply Permutation_in; [symmetry; apply sort_by_releaseAt_perm | exact H].
Qed.

Lemma releasable_NoDup t d :
  NoDup (map PendingEarning.id (pendingEarnings d)) ->
  NoDup (map PendingEarning.id (releasable t d)).
Proof.
  intros Hnd. unfold releasable.
  eapply Permutation_NoDup;
    [apply Permutation_map; symmetry; apply sort_by_releaseAt_perm |].
  revert Hnd. generalize (pendingEarnings d). intros l.
  induction l as [| a l IH]; simpl; intros Hnd; [constructor |].
  inversion Hnd as [| ? ? Ha Hl]; subst.
  destruct (storage.is_releasable t a); simpl; auto.
  constructor; auto. intros Hin. apply Ha.
  apply in_map_iff in Hin. destruct Hin as [x [Hx Hin]].
  apply filter_In in Hin. rewrite <- Hx. apply in_map. apply Hin.
Qed.

(** A first attempt on a pending earning releases it and credits it once. *)
Lemma attempt_releases d e pe a :
  earning_known d pe ->
  In pe (pendingEarnings d) ->
  PendingEarning.status pe = pending ->
  aimed_at e pe a ->
  let d1 := snd (run (attempt e (PendingEarning.id pe) a) d) in
  earning_known d1 pe
  /\ earning_status d1 (PendingEarning.id pe) = Some released
  /\ release_credits d1 pe = S (release_credits d pe)
  /\ balance_follows_ledger d d1.
Proof.
  intros Hk Hin Hst Haim.
  destruct (earning_known_row d pe Hk) as (r & Hf & Hr & Hcore).
  assert (r = pe).
  { destruct Hk as (Hnd & _). eapply (NoDup_key_inj PendingEarning.id); eauto.
    unfold earning_core in Hcore. injection Hcore as Hi _ _ _. exact Hi. }
  subst r.
  assert (Hs0 : earning_status d (PendingEarning.id pe) = Some pending).
  { unfold earning_status. rewrite Hf. simpl. rewrite Hst. reflexivity. }
  destruct a as [note |]; simpl attempt.
  - pose proof (spec_run _ _ _ _
      (spec_release_endpoint d e (PendingEarning.id pe) note)) as H.
    unfold run in *. unfold bind, ret.
    destruct (post_admin_pending_earnings_release e (PendingEarning.id pe) note
                (mkWorld d None)) as [[ex | r] w]; [destruct H |].
    rewrite Hf, Hst in H. simpl in H. destruct H as [_ H]. simpl. rewrite H.
    split; [| split; [| split]].
    + eapply earning_known_transfer; [| | apply (earning_known_step (now e) note
        ReasonEarningReleased d (PendingEarning.id pe) pe Hk)]; reflexivity.
    + change (earning_status (release_effect (now e) note ReasonEarningReleased d
                (PendingEarning.id pe)) (PendingEarning.id pe) = Some released).
      rewrite earning_status_step, String.eqb_refl, Hs0. reflexivity.
    + change (release_credits (release_effect (now e) note ReasonEarningReleased d
                (PendingEarning.id pe)) pe = S (release_credits d pe)).
      apply release_credits_self; [exact Hk | reflexivity].
    + intros v.
      pose proof (balance_follows_ledger_step (now e) note ReasonEarningReleased d d
                    (PendingEarning.id pe) (balance_follows_ledger_refl d) v) as Hv.
      exact Hv.
  - pose proof (spec_run _ _ _ _ (spec_releasePendingEarnings d e)) as H.
    unfold run in *.
    destruct (releasePendingEarnings e (mkWorld d None)) as [[ex | r] w]; [destruct H |].
    simpl. rewrite H.
    assert (Hpick : In (PendingEarning.id pe) (map PendingEarning.id (releasable (now e) d))).
    { apply in_map. apply releasable_spec. split; [exact Hin |].
      unfold storage.is_releasable. rewrite Hst. simpl.
      apply Z.leb_le. exact Haim. }
    split; [| split; [| split]].
    + apply earning_known_fold. exact Hk.
    + apply (earning_status_fold _ _ _ _ _ _ pending Hs0). right. exact Hpick.
    + apply release_credits_fold_self; auto.
      apply releasable_NoDup. apply Hk.
    + apply balance_follows_ledger_fold. apply balance_follows_ledger_refl.
Qed.

(** A further attempt on a released earning credits nothing for it. *)
Lemma attempt_on_released d e pe a :
  earning_known d pe ->
  earning_status d (PendingEarning.id pe) = Some released ->
  let d2 := snd (run (attempt e (PendingEarning.id pe) a) d) in
  earning_known d2 pe
  /\ earning_status d2 (PendingEarning.id pe) = Some released
  /\ release_credits d2 pe = release_credits d pe
  /\ balance_follows_ledger d d2
  /\ (forall note, a = ViaEndpoint note -> d2 = d).
Proof.
  intros Hk Hs.
  destruct (earning_known_row d pe Hk) as (r & Hf & Hr & Hcore).
  assert (Hrs : PendingEarning.status r = released).
  { unfold earning_status in Hs. rewrite Hf in Hs. simpl in Hs. congruence. }
  destruct a as [note |]; simpl attempt.
  - pose proof (spec_run _ _ _ _
      (spec_release_endpoint d e (PendingEarning.id pe) note)) as H.
    unfold run in *. unfold bind, ret.
    destruct (post_admin_pending_earnings_release e (PendingEarning.id pe) note
                (mkWorld d None)) as [[ex | r0] w]; [destruct H |].
    rewrite Hf, Hrs in H. simpl in H. destruct H as [_ H]. simpl. rewrite H.
    split; [exact Hk |]. split; [exact Hs |]. split; [reflexivity |].
    split; [apply balance_follows_ledger_refl | reflexivity].
  - pose proof (spec_run _ _ _ _ (spec_releasePendingEarnings d e)) as H.
    unfold run in *.
    destruct (releasePendingEarnings e (mkWorld d None)) as [[ex | r0] w]; [destruct H |].
    simpl. rewrite H.
    assert (Hskip : ~ In (PendingEarning.id pe)
                         (map PendingEarning.id (releasable (now e) d))).
    { intros Hin. apply in_map_iff in Hin. destruct Hin as [x [Hid Hx]].
      apply releasable_spec in Hx. destruct Hx as [Hx Hrel].
      assert (x = r).
      { destruct Hk as (Hnd & _). eapply (NoDup_key_inj PendingEarning.id); eauto.
        unfold earning_core in Hcore. injection Hcore as Hi _ _ _. congruence. }
      subst x. unfold storage.is_releasable in Hrel. rewrite Hrs in Hrel.
      discriminate. }
    split; [apply earning_known_fold; exact Hk |].
    split; [apply (earning_status_fold _ _ _ _ _ _ released Hs); left; reflexivity |].
    split; [apply release_credits_fold_other; assumption |].
    split; [apply balance_follows_ledger_fold; apply balance_follows_ledger_refl |].
    intros note Hc. discriminate Hc.
Qed.

Lemma endpoint_release_exact d e pe note b :
  earning_known d pe ->
  In pe (pendingEarnings d) ->
  PendingEarning.status pe = pending ->
  balanceOf d (PendingEarning.sellerId pe) = Some b ->
  let d1 := snd (run (attempt e (PendingEarning.id pe) (ViaEndpoint note)) d) in
  balanceOf d1 (PendingEarning.sellerId pe) = Some (b + PendingEarning.amount pe)
  /\ walletTransactions d1
     = walletTransactions d ++ [releaseCredit ReasonEarningReleased pe].
Proof.
  intros Hk Hin Hst Hb.
  destruct (earning_known_row d pe Hk) as (r & Hf & Hr & Hcore).
  assert (r = pe).
  { destruct Hk as (Hnd & _). eapply (NoDup_key_inj PendingEarning.id); eauto.
    unfold earning_core in Hcore. injection Hcore as Hi _ _ _. exact Hi. }
  subst r. simpl attempt.
  pose proof (spec_run _ _ _ _
    (spec_release_endpoint d e (PendingEarning.id pe) note)) as H.
  unfold run in *. unfold bind, ret.
  destruct (post_admin_pending_earnings_release e (PendingEarning.id pe) note
              (mkWorld d None)) as [[ex | r] w]; [destruct H |].
  rewrite Hf, Hst in H. simpl in H. destruct H as [_ H]. simpl. rewrite H.
  unfold release_effect. rewrite Hf. unfold balanceOf in *.
  destruct (find (fun u => (User.id u =? PendingEarning.sellerId pe)%string) (users d))
    as [u |] eqn:Hu; [| discriminate].
  simpl in Hb. injection Hb as Hb. simpl users. simpl walletTransactions.
  rewrite (find_update_where_key User.id) by (intros; reflexivity).
  rewrite Hu. simpl. rewrite Hb. split; reflexivity.
Qed.

(** C4. Two release attempts in a row on the same pending earning, each
    through the admin endpoint or the periodic job, in any combination,
    when no storage call fails: after the first the earning is released and
    the ledger holds one more release credit for it; the second finds it
    released, adds no credit for it (through the endpoint it answers 404
    and changes nothing), and the seller's balance has moved by exactly
    what the seller's ledger gained.  Through the endpoint the first attempt
    raises the balance by the held amount, with the one entry referencing
    the order. *)
Theorem C4_release_twice_credits_once
    (d : DB) (e1 e2 : Env) (pe : PendingEarning.t) (a1 a2 : release_attempt) (b : money) :
  NoDup (map PendingEarning.id (pendingEarnings d)) ->
  In pe (pendingEarnings d) ->
  PendingEarning.status pe = pending ->
  (forall r, In r (pendingEarnings d) ->
             PendingEarning.orderId r = PendingEarning.orderId pe -> r = pe) ->
  balanceOf d (PendingEarning.sellerId pe) = Some b ->
  aimed_at e1 pe a1 ->
  let d1 := snd (run (attempt e1 (PendingEarning.id pe) a1) d) in
  let d2 := snd (run (attempt e2 (PendingEarning.id pe) a2) d1) in
  earning_status d1 (PendingEarning.id pe) = Some released
  /\ earning_status d2 (PendingEarning.id pe) = Some released
  /\ release_credits d1 pe = S (release_credits d pe)
  /\ release_credits d2 pe = release_credits d1 pe
  /\ balanceOf d2 (PendingEarning.sellerId pe)
     = Some (b + (ledgerSum d2 (PendingEarning.sellerId pe)
                  - ledgerSum d (PendingEarning.sellerId pe)))
  /\ (forall note, a2 = ViaEndpoint note -> d2 = d1)
  /\ (forall note, a1 = ViaEndpoint note ->
        balanceOf d1 (PendingEarning.sellerId pe) = Some (b + PendingEarning.amount pe)
        /\ walletTransactions d1
           = walletTransactions d ++ [releaseCredit ReasonEarningReleased pe]).
Proof.
  intros Hnd Hin Hst Hone Hb Haim d1 d2.
  assert (Hk : earning_known d pe).
  { split; [exact Hnd |]. split; [exists pe; auto |]. split.
    - intros r Hr Ho. rewrite (Hone r Hr Ho). reflexivity.
    - unfold balanceOf in Hb.
      destruct (find (fun u => (User.id u =? PendingEarning.sellerId pe)%string) (users d))
        as [u |] eqn:Hu; [| discriminate].
      eapply find_some_existsb; eassumption. }
  destruct (attempt_releases d e1 pe a1 Hk Hin Hst Haim) as (Hk1 & Hs1 & Hc1 & Hbl1).
  fold d1 in Hk1, Hs1, Hc1, Hbl1.
  destruct (attempt_on_released d1 e2 pe a2 Hk1 Hs1) as (Hk2 & Hs2 & Hc2 & Hbl2 & Hsame).
  fold d2 in Hk2, Hs2, Hc2, Hbl2, Hsame.
  split; [exact Hs1 |]. split; [exact Hs2 |]. split; [exact Hc1 |]. split; [exact Hc2 |].
  split; [| split; [exact Hsame |]].
  - rewrite (Hbl2 (PendingEarning.sellerId pe)), (Hbl1 (PendingEarning.sellerId pe)), Hb.
    simpl. f_equal. lia.
  - intros note ->. apply (endpoint_release_exact d e1 pe note b Hk Hin Hst Hb).
Qed.

Lemma C4_release_twice_witness :
  balanceOf
    (snd (run (attempt sampleEnv "pe1" ViaJob)
              (snd (run (attempt sampleEnv "pe1" (ViaEndpoint None)) earningDB))))
    "seller"
  = Some 9500
  /\ release_credits
       (snd (run (attempt sampleEnv "pe1" ViaJob)
                 (snd (run (attempt sampleEnv "pe1" (ViaEndpoint None)) earningDB))))
       dueEarning
     = 1%nat.
Proof.
  assert (Hnd : NoDup (map PendingEarning.id (pendingEarnings earningDB))).
  { simpl. constructor; [intros [] | constructor]. }
  assert (Hin : In dueEarning (pendingEarnings earningDB)) by (left; reflexivity).
  assert (Hone : forall r, In r (pendingEarnings earningDB) ->
             PendingEarning.orderId r = PendingEarning.orderId dueEarning ->
             r = dueEarning).
  { intros r [<- | []] _. reflexivity. }
  destruct (C4_release_twice_credits_once earningDB sampleEnv sampleEnv dueEarning
              (ViaEndpoint None) ViaJob 0 Hnd Hin eq_refl Hone eq_refl I)
    as (_ & _ & Hc1 & Hc2 & Hbal & _ & _).
  split.
  - change (PendingEarning.sellerId dueEarning) with "seller" in Hbal.
    change (PendingEarning.id dueEarning) with "pe1" in Hbal.
    rewrite Hbal. vm_compute. reflexivity.
  - change (PendingEarning.id dueEarning) with "pe1" in Hc1, Hc2.
    rewrite Hc2, Hc1. reflexivity.
Defined.

(** * What the handlers keep of the accounts and the ledger *)

Lemma ledgerSum_entry d ws t v :
  walletTransactions d = ws ->
  fold_right Z.add 0
    (map signedAmount
       (filter (fun x => (WalletTransaction.userId x =? v)%string) (ws ++ [t])))
  = ledgerSum d v + (if (WalletTransaction.userId t =? v)%string then signedAmount t else 0).
Proof.
  intros <-. unfold ledgerSum. rewrite filter_app, map_app, sum_app. simpl.
  destruct (WalletTransaction.userId t =? v)%string; simpl; lia.
Qed.

Lemma accounts_kept_refl d : accounts_kept d d.
Proof. split; [reflexivity | apply balance_follows_ledger_refl]. Qed.

Lemma accounts_kept_same d d' :
  users d' = users d -> walletTransactions d' = walletTransactions d -> accounts_kept d d'.
Proof.
  intros Hu Hw. split; [rewrite Hu; reflexivity |].
  intros v. unfold balanceOf, ledgerSum. rewrite Hu, Hw.
  destruct (find _ (users d)); simpl; [f_equal; lia | reflexivity].
Qed.

Lemma accounts_kept_trans d0 d1 d2 :
  accounts_kept d0 d1 -> accounts_kept d1 d2 -> accounts_kept d0 d2.
Proof.
  intros [Hi1 H1] [Hi2 H2]. split; [congruence |].
  intros v. rewrite (H2 v), (H1 v).
  destruct (balanceOf d0 v); simpl; [f_equal; lia | reflexivity].
Qed.

(** One matched pair of writes: the balance of [u] rewritten by [f], and
    one ledger entry of [u] with the same signed amount. *)
Lemma accounts_kept_entry d d' u f t :
  users d' = update_where (fun x => (User.id x =? u)%string) f (users d) ->
  (forall x, User.id (f x) = User.id x) ->
  walletTransactions d' = walletTransactions d ++ [t] ->
  WalletTransaction.userId t = u ->
  (forall usr, find (fun x => (User.id x =? u)%string) (users d) = Some usr ->
               User.walletBalance (f usr) = User.walletBalance usr + signedAmount t) ->
  accounts_kept d d'.
Proof.
  intros Hu Hk Hw Ht Hb. split.
  - rewrite Hu. unfold update_where. rewrite map_map. apply map_ext.
    intros x. destruct (User.id x =? u)%string; [apply Hk | reflexivity].
  - intros v. unfold balanceOf. unfold ledgerSum at 1. rewrite Hu, Hw.
    rewrite (ledgerSum_entry d _ t v eq_refl). rewrite Ht.
    destruct (String.eqb_spec u v) as [-> | Hne].
    + rewrite (find_update_where_key User.id v f (users d) Hk).
      destruct (find _ (users d)) as [usr |] eqn:Hf; simpl; [| reflexivity].
      rewrite (Hb usr eq_refl). f_equal. lia.
    + rewrite (find_update_where_other User.id v u f (users d) Hk)
        by (intros E; apply Hne; symmetry; exact E).
      destruct (find (fun r => (User.id r =? v)%string) (users d)); simpl;
        [f_equal; lia | reflexivity].
Qed.

Lemma referral_paid_kept buyerId price o d1 d' :
  referral_paid buyerId price o d1 d' -> accounts_kept d1 d'.
Proof.
  unfold referral_paid. intros (_ & _ & _ & _ & H).
  destruct (referralDue buyerId price d1) as [[r a] |].
  - destruct H as (Hu & Hw & _).
    eapply accounts_kept_entry; [exact Hu | reflexivity | exact Hw | reflexivity |].
    intros usr _. reflexivity.
  - destruct H as (Hu & Hw & _). apply accounts_kept_same; assumption.
Qed.

Lemma debit_committed_kept userId buyer p quantity d d' :
  find (fun u => (User.id u =? userId)%string) (users d) = Some buyer ->
  debit_committed userId buyer p quantity d d' -> accounts_kept d d'.
Proof.
  intros Hb [Hu Hw].
  eapply accounts_kept_entry; [exact Hu | reflexivity | exact Hw | reflexivity |].
  intros usr Hf. rewrite Hb in Hf. injection Hf as <-. unfold signedAmount. simpl. lia.
Qed.

Lemma paid_by_wallet_kept e userId productId buyer p quantity c ids d d1 o :
  find (fun u => (User.id u =? userId)%string) (users d) = Some buyer ->
  paid_by_wallet e userId productId buyer p quantity c ids d d1 o -> accounts_kept d d1.
Proof.
  intros Hb (_ & _ & _ & _ & Hu & Hw & _).
  apply (debit_committed_kept userId buyer p quantity d d1 Hb). split; assumption.
Qed.

Lemma accounts_kept_release t note why d0 d i :
  accounts_kept d0 d -> accounts_kept d0 (release_effect t note why d i).
Proof.
  intros [Hi Hb]. split.
  - rewrite release_effect_user_ids. exact Hi.
  - apply balance_follows_ledger_step. exact Hb.
Qed.

Lemma accounts_kept_release_fold t note why d0 ids : forall d,
  accounts_kept d0 d -> accounts_kept d0 (fold_left (release_effect t note why) ids d).
Proof.
  induction ids as [| i ids IH]; intros d H; simpl; [exact H |].
  apply IH. apply accounts_kept_release. exact H.
Qed.

(** A handler whose body keeps [I], also when it throws, keeps [I]. *)
Lemma spec_handler_keeps d (m : M response) (I : DB -> Prop) :
  spec false d m (fun _ d' => I d') (fun _ d' => I d') ->
  spec false d (handler m) (fun _ d' => I d') (fun _ _ => False).
Proof.
  intros H. unfold handler. apply spec_try.
  eapply spec_weaken; [exact H | intros a d' Hi; exact Hi |].
  intros ex d' Hi. apply spec_ret. exact Hi.
Qed.

Lemma spec_walletBranch_kept us ps its os ws rs cs pes ls e userId productId p quantity :
  let d := mkDB us ps its os ws rs cs pes ls in
  spec false d
    (walletBranch e userId productId p quantity (Product.price p * quantity))
    (fun _ d' => accounts_kept d d') (fun _ d' => accounts_kept d d').
Proof.
  intros d. unfold walletBranch.
  apply spec_bind. autounfold with storage_ops. apply spec_query; [discriminate |].
  simpl users.
  destruct (find _ us) as [buyer |] eqn:Hb; [| apply spec_ret; apply accounts_kept_refl].
  destruct (User.walletBalance buyer <? Product.price p * quantity);
    [apply spec_ret; apply accounts_kept_refl |].
  assert (Hpay : forall c ids its',
    spec false (mkDB us ps its' os ws rs cs pes ls)
      (payFromWallet e userId productId buyer p quantity (Product.price p * quantity) c ids)
      (fun _ d' => accounts_kept d d') (fun _ d' => accounts_kept d d')).
  { intros c ids its'.
    eapply spec_weaken; [apply spec_payFromWallet | |].
    - intros r d' (o & d1 & _ & Hp & Href).
      apply (accounts_kept_trans d (mkDB us ps its' os ws rs cs pes ls) d');
        [apply accounts_kept_same; reflexivity |].
      eapply accounts_kept_trans;
        [eapply paid_by_wallet_kept; [exact Hb | exact Hp] | eapply referral_paid_kept; exact Href].
    - intros ex d' [_ Hd].
      apply (accounts_kept_trans d (mkDB us ps its' os ws rs cs pes ls) d');
        [apply accounts_kept_same; reflexivity |].
      eapply debit_committed_kept; [exact Hb | exact Hd]. }
  apply spec_bind. unfold takeItems.
  destruct (Product.category p) eqn:Hcat.
  - apply spec_bind. apply spec_await; [discriminate |].
    unfold storage.getAvailableProductItems. simpl productItems. cbv zeta.
    destruct (Z.of_nat (List.length _) <? quantity).
    + apply spec_ret. apply spec_ret. apply accounts_kept_same; reflexivity.
    + apply spec_bind.
      eapply spec_weaken;
        [apply (spec_for_each_command false
                  (fun x => fun d0 => set_productItems d0
                     (update_where
                        (fun it => (ProductItem.id it =? ProductItem.id x)%string)
                        (fun it => ProductItem.mk (ProductItem.id it)
                                     (ProductItem.productId it)
                                     (ProductItem.content it) sold None)
                        (productItems d0)))
                  _ (fun _ _ => False));
         discriminate
        | | intros ex d' F; destruct F].
      intros u1 d' ->. apply spec_ret.
      rewrite mark_sold_loop. apply Hpay.
  - apply spec_ret. apply Hpay.
Qed.

(** POST /api/orders, whatever the payment method. *)
Lemma spec_orders_kept d e userId productId quantity m :
  spec false d (post_api_orders e userId productId quantity m)
    (fun _ d' => accounts_kept d d') (fun _ _ => False).
Proof.
  destruct d as [us ps its os ws rs cs pes ls].
  unfold post_api_orders.
  apply (spec_handler_keeps _ _ (accounts_kept (mkDB us ps its os ws rs cs pes ls))).
  apply spec_bind. autounfold with storage_ops. apply spec_query; [discriminate |].
  simpl users. simpl products.
  destruct (find _ ps) as [p |]; [| apply spec_ret; apply accounts_kept_refl].
  destruct (product_category_eqb (Product.category p) account && (Product.stock p <? quantity));
    [apply spec_ret; apply accounts_kept_refl |].
  assert (Hrest : forall its' itemId,
    spec false (mkDB us ps its' os ws rs cs pes ls)
      match m with
      | wallet => walletBranch e userId productId p quantity (Product.price p * quantity)
      | _ =>
          o <- await (storage.createOrder e userId (Product.sellerId p) productId
                        itemId quantity (Product.price p * quantity) m pending_payment) ;;
          ret (Res 201 (OrderJson o))
      end
      (fun _ d' => accounts_kept (mkDB us ps its os ws rs cs pes ls) d')
      (fun _ d' => accounts_kept (mkDB us ps its os ws rs cs pes ls) d')).
  { intros its' itemId.
    assert (Hqr :
      spec false (mkDB us ps its' os ws rs cs pes ls)
        (o <- await (storage.createOrder e userId (Product.sellerId p) productId
                       itemId quantity (Product.price p * quantity) m pending_payment) ;;
         ret (Res 201 (OrderJson o)))
        (fun _ d' => accounts_kept (mkDB us ps its os ws rs cs pes ls) d')
        (fun _ d' => accounts_kept (mkDB us ps its os ws rs cs pes ls) d')).
    { apply spec_bind. apply spec_await; [discriminate |].
      unfold storage.createOrder. simpl.
      destruct (int4 quantity); cbn [negb]; [| apply accounts_kept_same; reflexivity].
      destruct (existsb _ os); [apply accounts_kept_same; reflexivity |].
      destruct (existsb _ os); [apply accounts_kept_same; reflexivity |].
      apply spec_ret. apply accounts_kept_same; reflexivity. }
    destruct m; [exact Hqr | | exact Hqr].
    eapply spec_weaken; [apply spec_walletBranch_kept | |];
      intros a d' H;
      (eapply accounts_kept_trans; [| exact H]; apply accounts_kept_same; reflexivity). }
  apply spec_bind. unfold reserveOneItem.
  destruct (Product.category p).
  - apply spec_bind. autounfold with storage_ops. apply spec_query; [discriminate |].
    simpl productItems.
    destruct (find (storage.is_available_of productId) its) as [it |].
    + apply spec_bind. apply spec_command; [discriminate |]. apply spec_ret.
      apply Hrest.
    + apply spec_ret. apply Hrest.
  - apply spec_ret. apply Hrest.
Qed.

Lemma spec_cancel_kept d orderId :
  spec false d (post_admin_orders_cancel orderId)
    (fun _ d' => accounts_kept d d') (fun _ _ => False).
Proof.
  destruct d as [us ps its os ws rs cs pes ls].
  unfold post_admin_orders_cancel.
  apply (spec_handler_keeps _ _ (accounts_kept (mkDB us ps its os ws rs cs pes ls))).
  apply spec_bind. autounfold with storage_ops. apply spec_query; [discriminate |].
  destruct (match find _ _ with Some _ => _ | None => _ end) as [det |];
    [| apply spec_ret; apply accounts_kept_refl].
  apply spec_bind. apply spec_command; [discriminate |].
  apply spec_bind.
  destruct (Order.productItemId (storage.order det));
    [apply spec_command; [discriminate |] | apply spec_ret];
    (apply spec_bind; apply spec_command; [discriminate |];
     apply spec_ret; apply accounts_kept_same; reflexivity).
Qed.

Lemma storage_cancel_loop_money l d :
  users (fold_left storage.cancel_one l d) = users d
  /\ walletTransactions (fold_left storage.cancel_one l d) = walletTransactions d.
Proof.
  destruct (cancel_loop l d) as (_ & _ & Hu & Hw & _). split; assumption.
Qed.

Lemma spec_cleanup_kept d e :
  spec false d (post_admin_cleanup e)
    (fun _ d' => accounts_kept d d') (fun _ _ => False).
Proof.
  unfold post_admin_cleanup.
  apply (spec_handler_keeps _ _ (accounts_kept d)).
  apply spec_bind. apply spec_await; [discriminate |].
  unfold storage.cleanupExpiredReservations.
  apply spec_bind. apply spec_await; [discriminate |].
  unfold storage.cancelExpiredPendingOrders.
  apply spec_bind. autounfold with storage_ops. apply spec_command; [discriminate |].
  apply spec_ret.
  match goal with
  | |- accounts_kept _ (set_adminLogs (fold_left storage.cancel_one ?l ?d0) _) =>
      destruct (storage_cancel_loop_money l d0) as [Hu Hw]
  end.
  apply accounts_kept_same; unfold set_adminLogs; cbn [users walletTransactions];
    [rewrite Hu | rewrite Hw]; reflexivity.
Qed.

Lemma spec_confirm_kept d e orderId :
  spec false d (post_admin_orders_confirm e orderId)
    (fun _ d' => accounts_kept d d') (fun _ _ => False).
Proof.
  destruct d as [us ps its os ws rs cs pes ls].
  unfold post_admin_orders_confirm, holdSellerEarning.
  apply (spec_handler_keeps _ _ (accounts_kept (mkDB us ps its os ws rs cs pes ls))).
  apply spec_bind. autounfold with storage_ops. apply spec_query; [discriminate |].
  destruct (match find _ _ with Some _ => _ | None => _ end) as [det |];
    [| apply spec_ret; apply accounts_kept_refl].
  set (d := mkDB us ps its os ws rs cs pes ls).
  assert (Htail : forall ps' its' os',
    spec false (mkDB us ps' its' os' ws rs cs pes ls)
      (bind (bind (await (storage.createPendingEarning e (Order.sellerId (storage.order det))
                            (Order.id (storage.order det))
                            (sellerAmount (Order.price (storage.order det))) pending
                            (releaseDate (now e))))
                  (fun _ => await (storage.createAdminLog "platform_commission"
                     (MetaCommission (Order.id (storage.order det))
                        (Order.price (storage.order det))
                        (commissionAmount (Order.price (storage.order det)))
                        (sellerAmount (Order.price (storage.order det)))))))
         (fun _ =>
            bind (await (storage.createAdminLog "order_confirmed" (MetaOrder orderId)))
              (fun _ => bind (sendNotification (Order.buyerId (storage.order det)))
                 (fun _ => bind (sendNotification (Order.sellerId (storage.order det)))
                    (fun _ => bind (payReferralCommission (Order.buyerId (storage.order det))
                                      (Order.price (storage.order det)) (storage.order det))
                       (fun _ => ret (Res 200 OrderConfirmed)))))))
      (fun _ d' => accounts_kept d d') (fun _ d' => accounts_kept d d')).
  { intros ps' its' os'.
    apply spec_bind. apply spec_bind. apply spec_await; [discriminate |].
    unfold storage.createPendingEarning. simpl.
    destruct (existsb _ pes); [apply accounts_kept_same; reflexivity |].
    autounfold with storage_ops. apply spec_command; [discriminate |].
    apply spec_bind. apply spec_command; [discriminate |].
    apply spec_bind. apply spec_ret. apply spec_bind. apply spec_ret.
    apply spec_bind.
    eapply spec_weaken; [apply spec_payReferralCommission | | intros ex d' F; destruct F].
    intros u1 d' Href. apply spec_ret.
    eapply accounts_kept_trans; [| eapply referral_paid_kept; exact Href].
    apply accounts_kept_same; reflexivity. }
  apply spec_bind. apply spec_command; [discriminate |].
  apply spec_bind.
  destruct (Order.productItemId (storage.order det)) as [itemId |].
  - destruct (storage.productItem det) as [item |].
    + apply spec_bind. apply spec_command; [discriminate |].
      apply spec_command; [discriminate |]. apply spec_bind.
      destruct (Product.category (storage.product det));
        [apply spec_updateProductStock;
           [discriminate | intros _; apply Htail
           | intros _; apply accounts_kept_same; reflexivity]
        | apply spec_ret; apply Htail].
    + apply spec_ret. apply spec_bind.
      destruct (Product.category (storage.product det));
        [apply spec_updateProductStock;
           [discriminate | intros _; apply Htail
           | intros _; apply accounts_kept_same; reflexivity]
        | apply spec_ret; apply Htail].
  - apply spec_ret. apply spec_bind.
    destruct (Product.category (storage.product det));
      [apply spec_updateProductStock;
         [discriminate | intros _; apply Htail
         | intros _; apply accounts_kept_same; reflexivity]
      | apply spec_ret; apply Htail].
Qed.

Lemma spec_release_kept d e i note :
  spec false d (post_admin_pending_earnings_release e i note)
    (fun _ d' => accounts_kept d d') (fun _ _ => False).
Proof.
  eapply spec_weaken; [apply spec_release_endpoint | | intros ex d' F; exact F].
  intros r d' H.
  destruct (find _ (pendingEarnings d)) as [earning |];
    [| destruct H as [_ ->]; apply accounts_kept_refl].
  destruct (pending_earning_status_eqb (PendingEarning.status earning) pending);
    [| destruct H as [_ ->]; apply accounts_kept_refl].
  destruct H as [_ ->].
  eapply accounts_kept_trans;
    [apply accounts_kept_release; apply accounts_kept_refl |].
  apply accounts_kept_same; reflexivity.
Qed.

Lemma spec_job_kept d e :
  spec false d (releasePendingEarnings e)
    (fun _ d' => accounts_kept d d') (fun _ _ => False).
Proof.
  eapply spec_weaken; [apply spec_releasePendingEarnings | | intros ex d' F; exact F].
  intros u d' ->. apply accounts_kept_release_fold. apply accounts_kept_refl.
Qed.

(** * Payment confirmation by the buyer *)

Lemma serve_lift {A} (m : M A) s :
  serve (R.lift m) s = (fst (run m (core s)), set_core s (snd (run m (core s)))).
Proof.
  unfold serve, R.lift, run. simpl.
  destruct (m (mkWorld (core s) None)) as [r w]. reflexivity.
Qed.

Lemma set_core_same s : set_core s (core s) = s.
Proof. destruct s. reflexivity. Qed.

Ltac serve_step :=
  unfold serve, route, R.try_catch, R.bind, R.await, R.on_core, R.lift, R.ret, R.query,
    R.command, query, command, sendNotification, ret, set_core; cbn.

Ltac serve_in H :=
  unfold serve, route, R.try_catch, R.bind, R.await, R.on_core, R.lift, R.ret, R.query,
    R.command, query, command, sendNotification, ret, set_core in H; cbn in H.

Lemma update_where_id {A} (p : A -> bool) l :
  map (fun r => if p r then r else r) l = l.
Proof.
  rewrite <- (map_id l) at 2. apply map_ext.
  intros r. destruct (p r); reflexivity.
Qed.

Lemma find_update_where_any {A} (key : A -> ident) (i : ident) (p : A -> bool) (f : A -> A) l :
  (forall r, key (f r) = key r) ->
  find (fun r => (key r =? i)%string) (update_where p f l)
  = option_map (fun r => if p r then f r else r) (find (fun r => (key r =? i)%string) l).
Proof.
  intros Hk. induction l as [| a l IH]; simpl; auto.
  destruct (p a) eqn:Hp; [rewrite Hk |];
    (destruct (key a =? i)%string; simpl; [rewrite Hp; reflexivity | exact IH]).
Qed.

(** The expiry sweep leaves alone an order whose rows all await
    confirmation. *)
Lemma sweep_keeps_confirmed t d orderId :
  (forall o, In o (orders d) -> Order.id o = orderId ->
             Order.status o = pending_confirmation) ->
  order_status_of d orderId = Some pending_confirmation ->
  order_status_of (snd (storage.cancelExpiredPendingOrders t d)) orderId
  = Some pending_confirmation.
Proof.
  intros Hall Hst. unfold storage.cancelExpiredPendingOrders. simpl snd.
  destruct (cancel_loop (filter (storage.is_expired_order t) (orders d)) d) as (Ho & _).
  unfold order_status_of in *. rewrite Ho.
  rewrite (find_update_where_any Order.id) by (intros; reflexivity).
  destruct (find (fun o => (Order.id o =? orderId)%string) (orders d)) as [o |] eqn:Hf;
    [| discriminate Hst].
  simpl in Hst. simpl.
  destruct (existsb _ _) eqn:Hex; [| exact Hst].
  apply existsb_exists in Hex. destruct Hex as (x & Hx & Hid).
  apply filter_In in Hx. destruct Hx as [Hin Hexp].
  apply String.eqb_eq in Hid.
  apply find_some in Hf. destruct Hf as [_ Hk]. apply String.eqb_eq in Hk.
  assert (Hs : Order.status x = pending_confirmation)
    by (apply Hall; [exact Hin | congruence]).
  unfold storage.is_expired_order in Hexp. rewrite Hs in Hexp. discriminate Hexp.
Qed.

Lemma cleanup_run_orders e d :
  orders (snd (run (post_admin_cleanup e) d))
  = orders (snd (storage.cancelExpiredPendingOrders (now e)
                   (snd (storage.cleanupExpiredReservations (now e) d)))).
Proof. reflexivity. Qed.

(** X1.  POST /api/orders/:id/confirm-payment answers 200 only for the
    caller's own order in state pending_payment and moves it to
    pending_confirmation; from then on neither the expiry sweep
    [cancelExpiredPendingOrders], at any time, nor the admin cleanup cancels
    it.  Any other answer leaves the shop as it was. *)
Theorem X1_confirmed_payment_survives_sweep
    (s : Shop) (e : SiteEnv) (userId orderId : ident) (r : answer) (s' : Shop) :
  serve (post_api_orders_confirm_payment e userId orderId) s = (inr r, s') ->
  (code r = 200 ->
     (exists o, fst (DatabaseStorage.getOrder orderId (core s)) = inr (Some o)
                /\ Order.buyerId o = userId /\ Order.status o = pending_payment)
     /\ order_status_of (core s') orderId = Some pending_confirmation
     /\ (forall t, order_status_of (snd (storage.cancelExpiredPendingOrders t (core s'))) orderId
                   = Some pending_confirmation)
     /\ (forall e', order_status_of (snd (run (post_admin_cleanup e') (core s'))) orderId
                    = Some pending_confirmation))
  /\ (code r <> 200 -> s' = s).
Proof.
  destruct s as [d sl ws ds al]. intros Hrun.
  unfold post_api_orders_confirm_payment, DatabaseStorage.getOrder,
    DatabaseStorage.updateOrderPaymentConfirmation, storage.updateOrderStatus in Hrun.
  serve_in Hrun. cbn [core fst DatabaseStorage.getOrder query].
  destruct (find (fun o => (Order.id o =? orderId)%string) (orders d)) as [o |] eqn:Ho;
    cbn in Hrun; [| injection Hrun as <- <-; split; [discriminate | reflexivity]].
  destruct (Order.buyerId o =? userId)%string eqn:Hb; cbn in Hrun;
    [| injection Hrun as <- <-; split; [discriminate | reflexivity]].
  destruct (order_status_eqb (Order.status o) pending_payment) eqn:Hs; cbn in Hrun;
    [| injection Hrun as <- <-; split; [discriminate | reflexivity]].
  rewrite (update_where_id (fun o => (Order.id o =? orderId)%string)) in Hrun.
  injection Hrun as <- <-. split; [intros _ | intros F; exfalso; apply F; reflexivity].
  apply String.eqb_eq in Hb.
  assert (Hst : Order.status o = pending_payment)
    by (destruct (Order.status o); try discriminate Hs; reflexivity).
  split; [exists o; split; [reflexivity | split; assumption] |].
  cbn [core].
  set (d1 := set_orders _ _).
  assert (Hall : forall x, In x (orders d1) -> Order.id x = orderId ->
                           Order.status x = pending_confirmation).
  { intros x Hx Hid. subst d1. simpl in Hx. unfold update_where in Hx.
    apply in_map_iff in Hx. destruct Hx as (y & <- & _).
    destruct (Order.id y =? orderId)%string eqn:Hy; [reflexivity |].
    apply String.eqb_neq in Hy. contradiction. }
  assert (H1 : order_status_of d1 orderId = Some pending_confirmation).
  { subst d1. unfold order_status_of. simpl orders.
    rewrite (find_update_where_key Order.id) by (intros; reflexivity).
    rewrite Ho. reflexivity. }
  split; [exact H1 |]. split.
  - intros t. apply sweep_keeps_confirmed; assumption.
  - intros e'. unfold order_status_of. rewrite cleanup_run_orders.
    apply (sweep_keeps_confirmed (now e')
             (snd (storage.cleanupExpiredReservations (now e') d1)) orderId);
      [exact Hall | exact H1].
Qed.

Lemma X1_confirmed_payment_survives_sweep_witness :
  order_status_of
    (core (snd (serve (post_api_orders_confirm_payment sampleSiteEnv "buyer" "o1")
                      (shopOf sweepDB))))
    "o1"
  = Some pending_confirmation
  /\ order_status_of
       (snd (storage.cancelExpiredPendingOrders 1860001
          (core (snd (serve (post_api_orders_confirm_payment sampleSiteEnv "buyer" "o1")
                            (shopOf sweepDB))))))
       "o1"
     = Some pending_confirmation.
Proof.
  remember (serve (post_api_orders_confirm_payment sampleSiteEnv "buyer" "o1")
                  (shopOf sweepDB)) as out eqn:E in |- *.
  destruct out as [res s']. symmetry in E.
  assert (Hr : exists r, res = inr r /\ code r = 200).
  { vm_compute in E. injection E as <- _. eexists. split; reflexivity. }
  destruct Hr as (r & -> & Hc).
  destruct (X1_confirmed_payment_survives_sweep (shopOf sweepDB) sampleSiteEnv "buyer" "o1"
              r s' E) as [Hok _].
  destruct (Hok Hc) as (_ & Hst & Hsweep & _).
  simpl snd. split; [exact Hst | apply Hsweep].
Defined.

(** * Cancelled earnings *)

Lemma earning_status_fold_other t note why j ids : forall d,
  ~ In j ids ->
  earning_status (fold_left (release_effect t note why) ids d) j = earning_status d j.
Proof.
  induction ids as [| i ids IH]; intros d Hn; simpl; [reflexivity |].
  rewrite IH by (intros Hin; apply Hn; simpl; auto).
  rewrite earning_status_step.
  destruct (String.eqb_spec j i) as [-> | _]; [| reflexivity].
  exfalso. apply Hn. simpl; auto.
Qed.

(** An attempt on an earning that is no longer pending credits nothing for
    it and leaves its status. *)
Lemma attempt_on_settled d e pe a st :
  earning_known d pe ->
  earning_status d (PendingEarning.id pe) = Some st ->
  st <> pending ->
  let d2 := snd (run (attempt e (PendingEarning.id pe) a) d) in
  earning_known d2 pe
  /\ earning_status d2 (PendingEarning.id pe) = Some st
  /\ release_credits d2 pe = release_credits d pe
  /\ (forall note, a = ViaEndpoint note -> d2 = d).
Proof.
  intros Hk Hs Hne.
  destruct (earning_known_row d pe Hk) as (r & Hf & Hr & Hcore).
  assert (Hrs : PendingEarning.status r = st).
  { unfold earning_status in Hs. rewrite Hf in Hs. simpl in Hs. congruence. }
  assert (Hnp : pending_earning_status_eqb (PendingEarning.status r) pending = false).
  { rewrite Hrs. destruct st; try reflexivity. contradiction. }
  destruct a as [note |]; simpl attempt.
  - pose proof (spec_run _ _ _ _
      (spec_release_endpoint d e (PendingEarning.id pe) note)) as H.
    unfold run in *. unfold bind, ret.
    destruct (post_admin_pending_earnings_release e (PendingEarning.id pe) note
                (mkWorld d None)) as [[ex | r0] w]; [destruct H |].
    rewrite Hf, Hnp in H. destruct H as [_ H]. simpl. rewrite H.
    split; [exact Hk |]. split; [exact Hs |]. split; reflexivity.
  - pose proof (spec_run _ _ _ _ (spec_releasePendingEarnings d e)) as H.
    unfold run in *.
    destruct (releasePendingEarnings e (mkWorld d None)) as [[ex | r0] w]; [destruct H |].
    simpl. rewrite H.
    assert (Hskip : ~ In (PendingEarning.id pe)
                         (map PendingEarning.id (releasable (now e) d))).
    { intros Hin. apply in_map_iff in Hin. destruct Hin as [x [Hid Hx]].
      apply releasable_spec in Hx. destruct Hx as [Hx Hrel].
      assert (x = r).
      { destruct Hk as (Hnd & _). eapply (NoDup_key_inj PendingEarning.id); eauto.
        unfold earning_core in Hcore. injection Hcore as Hi _ _ _. congruence. }
      subst x. unfold storage.is_releasable in Hrel. rewrite Hnp in Hrel.
      discriminate. }
    split; [apply earning_known_fold; exact Hk |].
    split; [rewrite earning_status_fold_other; assumption |].
    split; [apply release_credits_fold_other; assumption |].
    intros note Hc. discriminate Hc.
Qed.

Lemma attempts_on_settled pe st later : forall d,
  earning_known d pe ->
  earning_status d (PendingEarning.id pe) = Some st ->
  st <> pending ->
  earning_status (attempts_on (PendingEarning.id pe) later d) (PendingEarning.id pe) = Some st
  /\ release_credits (attempts_on (PendingEarning.id pe) later d) pe = release_credits d pe
  /\ ((forall ea, In ea later -> exists n, snd ea = ViaEndpoint n) ->
      attempts_on (PendingEarning.id pe) later d = d).
Proof.
  induction later as [| [e a] later IH]; intros d Hk Hs Hne; simpl; [repeat split; auto |].
  destruct (attempt_on_settled d e pe a st Hk Hs Hne) as (Hk1 & Hs1 & Hc1 & Hsame).
  destruct (IH _ Hk1 Hs1 Hne) as (Hs2 & Hc2 & Hall2).
  unfold attempts_on in *. simpl. split; [exact Hs2 |]. split; [congruence |].
  intros Hall. rewrite Hall2 by (intros ea Hin; apply Hall; simpl; auto).
  destruct (Hall (e, a) (or_introl eq_refl)) as [n Hn]. simpl in Hn.
  apply (Hsame n Hn).
Qed.

Lemma set_earning_status_core s t note p :
  earning_core (storage.set_earning_status s t note p) = earning_core p.
Proof. reflexivity. Qed.

(** X2.  Cancelling a pending earning (the only earning of its order)
    answers 200 with the cancelled row and moves no money; after it the
    earning stays cancelled and is never credited, whatever release attempts
    follow, by the endpoint or by the job; attempts by the endpoint alone
    change nothing at all. *)
Theorem X2_cancelled_earning_is_never_paid
    (s : Shop) (e : SiteEnv) (pe : PendingEarning.t) (note : option string) (b : money)
    (later : list (Env * release_attempt)) :
  NoDup (map PendingEarning.id (pendingEarnings (core s))) ->
  In pe (pendingEarnings (core s)) ->
  PendingEarning.status pe = pending ->
  (forall r, In r (pendingEarnings (core s)) ->
             PendingEarning.orderId r = PendingEarning.orderId pe -> r = pe) ->
  balanceOf (core s) (PendingEarning.sellerId pe) = Some b ->
  let out := serve (post_admin_pending_earnings_cancel e (PendingEarning.id pe) note) s in
  let d2 := attempts_on (PendingEarning.id pe) later (core (snd out)) in
  fst out
  = inr (Answer 200
           (EarningCancelled
              (storage.set_earning_status earning_cancelled (now (base e)) note pe)))
  /\ users (core (snd out)) = users (core s)
  /\ walletTransactions (core (snd out)) = walletTransactions (core s)
  /\ earning_status (core (snd out)) (PendingEarning.id pe) = Some earning_cancelled
  /\ earning_status d2 (PendingEarning.id pe) = Some earning_cancelled
  /\ release_credits d2 pe = release_credits (core s) pe
  /\ ((forall ea, In ea later -> exists n, snd ea = ViaEndpoint n) ->
      d2 = core (snd out)).
Proof.
  intros Hnd Hin Hst Hone Hb out d2.
  assert (Hk : earning_known (core s) pe).
  { split; [exact Hnd |]. split; [exists pe; auto |]. split.
    - intros r Hr Ho. rewrite (Hone r Hr Ho). reflexivity.
    - unfold balanceOf in Hb.
      destruct (find (fun u => (User.id u =? PendingEarning.sellerId pe)%string)
                     (users (core s))) as [u |] eqn:Hu; [| discriminate].
      eapply find_some_existsb; eassumption. }
  destruct (earning_known_row _ pe Hk) as (r & Hf & Hr & Hcore).
  assert (r = pe).
  { eapply (NoDup_key_inj PendingEarning.id); eauto.
    unfold earning_core in Hcore. injection Hcore as Hi _ _ _. exact Hi. }
  subst r.
  assert (Hout : out
    = (inr (Answer 200
              (EarningCancelled
                 (storage.set_earning_status earning_cancelled (now (base e)) note pe))),
       set_auditTrail
         (set_core s
            (set_pendingEarnings (core s)
               (update_where
                  (fun p => (PendingEarning.id p =? PendingEarning.id pe)%string)
                  (storage.set_earning_status earning_cancelled (now (base e)) note)
                  (pendingEarnings (core s)))))
         (auditTrail s
          ++ [Audit.mk "pending_earning_cancelled"
                (MetaEarningCancelled (PendingEarning.id pe) (PendingEarning.amount pe)
                   note)]))).
  { subst out. destruct s as [d sl ws ds al]. simpl core in *.
    unfold post_admin_pending_earnings_cancel, storage.getPendingEarningById,
      storage.cancelPendingEarning, DatabaseStorage.createAdminLog, returned_row.
    serve_step. rewrite Hf. cbn. rewrite Hst. cbn. rewrite Hf. cbn. reflexivity. }
  subst d2. rewrite Hout. cbn [fst snd]. split; [reflexivity |].
  set (d1 := core _).
  assert (Hd1 : d1 = set_pendingEarnings (core s)
               (update_where
                  (fun p => (PendingEarning.id p =? PendingEarning.id pe)%string)
                  (storage.set_earning_status earning_cancelled (now (base e)) note)
                  (pendingEarnings (core s)))) by reflexivity.
  assert (Hs1 : earning_status d1 (PendingEarning.id pe) = Some earning_cancelled).
  { rewrite Hd1. unfold earning_status. simpl pendingEarnings.
    rewrite (find_update_where_key PendingEarning.id) by (intros; reflexivity).
    rewrite Hf. reflexivity. }
  assert (Hk1 : earning_known d1 pe).
  { apply (earning_known_transfer (core s)); [| | exact Hk]; rewrite Hd1; simpl.
    - unfold update_where. rewrite map_map. apply map_ext. intros a.
      destruct (PendingEarning.id a =? PendingEarning.id pe)%string; reflexivity.
    - reflexivity. }
  assert (Hc1 : release_credits d1 pe = release_credits (core s) pe)
    by (rewrite Hd1; reflexivity).
  destruct (attempts_on_settled pe earning_cancelled later d1 Hk1 Hs1 ltac:(discriminate))
    as (Hs2 & Hc2 & Hall2).
  split; [rewrite Hd1; reflexivity |]. split; [rewrite Hd1; reflexivity |].
  split; [exact Hs1 |]. split; [exact Hs2 |]. split; [congruence | exact Hall2].
Qed.

Lemma X2_cancelled_earning_is_never_paid_witness :
  earning_status
    (attempts_on "pe1" [(sampleEnv, ViaJob); (sampleEnv, ViaEndpoint None)]
       (core (snd (serve (post_admin_pending_earnings_cancel sampleSiteEnv "pe1" None)
                         (shopOf earningDB)))))
    "pe1"
  = Some earning_cancelled
  /\ release_credits
       (attempts_on "pe1" [(sampleEnv, ViaJob); (sampleEnv, ViaEndpoint None)]
          (core (snd (serve (post_admin_pending_earnings_cancel sampleSiteEnv "pe1" None)
                            (shopOf earningDB)))))
       dueEarning
     = 0%nat.
Proof.
  assert (Hnd : NoDup (map PendingEarning.id (pendingEarnings (core (shopOf earningDB))))).
  { simpl. constructor; [intros [] | constructor]. }
  assert (Hin : In dueEarning (pendingEarnings (core (shopOf earningDB))))
    by (left; reflexivity).
  assert (Hone : forall r, In r (pendingEarnings (core (shopOf earningDB))) ->
             PendingEarning.orderId r = PendingEarning.orderId dueEarning ->
             r = dueEarning).
  { intros r [<- | []] _. reflexivity. }
  destruct (X2_cancelled_earning_is_never_paid (shopOf earningDB) sampleSiteEnv dueEarning None 0
              [(sampleEnv, ViaJob); (sampleEnv, ViaEndpoint None)]
              Hnd Hin eq_refl Hone eq_refl)
    as (_ & _ & _ & _ & Hst & Hcr & _).
  change (PendingEarning.id dueEarning) with "pe1" in Hst, Hcr.
  split; [exact Hst | rewrite Hcr; reflexivity].
Defined.

(** * Withdrawals *)

(** X3.  POST /api/seller/withdrawals never touches a balance, a seller
    profile or a deposit.  It answers 201 only when the caller's balance
    covers the amount and the caller's seller profile has an approved
    identity check, and then appends exactly one pending withdrawal; any
    other answer leaves the shop as it was. *)
Theorem X3_withdrawal_request_checks
    (s : Shop) (e : SiteEnv) (userId : ident) (amount : money)
    (bankInfo : Withdrawal.bank_info) (r : answer) (s' : Shop) :
  serve (post_seller_withdrawals e userId amount bankInfo) s = (inr r, s') ->
  core s' = core s /\ sellers s' = sellers s /\ deposits s' = deposits s
  /\ (code r = 201 ->
        (exists b, balanceOf (core s) userId = Some b /\ amount <= b)
        /\ (exists sl, fst (DatabaseStorage.getSeller userId s) = inr (Some sl)
                       /\ Seller.kycStatus sl = Seller.kyc_approved)
        /\ json r = WithdrawalJson
                      (Withdrawal.mk (newWithdrawalId e) userId amount bankInfo
                                     Withdrawal.pending None)
        /\ withdrawals s'
           = withdrawals s
             ++ [Withdrawal.mk (newWithdrawalId e) userId amount bankInfo
                               Withdrawal.pending None])
  /\ (code r <> 201 -> s' = s).
Proof.
  destruct s as [d sl ws ds al]. intros Hrun.
  unfold post_seller_withdrawals, storage.getUser, DatabaseStorage.getSeller,
    DatabaseStorage.createWithdrawal in Hrun.
  serve_in Hrun. unfold balanceOf, DatabaseStorage.getSeller, R.query. cbn [core sellers fst].
  destruct (find (fun u => (User.id u =? userId)%string) (users d)) as [u |] eqn:Hu;
    cbn in Hrun;
    [| injection Hrun as <- <-; repeat split; discriminate].
  destruct (User.walletBalance u <? amount) eqn:Hbal; cbn in Hrun;
    [injection Hrun as <- <-; repeat split; discriminate |].
  destruct (find (fun x => (Seller.id x =? userId)%string) sl) as [x |] eqn:Hx;
    cbn in Hrun;
    [| injection Hrun as <- <-; repeat split; discriminate].
  destruct (Seller.kycStatus x) eqn:Hkyc; cbn in Hrun;
    try (injection Hrun as <- <-; repeat split; discriminate).
  destruct (existsb _ ws); cbn in Hrun;
    injection Hrun as <- <-; [repeat split; discriminate |].
  split; [reflexivity |]. split; [reflexivity |]. split; [reflexivity |].
  split; [intros _ | intros F; exfalso; apply F; reflexivity].
  split; [exists (User.walletBalance u); split; [reflexivity | apply Z.ltb_ge; exact Hbal] |].
  split; [exists x; split; [reflexivity | exact Hkyc] |].
  split; reflexivity.
Qed.

Lemma X3_withdrawal_request_checks_witness :
  withdrawals
    (snd (serve (post_seller_withdrawals sampleSiteEnv "seller" 30000 sampleBank) payoutShop))
  = withdrawals payoutShop
    ++ [Withdrawal.mk "w-new" "seller" 30000 sampleBank Withdrawal.pending None]
  /\ core (snd (serve (post_seller_withdrawals sampleSiteEnv "seller" 30000 sampleBank)
                      payoutShop))
     = core payoutShop.
Proof.
  remember (serve (post_seller_withdrawals sampleSiteEnv "seller" 30000 sampleBank)
                  payoutShop) as out eqn:E in |- *.
  destruct out as [res s']. symmetry in E.
  assert (Hr : exists r, res = inr r /\ code r = 201).
  { vm_compute in E. injection E as <- _. eexists. split; reflexivity. }
  destruct Hr as (r & -> & Hc).
  destruct (X3_withdrawal_request_checks payoutShop sampleSiteEnv "seller" 30000 sampleBank
              r s' E) as (Hcore & _ & _ & Hok & _).
  destruct (Hok Hc) as (_ & _ & _ & Hw).
  simpl snd. split; [exact Hw | exact Hcore].
Defined.

Lemma find_and {A} (p q : A -> bool) l a :
  find p l = Some a -> q a = true -> find (fun x => p x && q x) l = Some a.
Proof.
  induction l as [| x l IH]; simpl; [discriminate |].
  destruct (p x) eqn:Hp; simpl.
  - intros H Hq. injection H as ->. rewrite Hq. reflexivity.
  - intros H Hq. apply IH; assumption.
Qed.

(** X4.  Completing an approved withdrawal of an existing account answers
    200, takes the amount off the seller's balance, appends the matching
    debit to the ledger and marks the withdrawal completed; a second
    completion right after it answers 400 and changes nothing. *)
Theorem X4_withdrawal_is_debited_once
    (s : Shop) (e e' : SiteEnv) (id : ident) (w : Withdrawal.t) (b : money) :
  fst (DatabaseStorage.getWithdrawal id s) = inr (Some w) ->
  Withdrawal.status w = Withdrawal.approved ->
  balanceOf (core s) (Withdrawal.sellerId w) = Some b ->
  let out1 := serve (post_admin_withdrawals_complete e id) s in
  let out2 := serve (post_admin_withdrawals_complete e' id) (snd out1) in
  fst out1 = inr (Answer 200 WithdrawalCompleted)
  /\ balanceOf (core (snd out1)) (Withdrawal.sellerId w) = Some (b - Withdrawal.amount w)
  /\ walletTransactions (core (snd out1))
     = walletTransactions (core s) ++ [withdrawalDebit w]
  /\ withdrawal_status_of (snd out1) id = Some Withdrawal.completed
  /\ fst out2 = inr (Answer 400 WithdrawalNotApproved)
  /\ snd out2 = snd out1.
Proof.
  destruct s as [d sl ws ds al].
  intros Hw Hst Hb out1 out2.
  unfold DatabaseStorage.getWithdrawal, R.query in Hw. cbn [fst core withdrawals] in Hw.
  unfold balanceOf in Hb. cbn [core] in Hb. injection Hw as Hw.
  destruct (find (fun u => (User.id u =? Withdrawal.sellerId w)%string) (users d))
    as [u |] eqn:Hu; [| discriminate Hb].
  simpl in Hb. injection Hb as Hb.
  assert (Hex : existsb (fun u => (User.id u =? Withdrawal.sellerId w)%string) (users d)
                = true) by (eapply find_some_existsb; exact Hu).
  pose proof (find_and _ (fun w => existsb (fun u => (User.id u =? Withdrawal.sellerId w)%string)
                                           (users d)) _ _ Hw Hex) as Hjoin.
  assert (Hout1 : out1
    = (inr (Answer 200 WithdrawalCompleted),
       mkShop
         (set_walletTransactions
            (set_users d
               (update_where (fun x => (User.id x =? Withdrawal.sellerId w)%string)
                  (fun x => User.mk (User.id x) (User.walletBalance u - Withdrawal.amount w))
                  (users d)))
            (walletTransactions d ++ [withdrawalDebit w]))
         sl
         (update_where (fun x => (Withdrawal.id x =? id)%string)
            (fun x => Withdrawal.mk (Withdrawal.id x) (Withdrawal.sellerId x)
                        (Withdrawal.amount x) (Withdrawal.bankInfo x) Withdrawal.completed
                        (Some (now (base e))))
            ws)
         ds
         (al ++ [Audit.mk "withdrawal_completed" (MetaWithdrawal id)]))).
  { subst out1.
    unfold post_admin_withdrawals_complete, DatabaseStorage.getWithdrawalWithSeller,
      storage.getUser, storage.updateUserBalance, storage.createWalletTransaction,
      DatabaseStorage.updateWithdrawalStatus, DatabaseStorage.createAdminLog.
    serve_step. rewrite Hjoin. cbn. rewrite Hu. cbn. rewrite Hst. cbn. rewrite Hu. cbn.
    reflexivity. }
  subst out2. rewrite Hout1. cbn [fst snd core].
  split; [reflexivity |]. split.
  { unfold balanceOf. simpl users.
    rewrite (find_update_where_key User.id) by (intros; reflexivity).
    rewrite Hu. simpl. rewrite Hb. reflexivity. }
  split; [reflexivity |].
  assert (Hfind2 : find (fun x => (Withdrawal.id x =? id)%string)
                     (update_where (fun x => (Withdrawal.id x =? id)%string)
                        (fun x => Withdrawal.mk (Withdrawal.id x) (Withdrawal.sellerId x)
                                    (Withdrawal.amount x) (Withdrawal.bankInfo x)
                                    Withdrawal.completed (Some (now (base e))))
                        ws)
                   = Some (Withdrawal.mk (Withdrawal.id w) (Withdrawal.sellerId w)
                             (Withdrawal.amount w) (Withdrawal.bankInfo w)
                             Withdrawal.completed (Some (now (base e))))).
  { rewrite (find_update_where_key Withdrawal.id) by (intros; reflexivity).
    rewrite Hw. reflexivity. }
  split; [unfold withdrawal_status_of; cbn [withdrawals]; rewrite Hfind2; reflexivity |].
  unfold post_admin_withdrawals_complete, DatabaseStorage.getWithdrawalWithSeller.
  serve_step.
  erewrite find_and; [| exact Hfind2 |].
  - cbn. rewrite (find_update_where_key User.id) by (intros; reflexivity).
    rewrite Hu. cbn. split; reflexivity.
  - cbn. rewrite (existsb_update_where_key User.id) by (intros; reflexivity). exact Hex.
Qed.

Lemma X4_withdrawal_is_debited_once_witness :
  balanceOf
    (core (snd (serve (post_admin_withdrawals_complete sampleSiteEnv "w1")
             (snd (serve (post_admin_withdrawals_complete sampleSiteEnv "w1") payoutShop)))))
    "seller"
  = Some 30000.
Proof.
  destruct (X4_withdrawal_is_debited_once payoutShop sampleSiteEnv sampleSiteEnv "w1"
              (Withdrawal.mk "w1" "seller" 20000 sampleBank Withdrawal.approved None) 50000
              eq_refl eq_refl eq_refl)
    as (_ & Hb & _ & _ & _ & Hsame).
  rewrite Hsame. exact Hb.
Defined.

(** * Deposits *)

(** X5.  POST /api/deposits, behind [isAuthenticated], never touches a
    balance or a withdrawal.  It answers 200 only for a session of an
    existing user, an amount of at least 10000.00 and a transaction code
    that is not empty, and then appends exactly one pending deposit; any
    other answer leaves the shop as it was. *)
Theorem X5_deposit_request_checks
    (s : Shop) (e : SiteEnv) (session : option ident) (amount : money)
    (transactionCode : option string) (r : answer) (s' : Shop) :
  serve (deposits_route e session amount transactionCode) s = (inr r, s') ->
  core s' = core s /\ withdrawals s' = withdrawals s
  /\ (code r = 200 ->
        exists userId c b,
          storage.or_null session = Some userId
          /\ balanceOf (core s) userId = Some b
          /\ minimumDeposit <= amount
          /\ storage.or_null transactionCode = Some c
          /\ json r = DepositJson
                        (Deposit.mk (newDepositId e) userId amount c Deposit.pending None None)
          /\ deposits s'
             = deposits s
               ++ [Deposit.mk (newDepositId e) userId amount c Deposit.pending None None])
  /\ (code r <> 200 -> s' = s).
Proof.
  destruct s as [d sl ws ds al]. intros Hrun.
  unfold deposits_route, isAuthenticated, post_api_deposits, storage.getUser,
    DatabaseStorage.createDeposit in Hrun.
  unfold balanceOf. cbn [core withdrawals deposits].
  remember ((amount =? 0) || (amount <? minimumDeposit)) as small eqn:Hmin in Hrun.
  symmetry in Hmin.
  destruct (storage.or_null session) as [userId |] eqn:Hsess;
    [| serve_in Hrun; injection Hrun as <- <-; repeat split; discriminate].
  serve_in Hrun.
  destruct (find (fun u => (User.id u =? userId)%string) (users d)) as [u |] eqn:Hu;
    cbn in Hrun;
    [| injection Hrun as <- <-; repeat split; discriminate].
  assert (Hid : User.id u = userId)
    by (apply find_some in Hu; destruct Hu as [_ Hk]; apply String.eqb_eq; exact Hk).
  rewrite Hid in Hrun.
  destruct small; cbn in Hrun;
    [injection Hrun as <- <-; repeat split; discriminate |].
  destruct (storage.or_null transactionCode) as [c |] eqn:Hcode; cbn in Hrun;
    [| injection Hrun as <- <-; repeat split; discriminate].
  destruct (existsb _ ds); cbn in Hrun;
    injection Hrun as <- <-; [repeat split; discriminate |].
  split; [reflexivity |]. split; [reflexivity |].
  split; [intros _ | intros F; exfalso; apply F; reflexivity].
  exists userId, c, (User.walletBalance u).
  apply orb_false_iff in Hmin. destruct Hmin as [_ Hmin]. apply Z.ltb_ge in Hmin.
  rewrite Hu. repeat split. exact Hmin.
Qed.

Lemma X5_deposit_request_checks_witness :
  deposits
    (snd (serve (deposits_route sampleSiteEnv (Some "buyer") 1000000 (Some "FT999"))
                payoutShop))
  = deposits payoutShop
    ++ [Deposit.mk "dep-new" "buyer" 1000000 "FT999" Deposit.pending None None]
  /\ snd (serve (deposits_route sampleSiteEnv (Some "buyer") 999999 (Some "FT999"))
                payoutShop)
     = payoutShop.
Proof.
  split.
  - remember (serve (deposits_route sampleSiteEnv (Some "buyer") 1000000 (Some "FT999"))
                    payoutShop) as out eqn:E in |- *.
    destruct out as [res s']. symmetry in E.
    assert (Hr : exists r, res = inr r /\ code r = 200).
    { vm_compute in E. injection E as <- _. eexists. split; reflexivity. }
    destruct Hr as (r & -> & Hc).
    destruct (X5_deposit_request_checks payoutShop sampleSiteEnv (Some "buyer") 1000000
                (Some "FT999") r s' E) as (_ & _ & Hok & _).
    destruct (Hok Hc) as (u & c & b & Hu & _ & _ & Hcode & _ & Hd).
    injection Hu as <-. injection Hcode as <-. simpl snd. exact Hd.
  - remember (serve (deposits_route sampleSiteEnv (Some "buyer") 999999 (Some "FT999"))
                    payoutShop) as out eqn:E in |- *.
    destruct out as [res s']. symmetry in E.
    assert (Hr : exists r, res = inr r /\ code r = 400).
    { vm_compute in E. injection E as <- _. eexists. split; reflexivity. }
    destruct Hr as (r & -> & Hc).
    destruct (X5_deposit_request_checks payoutShop sampleSiteEnv (Some "buyer") 999999
                (Some "FT999") r s' E) as (_ & _ & _ & Hno).
    simpl snd. apply Hno. rewrite Hc. discriminate.
Defined.

(** X6.  For a deposit of an existing account, whatever its state:
    approval answers 200, adds the amount to the account's balance, appends
    the matching credit to the ledger and marks the deposit approved;
    rejection answers 200, marks it rejected and leaves every core table as
    it was. *)
Theorem X6_deposit_approval_credits
    (s : Shop) (e : SiteEnv) (id : ident) (x : Deposit.t) (b : money) (why : option string) :
  fst (DatabaseStorage.getDeposit id s) = inr (Some x) ->
  balanceOf (core s) (Deposit.userId x) = Some b ->
  let approved := serve (post_admin_deposits_approve e id) s in
  let rejected := serve (post_admin_deposits_reject e id why) s in
  (fst approved = inr (Answer 200 DepositApproved)
   /\ balanceOf (core (snd approved)) (Deposit.userId x) = Some (b + Deposit.amount x)
   /\ walletTransactions (core (snd approved))
      = walletTransactions (core s) ++ [depositCredit x]
   /\ deposit_status_of (snd approved) id = Some Deposit.approved)
  /\ (fst rejected = inr (Answer 200 DepositRejected)
      /\ core (snd rejected) = core s
      /\ deposit_status_of (snd rejected) id = Some Deposit.rejected).
Proof.
  destruct s as [d sl ws ds al].
  intros Hx Hb approved rejected.
  unfold DatabaseStorage.getDeposit, R.query in Hx. cbn [fst core deposits] in Hx.
  unfold balanceOf in Hb. cbn [core] in Hb. injection Hx as Hx.
  destruct (find (fun u => (User.id u =? Deposit.userId x)%string) (users d))
    as [u |] eqn:Hu; [| discriminate Hb].
  simpl in Hb. injection Hb as Hb.
  assert (Hex : existsb (fun u => (User.id u =? Deposit.userId x)%string) (users d) = true)
    by (eapply find_some_existsb; exact Hu).
  pose proof (find_and _ (fun x => existsb (fun u => (User.id u =? Deposit.userId x)%string)
                                           (users d)) _ _ Hx Hex) as Hjoin.
  assert (Hst : forall st note t,
    option_map Deposit.status
      (find (fun y => (Deposit.id y =? id)%string)
         (update_where (fun y => (Deposit.id y =? id)%string)
            (fun y => Deposit.mk (Deposit.id y) (Deposit.userId y) (Deposit.amount y)
                        (Deposit.transactionCode y) st note t) ds))
    = Some st).
  { intros st note t.
    rewrite (find_update_where_key Deposit.id) by (intros; reflexivity).
    rewrite Hx. reflexivity. }
  split.
  - subst approved.
    unfold post_admin_deposits_approve, DatabaseStorage.getDepositWithUser,
      storage.updateUserBalance, storage.createWalletTransaction,
      DatabaseStorage.updateDepositStatus, DatabaseStorage.createAdminLog.
    serve_step. rewrite Hjoin. cbn. rewrite Hu. cbn.
    split; [reflexivity |]. split.
    { unfold balanceOf. simpl users.
      rewrite (find_update_where_key User.id) by (intros; reflexivity).
      rewrite Hu. simpl. rewrite Hb. reflexivity. }
    split; [reflexivity |].
    unfold deposit_status_of. cbn [deposits]. apply Hst.
  - subst rejected.
    unfold post_admin_deposits_reject, DatabaseStorage.getDepositWithUser,
      DatabaseStorage.updateDepositStatus, DatabaseStorage.createAdminLog.
    serve_step. rewrite Hjoin. cbn. rewrite Hu. cbn.
    split; [reflexivity |]. split; [reflexivity |].
    unfold deposit_status_of. cbn [deposits]. apply Hst.
Qed.

Lemma X6_deposit_approval_credits_witness :
  balanceOf (core (snd (serve (post_admin_deposits_approve sampleSiteEnv "dep1") payoutShop)))
            "buyer"
  = Some 1000000
  /\ balanceOf
       (core (snd (serve (post_admin_deposits_reject sampleSiteEnv "dep1" None) payoutShop)))
       "buyer"
     = Some 0.
Proof.
  destruct (X6_deposit_approval_credits payoutShop sampleSiteEnv "dep1"
              (Deposit.mk "dep1" "buyer" 1000000 "FT123" Deposit.pending None None) 0 None
              eq_refl eq_refl)
    as [(_ & Hb & _) (_ & Hcore & _)].
  split; [exact Hb | rewrite Hcore; reflexivity].
Defined.

(** * The ledger under any sequence of requests *)

Lemma find_by_key_NoDup {A} (key : A -> ident) (l : list A) a :
  NoDup (map key l) -> In a l -> find (fun r => (key r =? key a)%string) l = Some a.
Proof.
  intros Hnd Hin.
  destruct (find (fun r => (key r =? key a)%string) l) as [r |] eqn:Hf.
  - apply find_some in Hf. destruct Hf as [Hr Hk]. apply String.eqb_eq in Hk.
    f_equal. eapply (NoDup_key_inj key); eauto.
  - pose proof (find_none _ _ Hf a Hin) as Hc. simpl in Hc.
    rewrite String.eqb_refl in Hc. discriminate.
Qed.

Lemma ledger_consistent_kept d d' :
  accounts_kept d d' ->
  NoDup (map User.id (users d)) ->
  ledger_consistent d = true ->
  NoDup (map User.id (users d')) /\ ledger_consistent d' = true.
Proof.
  intros [Hids Hbl] Hnd Hc.
  assert (Hnd' : NoDup (map User.id (users d'))) by (rewrite Hids; exact Hnd).
  split; [exact Hnd' |].
  unfold ledger_consistent in *. apply forallb_forall. intros u' Hu'.
  pose proof (Hbl (User.id u')) as Hv. unfold balanceOf in Hv.
  rewrite (find_by_key_NoDup User.id _ u' Hnd' Hu') in Hv. simpl in Hv.
  destruct (find (fun r => (User.id r =? User.id u')%string) (users d)) as [u |] eqn:Hu;
    [| discriminate Hv].
  simpl in Hv. injection Hv as Hv.
  apply find_some in Hu. destruct Hu as [Hin Hk]. apply String.eqb_eq in Hk.
  rewrite forallb_forall in Hc. pose proof (Hc u Hin) as Hcu.
  apply Z.eqb_eq in Hcu. apply Z.eqb_eq. rewrite Hk in Hcu. lia.
Qed.

Lemma spec_answer_dropped d (m : M response) (I : DB -> Prop) :
  spec false d m (fun _ d' => I d') (fun _ _ => False) ->
  I (snd (run (m ;; ret tt) d)).
Proof.
  intros H. pose proof (spec_run _ _ _ _ H) as Hr. unfold run, bind, ret in *.
  destruct (m (mkWorld d None)) as [[ex | r] w]; [destruct Hr | exact Hr].
Qed.

Lemma serve_lift_core {A} (m : M A) s :
  core (snd (serve (R.lift m) s)) = snd (run m (core s)).
Proof. rewrite serve_lift. reflexivity. Qed.

Ltac split_run :=
  repeat match goal with
         | |- context [match ?x with _ => _ end] =>
             lazymatch x with
             | context [match _ with _ => _ end] => fail
             | _ => destruct x eqn:?; cbn
             end
         end.

Ltac unfold_storage :=
  unfold storage.getUser, storage.updateUserBalance, storage.createWalletTransaction,
    storage.updateOrderStatus, storage.getPendingEarningById, storage.cancelPendingEarning,
    DatabaseStorage.getOrder, DatabaseStorage.updateOrderPaymentConfirmation,
    DatabaseStorage.getSeller, DatabaseStorage.getWithdrawal,
    DatabaseStorage.getWithdrawalWithSeller, DatabaseStorage.createWithdrawal,
    DatabaseStorage.updateWithdrawalStatus, DatabaseStorage.createDeposit,
    DatabaseStorage.getDepositWithUser, DatabaseStorage.updateDepositStatus,
    DatabaseStorage.createAdminLog, returned_row, throw.

Lemma found_by_key {A} (key : A -> ident) i l a :
  find (fun r => (key r =? i)%string) l = Some a -> key a = i.
Proof.
  intros H. apply find_some in H. destruct H as [_ H]. apply String.eqb_eq. exact H.
Qed.

(** What a request does to the accounts and the ledger. *)
Lemma perform_keeps_accounts s e q :
  accounts_kept (core s) (core (snd (serve (perform e q) s))).
Proof.
  destruct q; simpl perform.
  - rewrite serve_lift_core. apply (spec_answer_dropped _ _ (accounts_kept (core s))).
    apply spec_orders_kept.
  - destruct s as [d sl ws ds al].
    unfold post_api_orders_confirm_payment. unfold_storage. serve_step. split_run;
      apply accounts_kept_same; reflexivity.
  - rewrite serve_lift_core. apply (spec_answer_dropped _ _ (accounts_kept (core s))).
    apply spec_confirm_kept.
  - rewrite serve_lift_core. apply (spec_answer_dropped _ _ (accounts_kept (core s))).
    apply spec_cancel_kept.
  - rewrite serve_lift_core. apply (spec_answer_dropped _ _ (accounts_kept (core s))).
    apply spec_cleanup_kept.
  - rewrite serve_lift_core. apply (spec_answer_dropped _ _ (accounts_kept (core s))).
    apply spec_release_kept.
  - destruct s as [d sl ws ds al].
    unfold post_admin_pending_earnings_cancel. unfold_storage. serve_step. split_run;
      apply accounts_kept_same; reflexivity.
  - rewrite serve_lift_core.
    pose proof (spec_run _ _ _ _ (spec_job_kept (core s) (base e))) as Hr.
    destruct (run (releasePendingEarnings (base e)) (core s)) as [[ex | r] d'];
      [destruct Hr | exact Hr].
  - destruct s as [d sl ws ds al].
    unfold post_seller_withdrawals. unfold_storage. serve_step. split_run;
      apply accounts_kept_same; reflexivity.
  - destruct s as [d sl ws ds al].
    unfold post_admin_withdrawals_approve. unfold_storage. serve_step. split_run;
      apply accounts_kept_same; reflexivity.
  - destruct s as [d sl ws ds al].
    unfold post_admin_withdrawals_complete. unfold_storage. serve_step. split_run;
      try (apply accounts_kept_same; reflexivity).
    eapply accounts_kept_entry; [reflexivity | reflexivity | reflexivity | reflexivity |].
    intros usr Hf.
    match goal with
    | H : find _ (users d) = Some ?u |- _ => rewrite H in Hf; injection Hf as <-
    end.
    unfold signedAmount. simpl. lia.
  - destruct s as [d sl ws ds al].
    unfold post_admin_withdrawals_reject. unfold_storage. serve_step. split_run;
      apply accounts_kept_same; reflexivity.
  - destruct s as [d sl ws ds al].
    unfold deposits_route, isAuthenticated, post_api_deposits. unfold_storage.
    destruct (storage.or_null session); serve_step;
      [| apply accounts_kept_same; reflexivity].
    split_run; apply accounts_kept_same; reflexivity.
  - destruct s as [d sl ws ds al].
    unfold post_admin_deposits_approve. unfold_storage. serve_step.
    destruct (find _ ds) as [x |]; cbn; [| apply accounts_kept_same; reflexivity].
    destruct (find _ (users d)) as [u |] eqn:Hu; cbn;
      [| apply accounts_kept_same; reflexivity].
    eapply accounts_kept_entry; [reflexivity | reflexivity | reflexivity | reflexivity |].
    intros usr Hf. rewrite Hu in Hf. injection Hf as <-. reflexivity.
  - destruct s as [d sl ws ds al].
    unfold post_admin_deposits_reject. unfold_storage. serve_step. split_run;
      apply accounts_kept_same; reflexivity.
Qed.

Lemma serve_all_keeps_accounts l : forall s,
  accounts_kept (core s) (core (serve_all l s)).
Proof.
  induction l as [| x l IH]; intros s; simpl.
  - apply accounts_kept_refl.
  - eapply accounts_kept_trans; [apply perform_keeps_accounts | apply IH].
Qed.

(** X7.  Whatever sequence of these requests is served (orders, payment
    confirmations, admin confirm and cancel, cleanup, releases and
    cancellations of earnings, the release job, withdrawals and deposits;
    not the admin bonus, whose amount is written to the ledger as it was
    sent, and not the admin PATCH of a user), when no storage call fails: no
    account appears or disappears, every balance moves by exactly what the
    account's ledger gained, and a ledger that agreed with the balances
    (accounts having distinct keys) still does. *)
Theorem X7_requests_keep_the_ledger (s : Shop) (l : list (SiteEnv * request)) :
  let s' := serve_all l s in
  balance_follows_ledger (core s) (core s')
  /\ map User.id (users (core s')) = map User.id (users (core s))
  /\ (NoDup (map User.id (users (core s))) ->
      ledger_consistent (core s) = true ->
      ledger_consistent (core s') = true).
Proof.
  intros s'. pose proof (serve_all_keeps_accounts l s) as Hk. fold s' in Hk.
  split; [apply Hk |]. split; [apply Hk |].
  intros Hnd Hc. apply (ledger_consistent_kept _ _ Hk Hnd Hc).
Qed.

(** * Orders awaiting payment *)





(** * Confirmation by the admin *)

(** X9.  POST /api/admin/orders/:id/confirm on an order bound to a unit
    (whatever the order's state), the earning key being fresh and, for an
    account product, the stock less the quantity fitting the 32-bit stock
    column: the answer is 200, the order is paid and delivers the unit's
    content, the unit is sold, the stock of an account product drops by the
    quantity, and one pending earning for the order is appended, its amount
    [(price * (1 - 0.05)).toFixed(2)]. *)
Theorem X9_admin_confirm_delivers_bound_unit
    (d : DB) (e : Env) (orderId : ident) (det : storage.OrderWithDetails)
    (i : ident) (it : ProductItem.t) :
  fst (storage.getOrderWithDetails orderId d) = inr (Some det) ->
  Order.productItemId (storage.order det) = Some i ->
  storage.productItem det = Some it ->
  existsb (fun x => (PendingEarning.id x =? newEarningId e)%string) (pendingEarnings d)
  = false ->
  (Product.category (storage.product det) = account ->
   int4 (Product.stock (storage.product det) - Order.quantity (storage.order det)) = true) ->
  exists d',
    run (post_admin_orders_confirm e orderId) d = (inr (Res 200 OrderConfirmed), d')
    /\ order_status_of d' orderId = Some paid
    /\ option_map Order.deliveredContent
         (find (fun x => (Order.id x =? orderId)%string) (orders d'))
       = Some (Some (ProductItem.content it))
    /\ item_status d' i = Some sold
    /\ match Product.category (storage.product det) with
       | account =>
           option_map Product.stock
             (find (fun x => (Product.id x =? Order.productId (storage.order det))%string)
                   (products d'))
           = Some (Product.stock (storage.product det) - Order.quantity (storage.order det))
       | software => products d' = products d
       end
    /\ pendingEarnings d' = pendingEarnings d ++ [earningFor e (storage.order det)].
Proof.
  intros Hdet Hi Hit Hfresh Hfit.
  destruct d as [us ps its os ws rs cs pes ls].
  unfold storage.getOrderWithDetails, query in Hdet. cbn [fst] in Hdet.
  cbn [orders products users productItems pendingEarnings] in *.
  injection Hdet as Hdet.
  destruct (find _ os) as [o |] eqn:Ho; [| discriminate Hdet].
  destruct (find _ ps) as [p |] eqn:Hp; [| discriminate Hdet].
  injection Hdet as <-. cbn [storage.order storage.product storage.productItem] in *.
  rewrite Hi in Hit.
  assert (Hoid : exists o0, find (fun x => (Order.id x =? orderId)%string) os = Some o0).
  { apply find_some in Ho. destruct Ho as [Hin Hb].
    apply andb_true_iff in Hb. destruct Hb as [Hb _].
    apply andb_true_iff in Hb. destruct Hb as [Hb _].
    destruct (find (fun x => (Order.id x =? orderId)%string) os) as [o0 |] eqn:Hf;
      [eauto |].
    pose proof (find_none _ _ Hf o Hin) as Hc. simpl in Hc. congruence. }
  destruct Hoid as [o0 Ho0].
  pose proof (spec_run (mkDB us ps its os ws rs cs pes ls)
                (post_admin_orders_confirm e orderId)
    (fun r d' =>
       r = Res 200 OrderConfirmed
       /\ orders d'
          = update_where (fun x => (Order.id x =? orderId)%string)
              (fun x => Order.mk (Order.id x) (Order.orderCode x) (Order.buyerId x)
                          (Order.sellerId x) (Order.productId x) (Order.productItemId x)
                          (Order.quantity x) (Order.price x) (Order.paymentMethod x)
                          (Order.status x) (Some (ProductItem.content it))
                          (Order.createdAt x))
              (update_where (fun x => (Order.id x =? orderId)%string)
                 (storage.set_order_status paid) os)
       /\ productItems d'
          = update_where (fun x => (ProductItem.id x =? i)%string) make_sold its
       /\ products d'
          = match Product.category p with
            | account =>
                update_where (fun x => (Product.id x =? Order.productId o)%string)
                  (fun x => Product.mk (Product.id x) (Product.sellerId x) (Product.title x)
                              (Product.category x) (Product.price x)
                              (Product.stock p - Order.quantity o))
                  ps
            | software => ps
            end
       /\ pendingEarnings d' = pes ++ [earningFor e o])
    (fun _ _ => False)) as Hrun.
  match type of Hrun with ?P -> _ => assert (Hspec : P) end.
  { unfold post_admin_orders_confirm, handler, holdSellerEarning.
    apply spec_try.
    eapply spec_weaken with (E := fun _ _ => False);
      [| intros r d' H; exact H | intros ex d' F; destruct F].
    apply spec_bind. autounfold with storage_ops. apply spec_query; [discriminate |].
    cbn [orders products users productItems]. rewrite Ho, Hp.
    cbn [storage.order storage.product storage.productItem]. rewrite Hi, Hit.
    apply spec_bind. apply spec_command; [discriminate |].
    apply spec_bind. apply spec_bind. apply spec_command; [discriminate |].
    apply spec_command; [discriminate |].
    apply spec_bind.
    destruct (Product.category p) eqn:Hcat;
      [apply spec_updateProductStock;
         [discriminate | intros _
         | intros Hbad; rewrite (Hfit eq_refl) in Hbad; discriminate Hbad]
      | apply spec_ret];
      (apply spec_bind; apply spec_bind; apply spec_await; [discriminate |];
       unfold storage.createPendingEarning; cbn [pendingEarnings set_orders
         set_productItems set_products];
       rewrite Hfresh;
       autounfold with storage_ops; apply spec_command; [discriminate |];
       apply spec_bind; apply spec_command; [discriminate |];
       apply spec_bind; apply spec_ret; apply spec_bind; apply spec_ret;
       apply spec_bind;
       eapply spec_weaken;
         [apply spec_payReferralCommission | | intros ex d' F; destruct F];
       intros u1 d' (Hps & Hits & Hos & Hpes & _); apply spec_ret;
       split; [reflexivity |];
       rewrite Hps, Hits, Hos, Hpes; repeat split). }
  specialize (Hrun Hspec). clear Hspec.
  destruct (run (post_admin_orders_confirm e orderId) (mkDB us ps its os ws rs cs pes ls))
    as [[ex | r] d']; [destruct Hrun |].
  destruct Hrun as (-> & Hos & Hits & Hps & Hpes).
  exists d'. split; [reflexivity |].
  cbn [products pendingEarnings].
  split; [| split; [| split; [| split; [| exact Hpes]]]].
  - unfold order_status_of. rewrite Hos.
    rewrite !(find_update_where_key Order.id) by (intros; reflexivity).
    rewrite Ho0. reflexivity.
  - rewrite Hos. rewrite !(find_update_where_key Order.id) by (intros; reflexivity).
    rewrite Ho0. reflexivity.
  - unfold item_status. rewrite Hits.
    rewrite (find_update_where_key ProductItem.id) by (intros; reflexivity).
    rewrite Hit. reflexivity.
  - rewrite Hps. destruct (Product.category p); [| reflexivity].
    rewrite (find_update_where_key Product.id) by (intros; reflexivity).
    rewrite Hp. reflexivity.
Qed.

Lemma X9_admin_confirm_delivers_bound_unit_witness :
  exists d',
    run (post_admin_orders_confirm sampleEnv "o1") sweepDB
    = (inr (Res 200 OrderConfirmed), d')
    /\ order_status_of d' "o1" = Some paid
    /\ item_status d' "i1" = Some sold.
Proof.
  destruct (X9_admin_confirm_delivers_bound_unit sweepDB sampleEnv "o1"
              (storage.mkDetails
                 (Order.mk "o1" "DH-1" "buyer" "seller" "p1" (Some "i1") 1 10000 qr
                           pending_payment None 0)
                 (Product.mk "p1" "seller" "Account" account 10000 2)
                 (Some (ProductItem.mk "i1" "p1" "login1|secret1" reserved (Some 1800000))))
              "i1" (ProductItem.mk "i1" "p1" "login1|secret1" reserved (Some 1800000)))
    as (d' & Hrun & Hst & _ & Hit & _).
  - reflexivity.
  - reflexivity.
  - reflexivity.
  - reflexivity.
  - intros _. reflexivity.
  - exists d'. split; [exact Hrun |]. split; assumption.
Defined.

(** * Cancellation by the admin *)

(** X10.  POST /api/admin/orders/:id/cancel never moves money: accounts,
    ledger, pending earnings and products are as before, whatever the state
    of the order was.  On 200 the order is cancelled and the unit it was
    bound to is available again with no reservation; any other answer
    leaves the database as it was. *)
Theorem X10_admin_cancel_refunds_nothing
    (d : DB) (orderId : ident) (r : response) (d' : DB) :
  run (post_admin_orders_cancel orderId) d = (inr r, d') ->
  users d' = users d
  /\ walletTransactions d' = walletTransactions d
  /\ pendingEarnings d' = pendingEarnings d
  /\ products d' = products d
  /\ (status r = 200 ->
      exists det,
        fst (storage.getOrderWithDetails orderId d) = inr (Some det)
        /\ order_status_of d' orderId = Some cancelled
        /\ (forall i x, Order.productItemId (storage.order det) = Some i ->
                        In x (productItems d') -> ProductItem.id x = i ->
                        ProductItem.status x = available
                        /\ ProductItem.reservedUntil x = None)
        /\ (Order.productItemId (storage.order det) = None ->
            productItems d' = productItems d))
  /\ (status r <> 200 -> d' = d).
Proof.
  destruct d as [us ps its os ws rs cs pes ls]. intros Hrun.
  unfold post_admin_orders_cancel in Hrun.
  unfold storage.updateOrderStatus, storage.updateProductItemStatus,
    storage.createAdminLog in Hrun.
  remember (storage.getOrderWithDetails orderId) as lookup eqn:Hl.
  unfold run, handler, try_catch, bind, await, ret, command in Hrun. cbn in Hrun.
  destruct (lookup (mkDB us ps its os ws rs cs pes ls)) as [found d0] eqn:Hfound.
  assert (Hq : d0 = mkDB us ps its os ws rs cs pes ls
               /\ exists v, found = inr v).
  { subst lookup. unfold storage.getOrderWithDetails, query in Hfound.
    injection Hfound as <- <-. split; [reflexivity | eauto]. }
  destruct Hq as [-> [v ->]]. cbn in Hrun.
  destruct v as [det |]; cbn in Hrun;
    [| injection Hrun as <- <-; repeat split; discriminate].
  assert (Hoid : exists o0, find (fun x => (Order.id x =? orderId)%string) os = Some o0).
  { subst lookup. unfold storage.getOrderWithDetails, query in Hfound.
    cbn [orders products users productItems] in Hfound.
    injection Hfound as Hfound.
    destruct (find _ os) as [o |] eqn:Ho in Hfound; [| discriminate Hfound].
    apply find_some in Ho. destruct Ho as [Hin Hb].
    apply andb_true_iff in Hb. destruct Hb as [Hb _].
    apply andb_true_iff in Hb. destruct Hb as [Hb _].
    destruct (find (fun x => (Order.id x =? orderId)%string) os) as [o0 |] eqn:Hf;
      [eauto |].
    pose proof (find_none _ _ Hf o Hin) as Hc. simpl in Hc. congruence. }
  destruct Hoid as [o0 Ho0].
  assert (Hst : forall its',
    order_status_of
      (mkDB us ps its'
         (update_where (fun o => (Order.id o =? orderId)%string)
            (storage.set_order_status cancelled) os) ws rs cs pes
         (ls ++ [AdminLog.mk "order_cancelled" (MetaOrder orderId)])) orderId
    = Some cancelled).
  { intros its'. unfold order_status_of. cbn [orders].
    rewrite (find_update_where_key Order.id) by (intros; reflexivity).
    rewrite Ho0. reflexivity. }
  destruct (Order.productItemId (storage.order det)) as [i |] eqn:Hi; cbn in Hrun;
    injection Hrun as <- <-;
    (split; [reflexivity |]; split; [reflexivity |]; split; [reflexivity |];
     split; [reflexivity |];
     split; [intros _ | intros F; exfalso; apply F; reflexivity];
     exists det; split; [reflexivity |];
     split; [apply Hst |]).
  - split; [| intros F; rewrite Hi in F; discriminate F].
    intros i0 x Hi0 Hx Hid. rewrite Hi in Hi0. injection Hi0 as <-. cbn [productItems] in Hx.
    unfold update_where in Hx. apply in_map_iff in Hx. destruct Hx as (y & Hy & _).
    destruct (ProductItem.id y =? i)%string eqn:Hyi.
    + subst x. split; reflexivity.
    + subst x. apply String.eqb_neq in Hyi. contradiction.
  - split; [intros i0 x F; rewrite Hi in F; discriminate F | reflexivity].
Qed.

Lemma X10_admin_cancel_refunds_nothing_witness :
  users (snd (run (post_admin_orders_cancel "o1") sweepDB)) = users sweepDB
  /\ walletTransactions (snd (run (post_admin_orders_cancel "o1") sweepDB)) = []
  /\ order_status_of (snd (run (post_admin_orders_cancel "o1") sweepDB)) "o1"
     = Some cancelled.
Proof.
  remember (run (post_admin_orders_cancel "o1") sweepDB) as out eqn:E in |- *.
  destruct out as [res d']. symmetry in E.
  assert (Hr : exists r, res = inr r /\ status r = 200).
  { vm_compute in E. injection E as <- _. eexists. split; reflexivity. }
  destruct Hr as (r & -> & Hst).
  destruct (X10_admin_cancel_refunds_nothing sweepDB "o1" r d' E)
    as (Hu & Hw & _ & _ & Hok & _).
  destruct (Hok Hst) as (det & _ & Hc & _).
  simpl snd. split; [exact Hu |]. split; [rewrite Hw; reflexivity | exact Hc].
Defined.

(** * The two shares of a price *)

(** X11.  For a price of at most 2^44 hundredths, the 5% commission and
    the 95% seller share, each as binary64 arithmetic and toFixed(2) give
    it, add up to the price unless the price in hundredths is 10 modulo 20
    (both exact shares then end in half a hundredth); in every case the two
    differ from the price by at most one hundredth.  A price of 0.30 gives
    0.01 and 0.28, one hundredth short. *)
Theorem X11_commission_split_adds_up (price : money) :
  Z.abs price <= 2 ^ 44 ->
  (price mod 20 <> 10 -> commissionAmount price + sellerAmount price = price)
  /\ Z.abs (commissionAmount price + sellerAmount price - price) <= 1
  /\ (commissionAmount 30 = 1 /\ sellerAmount 30 = 28).
Proof.
  intros Hb.
  destruct (sellerAmount_rounds price Hb) as [Hs _].
  pose proof (commissionAmount_rounds price Hb) as Hc.
  set (s := sellerAmount price) in *. set (c := commissionAmount price) in *.
  clearbody s c. clear Hb.
  pose proof (Z.div_mod price 20 ltac:(lia)) as Hdm.
  pose proof (Z.mod_pos_bound price 20 ltac:(lia)) as Hm.
  set (m := price mod 20) in *. set (q := price / 20) in *. clearbody m q.
  assert (Hsum : c + s - price = 0 \/ c + s - price = 1 \/ c + s - price = -1) by lia.
  split; [| split; [lia | split; vm_compute; reflexivity]].
  intros Hne. destruct Hsum as [H | [H | H]].
  - lia.
  - assert (100 * c - 5 * price = 50) by lia. lia.
  - assert (100 * c - 5 * price = -50) by lia. lia.
Qed.

Lemma X11_commission_split_adds_up_witness :
  commissionAmount 10000 + sellerAmount 10000 = 10000
  /\ Z.abs (commissionAmount 30 + sellerAmount 30 - 30) <= 1.
Proof.
  split.
  - apply (X11_commission_split_adds_up 10000); [lia | vm_compute; lia].
  - apply (X11_commission_split_adds_up 30). lia.
Defined.

(** * Reading several free units *)

Lemma swept_available productId t r :
  storage.is_available_of productId
    (if storage.is_expired_of productId t r then storage.make_available r else r)
  = allocatable productId t r.
Proof.
  unfold allocatable. destruct (storage.is_expired_of productId t r) eqn:He.
  - rewrite orb_true_r. unfold storage.is_expired_of in He.
    apply andb_true_iff in He. destruct He as [Hp _].
    unfold storage.is_available_of, storage.make_available. simpl.
    rewrite Hp. reflexivity.
  - rewrite orb_false_r. reflexivity.
Qed.

(** X12.  [getAvailableProductItems productId count]: for [count >= 0] it
    returns min(count, number of allocatable units) rows, each an available
    unit of the product, carrying the key and content of a unit that was
    allocatable (available, or reserved with an expired reservation); for
    [count < 0] the query has no LIMIT and returns every available unit of
    the product, as many as were allocatable.  In both cases it puts back
    exactly the product's units whose reservation expired and changes no
    other row.  Nothing is said about the order of the rows. *)
Theorem X12_multi_unit_read_hands_out_free_units
    (d : DB) (productId : ident) (count : Z) (t : timestamp) :
  let swept := set_productItems d
                 (update_where (storage.is_expired_of productId t) storage.make_available
                               (productItems d)) in
  (0 <= count ->
   exists rows,
     storage.getAvailableProductItems productId count t d = (inr rows, swept)
     /\ List.length rows
        = Nat.min (Z.to_nat count)
                  (List.length (filter (allocatable productId t) (productItems d)))
     /\ (forall r, In r rows ->
           ProductItem.productId r = productId
           /\ ProductItem.status r = available
           /\ In r (productItems swept)
           /\ exists r0, In r0 (productItems d)
                         /\ allocatable productId t r0 = true
                         /\ ProductItem.id r0 = ProductItem.id r
                         /\ ProductItem.content r0 = ProductItem.content r))
  /\ (count < 0 ->
      exists rows,
        storage.getAvailableProductItems productId count t d = (inr rows, swept)
        /\ List.length rows
           = List.length (filter (allocatable productId t) (productItems d))
        /\ (forall r, In r rows <->
              In r (productItems swept) /\ storage.is_available_of productId r = true))
  /\ (List.length (productItems swept) = List.length (productItems d)
      /\ forall it', In it' (productItems swept) <->
            exists it, In it (productItems d)
                       /\ it' = (if storage.is_expired_of productId t it
                                 then storage.make_available it else it))
  /\ (forall it, In it (productItems d) ->
        storage.is_expired_of productId t it = true <->
        (ProductItem.productId it = productId /\ reservation_expired t it)).
Proof.
  intros swept. split; [| split; [| split]].
  - intros Hc. unfold storage.getAvailableProductItems.
    replace (count <? 0) with false by (symmetry; apply Z.ltb_ge; exact Hc).
    eexists. split; [reflexivity |].
    split.
    { rewrite length_firstn. f_equal. unfold update_where.
      rewrite filter_map_length. f_equal. apply filter_ext. intros r.
      apply swept_available. }
    intros r Hr. apply In_firstn in Hr. apply filter_In in Hr. destruct Hr as [Hin Hav].
    unfold storage.is_available_of in Hav. apply andb_true_iff in Hav.
    destruct Hav as [Hp Hs]. apply String.eqb_eq in Hp.
    split; [exact Hp |].
    split; [destruct (ProductItem.status r); try discriminate Hs; reflexivity |].
    split; [exact Hin |].
    unfold update_where in Hin. apply in_map_iff in Hin.
    destruct Hin as (r0 & Hr0 & Hin0). exists r0. split; [exact Hin0 |].
    assert (Hal : allocatable productId t r0 = true).
    { rewrite <- swept_available. rewrite Hr0. unfold storage.is_available_of.
      rewrite Hp, String.eqb_refl, Hs. reflexivity. }
    split; [exact Hal |].
    destruct (storage.is_expired_of productId t r0); subst r; split; reflexivity.
  - intros Hc. unfold storage.getAvailableProductItems.
    replace (count <? 0) with true by (symmetry; apply Z.ltb_lt; exact Hc).
    eexists. split; [reflexivity |].
    split.
    { unfold update_where. rewrite filter_map_length. f_equal.
      apply filter_ext. intros r. apply swept_available. }
    intros r. subst swept. simpl. apply filter_In.
  - subst swept. simpl. unfold update_where. split; [apply length_map |].
    intros it'. rewrite in_map_iff. split.
    + intros (it & <- & Hin). exists it. split; [exact Hin | reflexivity].
    + intros (it & Hin & ->). exists it. split; [reflexivity | exact Hin].
  - intros it _. unfold storage.is_expired_of. rewrite andb_true_iff, String.eqb_eq.
    rewrite is_expired_iff. reflexivity.
Qed.

(** * The pending balance *)

Lemma pendingBalance_read d sellerId :
  DatabaseStorage.getSellerPendingBalance sellerId d = (inr (pendingBalance d sellerId), d).
Proof. reflexivity. Qed.

(** Settling one pending row takes its amount off its seller's pending
    balance. *)
Lemma pendingBalance_settled (l : list PendingEarning.t) pe st t note sellerId :
  NoDup (map PendingEarning.id l) -> In pe l ->
  PendingEarning.status pe = pending -> st <> pending ->
  fold_right Z.add 0
    (map PendingEarning.amount
       (filter (DatabaseStorage.is_pending_of sellerId)
          (update_where (fun p => (PendingEarning.id p =? PendingEarning.id pe)%string)
             (storage.set_earning_status st t note) l)))
  = fold_right Z.add 0
      (map PendingEarning.amount (filter (DatabaseStorage.is_pending_of sellerId) l))
    - (if (PendingEarning.sellerId pe =? sellerId)%string then PendingEarning.amount pe else 0).
Proof.
  intros Hnd Hin Hst Hne. induction l as [| a l IH]; [contradiction |].
  inversion Hnd as [| ? ? Ha Hl]; subst. simpl.
  destruct Hin as [-> | Hin].
  - rewrite String.eqb_refl.
    rewrite (update_where_none _ _ l).
    + replace (DatabaseStorage.is_pending_of sellerId
                 (storage.set_earning_status st t note pe)) with false
        by (unfold DatabaseStorage.is_pending_of; simpl;
            destruct st; try (rewrite andb_false_r; reflexivity); contradiction).
      replace (DatabaseStorage.is_pending_of sellerId pe)
        with (PendingEarning.sellerId pe =? sellerId)%string
        by (unfold DatabaseStorage.is_pending_of; rewrite Hst, andb_true_r; reflexivity).
      destruct (PendingEarning.sellerId pe =? sellerId)%string; simpl; lia.
    + intros r Hr. apply String.eqb_neq. intros Hid. apply Ha.
      rewrite <- Hid. apply in_map. exact Hr.
  - destruct (PendingEarning.id a =? PendingEarning.id pe)%string eqn:Hid.
    + apply String.eqb_eq in Hid. exfalso. apply Ha. rewrite Hid. apply in_map. exact Hin.
    + specialize (IH Hl Hin).
      destruct (DatabaseStorage.is_pending_of sellerId a); simpl; lia.
Qed.

(** X13.  A wallet order answered 201 changes the pending balance of the
    product's seller by the seller share of the total,
    [(total * (1 - 0.05)).toFixed(2)] as binary64 arithmetic gives it, and
    no other seller's; the seller's wallet is not credited by the sale (the
    seller being neither the buyer nor the buyer's referrer). *)
Theorem X13_pending_balance_after_sale
    (d : DB) (e : Env) (userId productId : ident) (quantity : Z) (r : response) (d' : DB) :
  run (post_api_orders e userId productId quantity wallet) d = (inr r, d') ->
  status r = 201 ->
  exists p,
    fst (storage.getProductWithSeller productId d) = inr (Some p)
    /\ pendingBalance d' (Product.sellerId p)
       = pendingBalance d (Product.sellerId p) + sellerAmount (Product.price p * quantity)
    /\ (forall other, other <> Product.sellerId p ->
                      pendingBalance d' other = pendingBalance d other)
    /\ (Product.sellerId p <> userId ->
        (forall ref, In ref (referrals d) -> Referral.referredId ref = userId ->
                     Referral.referrerId ref <> Product.sellerId p) ->
        balanceOf d' (Product.sellerId p) = balanceOf d (Product.sellerId p)).
Proof.
  intros Hrun Hst.
  destruct (wallet_created _ _ _ _ _ _ _ Hrun Hst)
    as (p & buyer & c & ids & d0 & d1 & o & Hp & Hb & Hbal & Hsame & _ & _ & Hpaid & Href).
  exists p. split; [unfold storage.getProductWithSeller, query; simpl; rewrite Hp; reflexivity |].
  destruct Hsame as (Hu0 & _ & _ & Hw0 & Hr0 & _ & Hpe0).
  pose proof Hpaid as (Ho & _ & _ & _ & Hu1 & _ & _ & _ & _ & Hpe1 & Hr1 & _).
  pose proof Href as (_ & _ & _ & Hpe2 & Hdue).
  assert (Hpe : pendingEarnings d' = pendingEarnings d ++ [earningFor e o])
    by congruence.
  assert (Hsum : forall v,
    pendingBalance d' v
    = pendingBalance d v
      + (if (Product.sellerId p =? v)%string then sellerAmount (Product.price p * quantity)
         else 0)).
  { intros v. unfold pendingBalance. rewrite Hpe, filter_app, map_app, sum_app.
    f_equal. simpl. unfold DatabaseStorage.is_pending_of. simpl.
    rewrite Ho. simpl.
    destruct (Product.sellerId p =? v)%string; simpl; lia. }
  split; [rewrite Hsum, String.eqb_refl; reflexivity |].
  split.
  { intros other Hne. rewrite Hsum.
    replace (Product.sellerId p =? other)%string with false; [lia |].
    symmetry. apply String.eqb_neq. congruence. }
  intros Hns Hnr. unfold balanceOf.
  assert (H1 : find (fun x => (User.id x =? Product.sellerId p)%string) (users d1)
               = find (fun x => (User.id x =? Product.sellerId p)%string) (users d)).
  { rewrite Hu1, Hu0.
    apply (find_update_where_other User.id); [intros; reflexivity | exact Hns]. }
  destruct (referralDue userId (Product.price p * quantity) d1) as [[ref a] |] eqn:Hd.
  - destruct Hdue as (Hu2 & _).
    destruct (referralDue_found _ _ _ _ _ Hd) as [Hin Hrid].
    rewrite Hu2, (find_update_where_other User.id), H1; [reflexivity | intros; reflexivity |].
    intros E. apply (Hnr ref); [congruence | exact Hrid | symmetry; exact E].
  - destruct Hdue as (Hu2 & _). rewrite Hu2, H1. reflexivity.
Qed.

Lemma X13_pending_balance_after_sale_witness :
  pendingBalance (snd (run (post_api_orders sampleEnv "buyer" "p1" 1 wallet) exactStockDB))
                 "seller"
  = 9500
  /\ balanceOf (snd (run (post_api_orders sampleEnv "buyer" "p1" 1 wallet) exactStockDB))
               "seller"
     = Some 0.
Proof.
  remember (run (post_api_orders sampleEnv "buyer" "p1" 1 wallet) exactStockDB)
    as out eqn:E in |- *.
  destruct out as [res d']. symmetry in E.
  assert (Hr : exists r, res = inr r /\ status r = 201).
  { vm_compute in E. injection E as <- _. eexists. split; reflexivity. }
  destruct Hr as (r & -> & Hst).
  destruct (X13_pending_balance_after_sale exactStockDB sampleEnv "buyer" "p1" 1 r d' E Hst)
    as (p & Hp & Hpb & _ & Hbal).
  injection Hp as <-. simpl Product.sellerId in Hpb, Hbal.
  simpl snd. split.
  - rewrite Hpb. reflexivity.
  - rewrite Hbal; [reflexivity | discriminate | intros ref []].
Defined.

(** * Settling a pending earning *)

Lemma pendingBalance_other (l : list PendingEarning.t) pe st t note other :
  NoDup (map PendingEarning.id l) -> In pe l ->
  PendingEarning.status pe = pending -> st <> pending ->
  other <> PendingEarning.sellerId pe ->
  fold_right Z.add 0
    (map PendingEarning.amount
       (filter (DatabaseStorage.is_pending_of other)
          (update_where (fun p => (PendingEarning.id p =? PendingEarning.id pe)%string)
             (storage.set_earning_status st t note) l)))
  = fold_right Z.add 0
      (map PendingEarning.amount (filter (DatabaseStorage.is_pending_of other) l)).
Proof.
  intros Hnd Hin Hst Hne Ho.
  rewrite (pendingBalance_settled l pe st t note other Hnd Hin Hst Hne).
  replace (PendingEarning.sellerId pe =? other)%string with false; [lia |].
  symmetry. apply String.eqb_neq. congruence.
Qed.

(** X14.  Settling a pending earning of an existing account: release
    moves its amount from the seller's pending balance to the seller's
    wallet; cancellation takes it off the pending balance and leaves the
    wallet alone; no other seller's pending balance moves. *)
Theorem X14_pending_balance_when_settled
    (s : Shop) (e : SiteEnv) (pe : PendingEarning.t) (note : option string) (b : money) :
  NoDup (map PendingEarning.id (pendingEarnings (core s))) ->
  In pe (pendingEarnings (core s)) ->
  PendingEarning.status pe = pending ->
  balanceOf (core s) (PendingEarning.sellerId pe) = Some b ->
  let seller := PendingEarning.sellerId pe in
  let paidOut :=
    snd (run (post_admin_pending_earnings_release (base e) (PendingEarning.id pe) note)
             (core s)) in
  let voided :=
    core (snd (serve (post_admin_pending_earnings_cancel e (PendingEarning.id pe) note) s)) in
  (pendingBalance paidOut seller = pendingBalance (core s) seller - PendingEarning.amount pe
   /\ balanceOf paidOut seller = Some (b + PendingEarning.amount pe)
   /\ forall other, other <> seller ->
                    pendingBalance paidOut other = pendingBalance (core s) other)
  /\ (pendingBalance voided seller
      = pendingBalance (core s) seller - PendingEarning.amount pe
      /\ balanceOf voided seller = Some b
      /\ forall other, other <> seller ->
                       pendingBalance voided other = pendingBalance (core s) other).
Proof.
  intros Hnd Hin Hst Hb seller paidOut voided.
  pose proof (find_by_key_NoDup PendingEarning.id _ pe Hnd Hin) as Hf.
  assert (Hu : exists u, find (fun u => (User.id u =? seller)%string) (users (core s)) = Some u
                         /\ User.walletBalance u = b).
  { unfold balanceOf in Hb. fold seller in Hb.
    destruct (find (fun u => (User.id u =? seller)%string) (users (core s))) as [u |];
      [| discriminate Hb].
    simpl in Hb. injection Hb as Hb. eauto. }
  destruct Hu as (u & Hu & Hbu).
  split.
  - assert (Hrel : paidOut
      = set_adminLogs
          (release_effect (now (base e)) note ReasonEarningReleased (core s)
             (PendingEarning.id pe))
          (adminLogs (core s)
           ++ [AdminLog.mk "pending_earning_released"
                 (MetaEarning (PendingEarning.id pe) (PendingEarning.amount pe))])).
    { subst paidOut.
      pose proof (spec_run _ _ _ _
        (spec_release_endpoint (core s) (base e) (PendingEarning.id pe) note)) as H.
      destruct (run (post_admin_pending_earnings_release (base e) (PendingEarning.id pe) note)
                    (core s)) as [[ex | r] d1]; [destruct H |].
      rewrite Hf, Hst in H. simpl in H. destruct H as [_ H]. exact H. }
    assert (Hpes : pendingEarnings paidOut
      = update_where (fun p => (PendingEarning.id p =? PendingEarning.id pe)%string)
          (storage.set_earning_status released (now (base e)) note)
          (pendingEarnings (core s))).
    { rewrite Hrel. simpl. apply release_effect_earnings. }
    split; [| split].
    + unfold pendingBalance. rewrite Hpes.
      rewrite (pendingBalance_settled _ pe) by (auto; discriminate).
      fold seller. rewrite String.eqb_refl. reflexivity.
    + rewrite Hrel. unfold balanceOf, release_effect. rewrite Hf. fold seller. rewrite Hu.
      simpl users. rewrite (find_update_where_key User.id) by (intros; reflexivity).
      rewrite Hu. simpl. rewrite Hbu. reflexivity.
    + intros other Ho. unfold pendingBalance. rewrite Hpes.
      apply pendingBalance_other; auto; discriminate.
  - assert (Hcan : voided
      = set_pendingEarnings (core s)
          (update_where (fun p => (PendingEarning.id p =? PendingEarning.id pe)%string)
             (storage.set_earning_status earning_cancelled (now (base e)) note)
             (pendingEarnings (core s)))).
    { subst voided. destruct s as [d sl ws ds al]. simpl core in *.
      unfold post_admin_pending_earnings_cancel, storage.getPendingEarningById,
        storage.cancelPendingEarning, DatabaseStorage.createAdminLog, returned_row.
      serve_step. rewrite Hf. cbn. rewrite Hst. cbn. rewrite Hf. cbn. reflexivity. }
    split; [| split].
    + unfold pendingBalance. rewrite Hcan. simpl pendingEarnings.
      rewrite (pendingBalance_settled _ pe) by (auto; discriminate).
      fold seller. rewrite String.eqb_refl. reflexivity.
    + rewrite Hcan. exact Hb.
    + intros other Ho. unfold pendingBalance. rewrite Hcan. simpl pendingEarnings.
      apply pendingBalance_other; auto; discriminate.
Qed.

Lemma X14_pending_balance_when_settled_witness :
  pendingBalance
    (snd (run (post_admin_pending_earnings_release sampleEnv "pe1" None) earningDB)) "seller"
  = 0
  /\ balanceOf
       (snd (run (post_admin_pending_earnings_release sampleEnv "pe1" None) earningDB))
       "seller"
     = Some 9500
  /\ balanceOf
       (core (snd (serve (post_admin_pending_earnings_cancel sampleSiteEnv "pe1" None)
                         (shopOf earningDB))))
       "seller"
     = Some 0.
Proof.
  assert (Hnd : NoDup (map PendingEarning.id (pendingEarnings (core (shopOf earningDB))))).
  { simpl. constructor; [intros [] | constructor]. }
  assert (Hin : In dueEarning (pendingEarnings (core (shopOf earningDB))))
    by (left; reflexivity).
  destruct (X14_pending_balance_when_settled (shopOf earningDB) sampleSiteEnv dueEarning None 0
              Hnd Hin eq_refl eq_refl)
    as [(Hp & Hb & _) (_ & Hb' & _)].
  split; [exact Hp |]. split; [exact Hb | exact Hb'].
Defined.

(** * The key of an account line *)

Lemma before_first_bar_app u rest :
  before_first_bar (u ++ String bar rest) = before_first_bar u.
Proof.
  induction u as [| c u IH]; simpl.
  - reflexivity.
  - destruct (Ascii.eqb c bar); [reflexivity | rewrite IH; reflexivity].
Qed.

Lemma before_first_bar_free u :
  (forall c, In c (list_ascii_of_string u) -> c <> bar) -> before_first_bar u = u.
Proof.
  induction u as [| c u IH]; simpl; intros H; [reflexivity |].
  destruct (Ascii.eqb_spec c bar) as [-> | _].
  - exfalso. apply (H bar); auto.
  - rewrite IH; [reflexivity |]. intros c0 Hc0. apply H. auto.
Qed.

(** X15.  [hashUid] depends only on the text before the first bar: two
    account lines with the same first field hash alike, the hash is the
    digest of that field when it is not empty, and a line with an empty
    first field, or an empty line, hashes to the empty string. *)
Theorem X15_hashUid_reads_the_uid_field (sha256_hex : string -> string) (uid rest : string) :
  hashUid sha256_hex (uid ++ String bar rest) = hashUid sha256_hex uid
  /\ ((forall c, In c (list_ascii_of_string uid) -> c <> bar) ->
      uid <> EmptyString ->
      hashUid sha256_hex (uid ++ String bar rest) = sha256_hex uid)
  /\ hashUid sha256_hex (String bar rest) = EmptyString
  /\ hashUid sha256_hex EmptyString = EmptyString.
Proof.
  split; [| split; [| split; reflexivity]].
  - unfold hashUid. rewrite before_first_bar_app. reflexivity.
  - intros Hfree Hne. unfold hashUid.
    rewrite before_first_bar_app, (before_first_bar_free uid Hfree).
    destruct (uid =? EmptyString)%string eqn:E; [| reflexivity].
    apply String.eqb_eq in E. contradiction.
Qed.

(** * One run of the release job *)

Lemma release_effect_balance t note why d i v :
  balanceOf (release_effect t note why d i) v
  = option_map (fun b => b + credit_of d i v) (balanceOf d v).
Proof.
  assert (Hsame : forall z, z = 0 ->
            option_map User.walletBalance
              (find (fun r => (User.id r =? v)%string) (users d))
            = option_map (fun b => b + z)
                (option_map User.walletBalance
                   (find (fun r => (User.id r =? v)%string) (users d)))).
  { intros z ->. destruct (find (fun r => (User.id r =? v)%string) (users d)); simpl;
      [f_equal; lia | reflexivity]. }
  unfold release_effect, credit_of, balanceOf.
  destruct (find _ (pendingEarnings d)) as [r0 |].
  - destruct (find (fun u => (User.id u =? PendingEarning.sellerId r0)%string) (users d))
      as [u |] eqn:Hu.
    + simpl users.
      destruct (PendingEarning.sellerId r0 =? v)%string eqn:Hs.
      * apply String.eqb_eq in Hs. subst v.
        rewrite (find_update_where_key User.id) by (intros; reflexivity).
        rewrite Hu. reflexivity.
      * apply String.eqb_neq in Hs.
        rewrite (find_update_where_other User.id) by (auto; intros; reflexivity).
        apply Hsame. reflexivity.
    + simpl users.
      destruct (PendingEarning.sellerId r0 =? v)%string eqn:Hs.
      * apply String.eqb_eq in Hs. subst v. rewrite Hu. reflexivity.
      * apply Hsame. reflexivity.
  - simpl users. apply Hsame. reflexivity.
Qed.

Lemma credit_of_step t note why d j i v :
  credit_of (release_effect t note why d j) i v = credit_of d i v.
Proof.
  unfold credit_of. rewrite release_effect_earnings.
  destruct (String.eqb_spec i j) as [-> | Hij].
  - rewrite (find_update_where_key PendingEarning.id) by (intros; reflexivity).
    destruct (find _ (pendingEarnings d)); reflexivity.
  - rewrite (find_update_where_other PendingEarning.id) by (auto; intros; reflexivity).
    reflexivity.
Qed.

Lemma release_fold_balance t note why v ids : forall d,
  balanceOf (fold_left (release_effect t note why) ids d) v
  = option_map (fun b => b + fold_right Z.add 0 (map (fun i => credit_of d i v) ids))
               (balanceOf d v).
Proof.
  induction ids as [| i ids IH]; intros d; simpl.
  - destruct (balanceOf d v); simpl; [f_equal; lia | reflexivity].
  - rewrite IH, release_effect_balance.
    replace (map (fun i0 => credit_of (release_effect t note why d i) i0 v) ids)
      with (map (fun i0 => credit_of d i0 v) ids)
      by (apply map_ext; intros; symmetry; apply credit_of_step).
    destruct (balanceOf d v); simpl; [f_equal; lia | reflexivity].
Qed.

Lemma release_fold_earnings t note why ids : forall d,
  pendingEarnings (fold_left (release_effect t note why) ids d)
  = update_where (fun p => existsb (String.eqb (PendingEarning.id p)) ids)
                 (storage.set_earning_status released t note) (pendingEarnings d).
Proof.
  induction ids as [| i ids IH]; intros d; simpl.
  - unfold update_where. rewrite map_id. reflexivity.
  - rewrite IH, release_effect_earnings. unfold update_where. rewrite map_map.
    apply map_ext. intros r. cbn [existsb].
    destruct (PendingEarning.id r =? i)%string eqn:Hi; cbn [orb].
    + change (PendingEarning.id
                (storage.set_earning_status released t note r)) with (PendingEarning.id r).
      destruct (existsb (String.eqb (PendingEarning.id r)) ids); reflexivity.
    + reflexivity.
Qed.

Lemma sum_perm (l l' : list Z) :
  Permutation l l' -> fold_right Z.add 0 l = fold_right Z.add 0 l'.
Proof. induction 1; simpl; lia. Qed.

Lemma sum_filter_if {A} (p : A -> bool) (f : A -> Z) l :
  fold_right Z.add 0 (map (fun x => if p x then f x else 0) l)
  = fold_right Z.add 0 (map f (filter p l)).
Proof.
  induction l as [| x l IH]; simpl; auto. destruct (p x); simpl; lia.
Qed.

Lemma picked_iff t d r :
  NoDup (map PendingEarning.id (pendingEarnings d)) ->
  In r (pendingEarnings d) ->
  existsb (String.eqb (PendingEarning.id r)) (map PendingEarning.id (releasable t d))
  = storage.is_releasable t r.
Proof.
  intros Hnd Hin.
  destruct (storage.is_releasable t r) eqn:Hr.
  - apply existsb_exists. exists (PendingEarning.id r). split; [| apply String.eqb_refl].
    apply in_map. apply releasable_spec. split; assumption.
  - destruct (existsb _ _) eqn:Hex; [| reflexivity].
    apply existsb_exists in Hex. destruct Hex as (i & Hi & He).
    apply String.eqb_eq in He. apply in_map_iff in Hi. destruct Hi as (x & Hx & Hxin).
    apply releasable_spec in Hxin. destruct Hxin as [Hxin Hxr].
    assert (x = r).
    { eapply (NoDup_key_inj PendingEarning.id); eauto. congruence. }
    subst x. congruence.
Qed.

Lemma due_credits t d v :
  NoDup (map PendingEarning.id (pendingEarnings d)) ->
  fold_right Z.add 0
    (map (fun i => credit_of d i v) (map PendingEarning.id (releasable t d)))
  = dueTotal t d v.
Proof.
  intros Hnd. unfold dueTotal. rewrite map_map.
  rewrite (sum_perm _ (map (fun x => credit_of d (PendingEarning.id x) v)
                           (filter (storage.is_releasable t) (pendingEarnings d))))
    by (apply Permutation_map; unfold releasable; apply sort_by_releaseAt_perm).
  rewrite (map_ext_in _ (fun x => if (PendingEarning.sellerId x =? v)%string
                                  then PendingEarning.amount x else 0)).
  - rewrite sum_filter_if. f_equal. f_equal.
    generalize (pendingEarnings d). intros l.
    induction l as [| x l IH]; simpl; auto.
    destruct (storage.is_releasable t x); simpl;
      destruct (PendingEarning.sellerId x =? v)%string; simpl; rewrite IH; reflexivity.
  - intros x Hx. apply filter_In in Hx. destruct Hx as [Hx _].
    unfold credit_of. rewrite (find_by_key_NoDup PendingEarning.id _ x Hnd Hx). reflexivity.
Qed.

Lemma releasable_is_pending t p :
  storage.is_releasable t p = true -> PendingEarning.status p = pending.
Proof.
  unfold storage.is_releasable. intros H. apply andb_true_iff in H. destruct H as [H _].
  destruct (PendingEarning.status p); try discriminate H; reflexivity.
Qed.

Lemma pending_after_job t note v (l : list PendingEarning.t) :
  fold_right Z.add 0
    (map PendingEarning.amount
       (filter (DatabaseStorage.is_pending_of v)
          (update_where (storage.is_releasable t)
                        (storage.set_earning_status released t note) l)))
  = fold_right Z.add 0
      (map PendingEarning.amount (filter (DatabaseStorage.is_pending_of v) l))
    - fold_right Z.add 0
        (map PendingEarning.amount
           (filter (fun p => (PendingEarning.sellerId p =? v)%string
                             && storage.is_releasable t p) l)).
Proof.
  induction l as [| x l IH]; [reflexivity |].
  unfold update_where in *. cbn [map filter].
  destruct (storage.is_releasable t x) eqn:Hr.
  - pose proof (releasable_is_pending t x Hr) as Hp.
    assert (H1 : DatabaseStorage.is_pending_of v
                   (storage.set_earning_status released t note x) = false).
    { unfold DatabaseStorage.is_pending_of. simpl. apply andb_false_r. }
    assert (H2 : DatabaseStorage.is_pending_of v x
                 = (PendingEarning.sellerId x =? v)%string).
    { unfold DatabaseStorage.is_pending_of. rewrite Hp. simpl. apply andb_true_r. }
    rewrite H1, H2, andb_true_r.
    destruct (PendingEarning.sellerId x =? v)%string; simpl; rewrite IH; lia.
  - rewrite andb_false_r.
    destruct (DatabaseStorage.is_pending_of v x); simpl; rewrite IH; lia.
Qed.

Lemma nothing_left_to_release t note (l : list PendingEarning.t) :
  filter (storage.is_releasable t)
         (update_where (storage.is_releasable t)
                       (storage.set_earning_status released t note) l)
  = [].
Proof.
  induction l as [| x l IH]; simpl; [reflexivity |].
  destruct (storage.is_releasable t x) eqn:Hr.
  - unfold storage.is_releasable at 1. simpl. exact IH.
  - rewrite Hr. exact IH.
Qed.

Lemma job_run d e :
  snd (run (releasePendingEarnings e) d)
  = fold_left (release_effect (now e) (Some autoReleaseNote) ReasonEarningAutoReleased)
              (map PendingEarning.id (releasable (now e) d)) d.
Proof.
  pose proof (spec_run _ _ _ _ (spec_releasePendingEarnings d e)) as H.
  unfold run in *.
  destruct (releasePendingEarnings e (mkWorld d None)) as [[ex | r] w]; [destruct H |].
  simpl. exact H.
Qed.

(** X16.  One run of the release job, earnings having distinct keys and no
    storage call failing: exactly the earnings that are pending and due
    become released, stamped with the run's time and note; every account's
    wallet grows by the total of its due earnings and its pending balance
    drops by the same total; a second run at the same time changes
    nothing. *)
Theorem X16_job_pays_what_is_due (d : DB) (e : Env) :
  NoDup (map PendingEarning.id (pendingEarnings d)) ->
  let d' := snd (run (releasePendingEarnings e) d) in
  pendingEarnings d'
  = update_where (storage.is_releasable (now e))
                 (storage.set_earning_status released (now e) (Some autoReleaseNote))
                 (pendingEarnings d)
  /\ (forall v, balanceOf d' v
                = option_map (fun b => b + dueTotal (now e) d v) (balanceOf d v))
  /\ (forall v, pendingBalance d' v = pendingBalance d v - dueTotal (now e) d v)
  /\ snd (run (releasePendingEarnings e) d') = d'.
Proof.
  intros Hnd d'.
  assert (Hpe : pendingEarnings d'
                = update_where (storage.is_releasable (now e))
                    (storage.set_earning_status released (now e) (Some autoReleaseNote))
                    (pendingEarnings d)).
  { subst d'. rewrite job_run, release_fold_earnings. unfold update_where.
    apply map_ext_in. intros r Hr. rewrite (picked_iff _ _ _ Hnd Hr). reflexivity. }
  split; [exact Hpe |]. split; [| split].
  - intros v. subst d'. rewrite job_run, release_fold_balance, (due_credits _ _ _ Hnd).
    reflexivity.
  - intros v. unfold pendingBalance. rewrite Hpe. apply pending_after_job.
  - rewrite job_run. unfold releasable. rewrite Hpe, nothing_left_to_release. reflexivity.
Qed.

Lemma X16_job_pays_what_is_due_witness :
  balanceOf (snd (run (releasePendingEarnings sampleEnv) earningDB)) "seller" = Some 9500
  /\ pendingBalance (snd (run (releasePendingEarnings sampleEnv) earningDB)) "seller" = 0.
Proof.
  assert (Hnd : NoDup (map PendingEarning.id (pendingEarnings earningDB))).
  { simpl. constructor; [intros [] | constructor]. }
  destruct (X16_job_pays_what_is_due earningDB sampleEnv Hnd) as (_ & Hb & Hp & _).
  split; [rewrite Hb | rewrite Hp]; reflexivity.
Defined.
